(** * Sprint synchronisation: description parser, status mapper, progress
      aggregation and merge logic

    A shallow embedding of [scripts/utils/status_mapper.py],
    [scripts/utils/jira_parser.py], [scripts/sync_jira.py] and
    [scripts/sync_jira_to_repo.py], followed by the properties of the
    specification that concern them.

    Conventions.
    - A Python [str] is the list of its code points ([pystr]).
    - Python's Unicode database is not part of the repository.  Its ASCII
      half is written out below; what it says about code points from 128
      upwards is a parameter ([runtime]), as is the iteration order of a
      Python [set].
    - IEEE binary64 arithmetic is [SpecFloat] at precision 53. *)

From Stdlib Require Import List ZArith NArith Bool String Ascii Lia.
From Stdlib Require Import SpecFloat DecimalString DecimalZ DecimalPos.
Import ListNotations.

Set Implicit Arguments.

Local Open Scope N_scope.

(* ================================================================== *)
(** * Python strings *)
(* ================================================================== *)

Definition pystr := list N.

(** An ASCII literal as a Python string. *)
Definition py (s : string) : pystr := map N_of_ascii (list_ascii_of_string s).

Definition pystr_eqb (a b : pystr) : bool :=
  if list_eq_dec N.eq_dec a b then true else false.

(** [bool(s)] for a string. *)
Definition nonempty (s : pystr) : bool :=
  match s with [] => false | _ :: _ => true end.

(** Character classes the regular expressions and [str.strip] look at:
    [Space] is [str.isspace] (and [\s]), [Decimal] is [\d].  No code point
    is in both. *)
Inductive cclass := Space | Decimal | Other.

(** What the interpreter supplies and the repository does not fix. *)
Record runtime := {
  (** class of a code point >= 128 *)
  class_hi : N -> cclass;
  (** [s.lower()] at position [i] of [s], for a code point >= 128 there
      (one to three code points; the final sigma depends on its context) *)
  lower_hi : pystr -> nat -> pystr;
  (** the order in which a [set] of strings built from the given
      elements is iterated *)
  set_order : list pystr -> list pystr
}.

(** A set is iterated once per distinct element. *)
Definition set_order_ok (R : runtime) : Prop :=
  forall l, NoDup (set_order R l) /\ forall x, In x (set_order R l) <-> In x l.

Definition ascii_class (c : N) : cclass :=
  if ((9 <=? c) && (c <=? 13)) || ((28 <=? c) && (c <=? 32)) then Space
  else if (48 <=? c) && (c <=? 57) then Decimal
  else Other.

Definition ascii_lower (c : N) : N :=
  if (65 <=? c) && (c <=? 90) then c + 32 else c.

Section Strings.

Variable R : runtime.

Definition class_of (c : N) : cclass :=
  if c <? 128 then ascii_class c else class_hi R c.

Definition isspace (c : N) : bool :=
  match class_of c with Space => true | _ => false end.

Definition isdecimal (c : N) : bool :=
  match class_of c with Decimal => true | _ => false end.

Fixpoint lower_from (whole : pystr) (i : nat) (s : pystr) : pystr :=
  match s with
  | [] => []
  | c :: r =>
      (if c <? 128 then [ascii_lower c] else lower_hi R whole i)
        ++ lower_from whole (S i) r
  end.

(** [s.lower()] *)
Definition lower (s : pystr) : pystr := lower_from s 0 s.

Fixpoint drop_while (p : N -> bool) (s : pystr) : pystr :=
  match s with
  | [] => []
  | c :: r => if p c then drop_while p r else s
  end.

Definition lstrip (s : pystr) : pystr := drop_while isspace s.
Definition rstrip (s : pystr) : pystr := rev (drop_while isspace (rev s)).

(** [s.strip()] *)
Definition strip (s : pystr) : pystr := rstrip (lstrip s).

End Strings.

(** [s.rstrip(ch)] for a one-character argument. *)
Definition rstrip_char (ch : N) (s : pystr) : pystr :=
  rev (drop_while (N.eqb ch) (rev s)).

(** [s.startswith(p)] *)
Fixpoint startswith (p s : pystr) : bool :=
  match p, s with
  | [], _ => true
  | _ :: _, [] => false
  | a :: p', b :: s' => (a =? b) && startswith p' s'
  end.

(** [p in s] *)
Fixpoint contains (p s : pystr) : bool :=
  startswith p s || match s with [] => false | _ :: r => contains p r end.

(** [s.split(sep)] for a one-character separator. *)
Fixpoint split_on (sep : N) (s : pystr) : list pystr :=
  match s with
  | [] => [[]]
  | c :: r =>
      if c =? sep then [] :: split_on sep r
      else match split_on sep r with
           | l :: ls => (c :: l) :: ls
           | [] => [[c]]
           end
  end.

Definition LF : N := 10.

(** [str(n)] and [f'{n}'] for an integer. *)
Definition str_of_int (n : Z) : pystr := py (NilZero.string_of_int (Z.to_int n)).

(** [dict.get(key, default)] on a key that may be absent. *)
Definition get_or {A} (o : option A) (default : A) : A :=
  match o with Some a => a | None => default end.

(* ================================================================== *)
(** * status_mapper.py *)
(* ================================================================== *)

Module StatusMapper.

Definition Done : pystr := py "Done".
Definition InProgress : pystr := py "In Progress".
Definition ToDo : pystr := py "To Do".

Fixpoint lookup {A} (k : pystr) (tbl : list (pystr * A)) : option A :=
  match tbl with
  | [] => None
  | (k', v) :: r => if pystr_eqb k k' then Some v else lookup k r
  end.

Definition STATUS_CATEGORY_MAP : list (pystr * pystr) :=
  [ (py "done", Done); (py "indeterminate", InProgress); (py "new", ToDo) ].

(** Code points of the Polish letters in the table:
    e-ogonek 281, a-ogonek 261, n-acute 324, o-acute 243, l-stroke 322. *)
Definition STATUS_NAME_FALLBACK : list (pystr * pystr) :=
  [ (py "done", Done);
    (py "gotowe", Done);
    (py "closed", Done);
    (py "zamkni" ++ [281] ++ py "te", Done);
    (py "zamkniete", Done);
    (py "resolved", Done);
    (py "rozwi" ++ [261] ++ py "zane", Done);
    (py "rozwiazane", Done);
    (py "complete", Done);
    (py "completed", Done);
    (py "zako" ++ [324] ++ py "czone", Done);
    (py "zakonczone", Done);
    (py "in progress", InProgress);
    (py "w trakcie", InProgress);
    (py "w toku", InProgress);
    (py "in development", InProgress);
    (py "in review", InProgress);
    (py "review", InProgress);
    (py "testing", InProgress);
    (py "testowanie", InProgress);
    (py "in testing", InProgress);
    (py "code review", InProgress);
    (py "przegl" ++ [261] ++ py "d kodu", InProgress);
    (py "przeglad kodu", InProgress);
    (py "to do", ToDo);
    (py "do zrobienia", ToDo);
    (py "backlog", ToDo);
    (py "open", ToDo);
    (py "new", ToDo);
    (py "nowe", ToDo);
    (py "otwarte", ToDo);
    (py "selected for development", ToDo);
    (py "ready", ToDo);
    (py "gotowe do realizacji", ToDo) ].

(** [{'key': ...}]: the key may be absent. *)
Record StatusCategory := { sc_key : option pystr }.

(** The [status] field of an issue: both entries may be absent. *)
Record StatusField := {
  sf_name : option pystr;
  sf_statusCategory : option StatusCategory
}.

(** Truth value of the dictionaries: a [dict] is false iff it is empty. *)
Definition category_truthy (c : StatusCategory) : bool :=
  match sc_key c with Some _ => true | None => false end.

Definition field_truthy (f : StatusField) : bool :=
  match sf_name f, sf_statusCategory f with
  | None, None => false
  | _, _ => true
  end.

Section WithRuntime.
Variable R : runtime.

Definition name_fallback (f : StatusField) : pystr :=
  let status_name := get_or (sf_name f) [] in
  if nonempty status_name then
    let status_lower := strip R (lower R status_name) in
    match lookup status_lower STATUS_NAME_FALLBACK with
    | Some v => v
    | None => ToDo
    end
  else ToDo.

Definition map_jira_status (status_field : option StatusField) : pystr :=
  match status_field with
  | None => ToDo
  | Some f =>
      if negb (field_truthy f) then ToDo
      else
        match sf_statusCategory f with
        | Some cat =>
            if category_truthy cat then
              let category_key := lower R (get_or (sc_key cat) []) in
              match lookup category_key STATUS_CATEGORY_MAP with
              | Some v => v
              | None => name_fallback f
              end
            else name_fallback f
        | None => name_fallback f
        end
  end.

End WithRuntime.

End StatusMapper.

(* ================================================================== *)
(** * jira_parser.py *)
(* ================================================================== *)

Module JiraParser.

(** A parsed declaration: [{'id', 'title', 'client', 'tag'}]. *)
Record GoalDeclaration := {
  d_id : Z;
  d_title : pystr;
  d_client : option pystr;
  d_tag : pystr
}.

(** The dictionary [parse_sprint_description] returns. *)
Record ParseResult := {
  goals : list GoalDeclaration;
  sideGoals : list GoalDeclaration
}.

Inductive section := SecGoals | SecSideGoals.

(** The variables of the main loop of [parse_sprint_description]. *)
Record loop_state := {
  current_section : option section;
  goal_counter : Z;
  side_goal_counter : Z;
  result : ParseResult
}.

(** A task as [transform_issue] builds it. *)
Record Task := {
  key : pystr;
  summary : pystr;
  status : pystr;
  labels : list pystr;
  epic : option pystr;
  assignee : option pystr
}.

(** The dictionary [calculate_goal_progress] returns. *)
Record Progress := {
  done : Z;
  inProgress : Z;
  todo : Z;
  total : Z;
  percent : Z
}.

Definition LBRACKET : N := 91.
Definition RBRACKET : N := 93.
Definition SPACE : N := 32.

(** Section keywords; l-stroke is 322 and o-acute 243. *)
Definition kw_cele_glowne : pystr := py "cele g" ++ [322; 243] ++ py "wne".
Definition kw_cele_sprintu : pystr := py "cele sprintu".
Definition kw_sprint_goals : pystr := py "sprint goals".
Definition kw_cele_poboczne : pystr := py "cele poboczne".
Definition kw_side_goals : pystr := py "side goals".
Definition kw_poboczn : pystr := py "poboczn".

(** The list of the first pass. *)
Definition first_pass_keywords : list pystr :=
  [kw_cele_glowne; kw_cele_sprintu; kw_sprint_goals; kw_cele_poboczne; kw_side_goals].

(** Longest prefix free of ']' and what follows it: the greedy [[^\]]*]. *)
Fixpoint span_not_rbracket (s : pystr) : pystr * pystr :=
  match s with
  | [] => ([], [])
  | c :: r =>
      if c =? RBRACKET then ([], s)
      else let (g, rest) := span_not_rbracket r in (c :: g, rest)
  end.

(** A match of [\[([^\]]+)\]] at the start of [s]: group 1 and the text
    after the match.  The class cannot match ']', so the greedy run is the
    only candidate. *)
Definition bracket_at (s : pystr) : option (pystr * pystr) :=
  match s with
  | c :: r =>
      if c =? LBRACKET then
        match span_not_rbracket r with
        | ((_ :: _) as g, _ :: rest) => Some (g, rest)
        | _ => None
        end
      else None
  | [] => None
  end.

(** [re.search(r'\[([^\]]+)\]', text)]: group 1 of the leftmost match. *)
Fixpoint search_bracket (s : pystr) : option pystr :=
  match s with
  | [] => None
  | _ :: r =>
      match bracket_at s with
      | Some (g, _) => Some g
      | None => search_bracket r
      end
  end.

(** [s.startswith('##') or s.startswith('**')] *)
Definition _is_section_header (line : pystr) : bool :=
  startswith (py "##") line || startswith (py "**") line.

Section WithRuntime.
Variable R : runtime.

(** A match of [\s*\[[^\]]+\]\s*] at the start of [s]: the text after the
    match.  '[' is not white space, so the first greedy [\s*] never has to
    give characters back. *)
Definition client_pattern_at (s : pystr) : option pystr :=
  match bracket_at (lstrip R s) with
  | Some (_, rest) => Some (lstrip R rest)
  | None => None
  end.

(** [re.sub(r'\s*\[[^\]]+\]\s*', ' ', s)]: scan from the left; at a match
    write one space and resume after it, otherwise copy the character.
    [skip] counts the characters of the current match still to pass. *)
Fixpoint sub_client_pattern (skip : nat) (s : pystr) : pystr :=
  match s with
  | [] => []
  | c :: r =>
      match skip with
      | S k => sub_client_pattern k r
      | O =>
          match client_pattern_at s with
          | Some rest =>
              SPACE :: sub_client_pattern (List.length r - List.length rest) r
          | None => c :: sub_client_pattern 0 r
          end
      end
  end.

Definition parse_client_from_text (text0 : pystr) : option pystr * pystr :=
  let text := strip R text0 in
  match search_bracket text with
  | Some g =>
      let client := strip R g in
      let cleaned := strip R (sub_client_pattern 0 text) in
      (Some client, cleaned)
  | None => (None, text)
  end.

(** The class [[.)\s]]. *)
Definition marker_tail (c : N) : bool :=
  (c =? 46) || (c =? 41) || isspace R c.

(** The class [[-*]]. *)
Definition dash_char (c : N) : bool := (c =? 45) || (c =? 42).

(** [re.match(r'^\d+[.)\s]', line)].  A digit is not in [[.)\s]], so the
    greedy [\d+] takes the whole run of digits. *)
Definition _is_numbered_item (line : pystr) : bool :=
  match line with
  | c :: r =>
      isdecimal R c &&
      match drop_while (isdecimal R) r with
      | x :: _ => marker_tail x
      | [] => false
      end
  | [] => false
  end.

(** [re.match(r'^[-*]\s', line)] *)
Definition _is_dash_item (line : pystr) : bool :=
  match line with
  | c :: x :: _ => dash_char c && isspace R x
  | _ => false
  end.

(** First alternative of the marker pattern, [^[\d]+[.)\s]+], at the
    start of the line: the text after the match. *)
Definition numbered_marker (line : pystr) : option pystr :=
  match line with
  | c :: r =>
      if isdecimal R c then
        match drop_while (isdecimal R) r with
        | (x :: _) as tail =>
            if marker_tail x then Some (drop_while marker_tail tail) else None
        | [] => None
        end
      else None
  | [] => None
  end.

(** Second alternative, [^[-*]\s+]. *)
Definition dash_marker (line : pystr) : option pystr :=
  match line with
  | c :: ((x :: _) as tail) =>
      if dash_char c && isspace R x then Some (drop_while (isspace R) tail)
      else None
  | _ => None
  end.

(** [re.sub(r'^[\d]+[.)\s]+|^[-*]\s+', '', line)]: [^] only matches at
    position 0, so there is at most one replacement. *)
Definition strip_marker (line : pystr) : pystr :=
  match numbered_marker line with
  | Some rest => rest
  | None =>
      match dash_marker line with
      | Some rest => rest
      | None => line
      end
  end.

Definition mentions_goals (lower_line : pystr) : bool :=
  contains kw_cele_glowne lower_line || contains kw_cele_sprintu lower_line
  || contains kw_sprint_goals lower_line.

Definition mentions_side_goals (lower_line : pystr) : bool :=
  contains kw_cele_poboczne lower_line || contains kw_side_goals lower_line
  || contains kw_poboczn lower_line.

Definition set_section (st : loop_state) (s : option section) : loop_state :=
  {| current_section := s;
     goal_counter := goal_counter st;
     side_goal_counter := side_goal_counter st;
     result := result st |}.

Definition add_goal (goal_prefix : pystr) (st : loop_state)
    (client : option pystr) (title : pystr) : loop_state :=
  let goal_counter' := (goal_counter st + 1)%Z in
  {| current_section := current_section st;
     goal_counter := goal_counter';
     side_goal_counter := side_goal_counter st;
     result :=
       {| goals := goals (result st) ++
            [ {| d_id := goal_counter'; d_title := title; d_client := client;
                 d_tag := goal_prefix ++ str_of_int goal_counter' |} ];
          sideGoals := sideGoals (result st) |} |}.

Definition add_side_goal (side_goal_prefix : pystr) (st : loop_state)
    (client : option pystr) (title : pystr) : loop_state :=
  let side_goal_counter' := (side_goal_counter st + 1)%Z in
  {| current_section := current_section st;
     goal_counter := goal_counter st;
     side_goal_counter := side_goal_counter';
     result :=
       {| goals := goals (result st);
          sideGoals := sideGoals (result st) ++
            [ {| d_id := side_goal_counter'; d_title := title;
                 d_client := client;
                 d_tag := side_goal_prefix ++ str_of_int side_goal_counter' |} ] |} |}.

(** One iteration of the second loop; every [continue] returns the state. *)
Definition parse_line (has_explicit_headers : bool)
    (goal_prefix side_goal_prefix : pystr)
    (st : loop_state) (line0 : pystr) : loop_state :=
  let line := strip R line0 in
  if negb (nonempty line) then st
  else
    let lower_line := lower R line in
    if mentions_goals lower_line then set_section st (Some SecGoals)
    else if mentions_side_goals lower_line then set_section st (Some SecSideGoals)
    else if _is_section_header line then set_section st None
    else
      let is_numbered := _is_numbered_item line in
      let is_dash := _is_dash_item line in
      if negb is_numbered && negb is_dash then st
      else
        let target_section :=
          if has_explicit_headers then current_section st
          else if is_numbered then Some SecGoals
          else if is_dash then Some SecSideGoals
          else None in
        match target_section with
        | None => st
        | Some sec =>
            let cleaned := strip_marker line in
            if negb (nonempty cleaned) then st
            else
              let (client, title) := parse_client_from_text cleaned in
              match sec with
              | SecGoals => add_goal goal_prefix st client title
              | SecSideGoals => add_side_goal side_goal_prefix st client title
              end
        end.

(** The first pass: does some line mention a section keyword? *)
Definition has_explicit_headers (lines : list pystr) : bool :=
  existsb (fun line =>
             let lower_line := strip R (lower R line) in
             existsb (fun keyword => contains keyword lower_line)
                     first_pass_keywords)
          lines.

Definition initial_state : loop_state :=
  {| current_section := None; goal_counter := 0; side_goal_counter := 0;
     result := {| goals := []; sideGoals := [] |} |}.

Definition parse_lines (goal_prefix side_goal_prefix : pystr)
    (lines : list pystr) : loop_state :=
  fold_left (parse_line (has_explicit_headers lines) goal_prefix side_goal_prefix)
            lines initial_state.

Definition parse_sprint_description (description goal_prefix side_goal_prefix : pystr)
    : ParseResult :=
  if negb (nonempty description) then {| goals := []; sideGoals := [] |}
  else
    let lines := split_on LF (strip R description) in
    result (parse_lines goal_prefix side_goal_prefix lines).

Definition default_goal_prefix : pystr := py "cel".
Definition default_side_goal_prefix : pystr := py "extra".

(** [re.sub(r'[-_\s]', '', s)] *)
Definition drop_separators (s : pystr) : pystr :=
  filter (fun c => negb ((c =? 45) || (c =? 95) || isspace R c)) s.

(** The loop over the labels, for the tag set in its iteration order. *)
Fixpoint match_labels (tags : list pystr) (task_labels : list pystr) : option pystr :=
  match task_labels with
  | [] => None
  | label :: rest =>
      let label_lower := lower R label in
      if existsb (pystr_eqb label_lower) tags then Some label_lower
      else
        let normalized := drop_separators label_lower in
        match find (fun tag => pystr_eqb normalized (drop_separators tag)) tags with
        | Some tag => Some tag
        | None => match_labels tags rest
        end
  end.

Definition map_task_to_goal (task_labels : list pystr)
    (goals : list GoalDeclaration) : option pystr :=
  let goal_tags := set_order R (map (fun g => lower R (d_tag g)) goals) in
  match_labels goal_tags task_labels.

Definition map_task_to_side_goal (task_labels : list pystr)
    (side_goals : list GoalDeclaration) : option pystr :=
  let side_goal_tags := set_order R (map (fun sg => lower R (d_tag sg)) side_goals) in
  match_labels side_goal_tags task_labels.

End WithRuntime.

(** ** Binary64 arithmetic of the percentage *)

Definition prec : Z := 53.
Definition emax : Z := 1024.

(** An integer as an operand of the correctly rounded quotient. *)
Definition operand_of_int (a : Z) : spec_float :=
  match a with
  | Z0 => S754_zero false
  | Zpos p => S754_finite false p 0
  | Zneg p => S754_finite true p 0
  end.

(** [float(n)] *)
Definition float_of_int (n : Z) : spec_float := binary_normalize prec emax n 0 false.

(** [a / b] on integers: the quotient rounded once to binary64;
    [None] is [ZeroDivisionError] or [OverflowError]. *)
Definition int_truediv (a b : Z) : option spec_float :=
  if (b =? 0)%Z then None
  else
    match SFdiv prec emax (operand_of_int a) (operand_of_int b) with
    | S754_infinity _ | S754_nan => None
    | q => Some q
    end.

(** [round(x)] on a float: nearest integer, ties to even; [None] is the
    exception raised on an infinity or a NaN. *)
Definition py_round (x : spec_float) : option Z :=
  match x with
  | S754_zero _ => Some 0%Z
  | S754_finite s m e =>
      let a :=
        match e with
        | Zneg k =>
            let d := Z.pow 2 (Zpos k) in
            let q := Z.div (Zpos m) d in
            let r := Z.modulo (Zpos m) d in
            match Z.compare (2 * r) d with
            | Lt => q
            | Gt => (q + 1)%Z
            | Eq => if Z.even q then q else (q + 1)%Z
            end
        | _ => (Zpos m * Z.pow 2 e)%Z
        end in
      Some (if s then Z.opp a else a)
  | _ => None
  end.

(** [round((done / total) * 100)] *)
Definition percent_of (done total : Z) : option Z :=
  match int_truediv done total with
  | Some q => py_round (SFmul prec emax q (float_of_int 100))
  | None => None
  end.

(** [sum(1 for t in goal_tasks if t.get('status') == s)] *)
Definition count_status (s : pystr) (goal_tasks : list Task) : Z :=
  Z.of_nat (List.length (filter (fun t => pystr_eqb (status t) s) goal_tasks)).

(** [None] stands for an exception escaping the function. *)
Definition calculate_goal_progress (goal_tasks : list Task) : option Progress :=
  match goal_tasks with
  | [] => Some {| done := 0; inProgress := 0; todo := 0; total := 0; percent := 0 |}
  | _ :: _ =>
      let total := Z.of_nat (List.length goal_tasks) in
      let done := count_status StatusMapper.Done goal_tasks in
      let in_progress := count_status StatusMapper.InProgress goal_tasks in
      let todo := (total - done - in_progress)%Z in
      match percent_of done total with
      | Some p =>
          Some {| done := done; inProgress := in_progress; todo := todo;
                  total := total; percent := p |}
      | None => None
      end
  end.

End JiraParser.

(* ================================================================== *)
(** * sync_jira.py and sync_jira_to_repo.py: shared part *)
(* ================================================================== *)

Module Sync.
Import JiraParser.

(** A JSON value; the comments of a goal are kept as they were read. *)
#[local] Unset Elimination Schemes.
Inductive json :=
| JNull
| JBool (b : bool)
| JNumber (n : Z)
| JString (s : pystr)
| JArray (items : list json)
| JObject (members : list (pystr * json)).
#[local] Set Elimination Schemes.

Record TaskStats := {
  ts_done : Z;
  ts_inProgress : Z;
  ts_todo : Z;
  ts_total : Z
}.

(** An entry of ['goals'] or ['sideGoals'] of the record that is built. *)
Record GoalRecord := {
  g_id : Z;
  g_title : pystr;
  g_client : option pystr;
  g_tag : pystr;
  g_completed : bool;
  g_completionPercent : Z;
  g_taskStats : TaskStats;
  g_tasks : list pystr;
  g_comments : list json
}.

(** The record [build_sprint_data] returns. *)
Record StoredSprint := {
  s_id : Z;
  s_name : pystr;
  s_status : pystr;
  s_startDate : pystr;
  s_endDate : pystr;
  s_goals : list GoalRecord;
  s_sideGoals : list GoalRecord;
  s_achievements : pystr;
  s_tasks : list Task;
  s_nextSprintPlans : pystr;
  s_jiraBaseUrl : pystr;
  s_jiraTimelineUrl : pystr;
  s_closedAt : option pystr
}.

(** What the scripts read of a stored goal: ['id'] by subscript,
    ['comments'] by [get], so it may be missing. *)
Record ExistingGoal := {
  eg_id : Z;
  eg_comments : option (list json)
}.

(** What the scripts read of the stored sprint; every key is read by
    [get] and may be missing. *)
Record ExistingData := {
  ex_status : option pystr;
  ex_goals : option (list ExistingGoal);
  ex_sideGoals : option (list ExistingGoal);
  ex_achievements : option pystr;
  ex_nextSprintPlans : option pystr;
  ex_closedAt : option pystr
}.

(** A sprint as the tracker returns it. *)
Record RawSprint := {
  rs_id : Z;
  rs_name : option pystr;
  rs_goal : option pystr;
  rs_state : option pystr;
  rs_startDate : option pystr;
  rs_endDate : option pystr
}.

Record Assignee := {
  a_displayName : option pystr;
  a_name : option pystr
}.

Record Fields := {
  f_summary : option pystr;
  f_status : option StatusMapper.StatusField;
  f_labels : option (list pystr);
  f_assignee : option Assignee;
  f_customfield_10014 : option pystr
}.

Record RawIssue := {
  i_key : pystr;
  i_fields : option Fields
}.

(** The answers of the tracker during one run. *)
Record JiraClient := {
  get_sprint : Z -> option RawSprint;
  get_active_sprint : option RawSprint;
  get_sprint_issues : Z -> list RawIssue;
  get_epic_name : pystr -> option pystr
}.

(** The environment variables [build_sprint_data] reads. *)
Record Environ := {
  JIRA_URL : option pystr;
  JIRA_BOARD_ID : option pystr;
  JIRA_PROJECT_KEY : option pystr
}.

(** [f'{x}'] for a value that is a string or [None]. *)
Definition format_opt (x : option pystr) : pystr := get_or x (py "None").

Definition empty_fields : Fields :=
  {| f_summary := None; f_status := None; f_labels := None;
     f_assignee := None; f_customfield_10014 := None |}.

Definition empty_status : StatusMapper.StatusField :=
  {| StatusMapper.sf_name := None; StatusMapper.sf_statusCategory := None |}.

Definition epic_cache := list (pystr * option pystr).

Definition cache_mem (k : pystr) (c : epic_cache) : bool :=
  existsb (fun e => pystr_eqb k (fst e)) c.

(** [cache.get(k)]: the value stored, which may itself be [None]. *)
Definition cache_get (k : pystr) (c : epic_cache) : option pystr :=
  match StatusMapper.lookup k c with Some v => v | None => None end.

Section WithRuntime.
Variable R : runtime.

(** The task and the cache after the call. *)
Definition transform_issue (issue : RawIssue) (cache : epic_cache)
    (jira_client : JiraClient) : Task * epic_cache :=
  let fields := get_or (i_fields issue) empty_fields in
  let epic_key := f_customfield_10014 fields in
  let '(epic_name, cache') :=
    match epic_key with
    | Some k =>
        if nonempty k then
          let cache1 :=
            if cache_mem k cache then cache
            else (k, get_epic_name jira_client k) :: cache in
          (cache_get k cache1, cache1)
        else (None, cache)
    | None => (None, cache)
    end in
  let assignee :=
    match f_assignee fields with
    | Some a =>
        match a_displayName a with
        | Some d => Some d
        | None => a_name a
        end
    | None => None
    end in
  ({| key := i_key issue;
      summary := get_or (f_summary fields) [];
      status := StatusMapper.map_jira_status R
                  (Some (get_or (f_status fields) empty_status));
      labels := get_or (f_labels fields) [];
      epic := epic_name;
      assignee := assignee |},
   cache').

(** [[transform_issue(issue, epic_cache, client) for issue in issues]] *)
Fixpoint transform_issues (issues : list RawIssue) (cache : epic_cache)
    (jira_client : JiraClient) : list Task :=
  match issues with
  | [] => []
  | issue :: rest =>
      let (task, cache') := transform_issue issue cache jira_client in
      task :: transform_issues rest cache' jira_client
  end.

(** The comments kept for the declaration with the given id: those of the
    first stored entry with that id.  An empty dictionary is false in the
    source and takes the [else] branches; every [get] on it yields its
    default, so it is not told apart here. *)
Definition existing_comments_for (stored : option (list ExistingGoal))
    (existing_data : option ExistingData) (id : Z) : list json :=
  match existing_data with
  | Some _ =>
      match find (fun g => (eg_id g =? id)%Z) (get_or stored []) with
      | Some existing_goal => get_or (eg_comments existing_goal) []
      | None => []
      end
  | None => []
  end.

(** The body of either loop of [build_sprint_data]: [mapper] is
    [map_task_to_goal] or [map_task_to_side_goal], [stored] the stored
    list of the same section. *)
Definition build_record
    (mapper : list pystr -> list GoalDeclaration -> option pystr)
    (stored : option (list ExistingGoal))
    (tasks : list Task) (existing_data : option ExistingData)
    (goal_data : GoalDeclaration) : option GoalRecord :=
  let goal_tasks :=
    map key
      (filter (fun task =>
                 match mapper (labels task) [goal_data] with
                 | Some task_tag => pystr_eqb task_tag (d_tag goal_data)
                 | None => false
                 end) tasks) in
  match calculate_goal_progress
          (filter (fun t => existsb (pystr_eqb (key t)) goal_tasks) tasks) with
  | None => None
  | Some progress =>
      Some {| g_id := d_id goal_data;
              g_title := d_title goal_data;
              g_client := d_client goal_data;
              g_tag := d_tag goal_data;
              g_completed := (percent progress =? 100)%Z;
              g_completionPercent := percent progress;
              g_taskStats :=
                {| ts_done := done progress;
                   ts_inProgress := inProgress progress;
                   ts_todo := todo progress;
                   ts_total := total progress |};
              g_tasks := goal_tasks;
              g_comments := existing_comments_for stored existing_data (d_id goal_data) |}
  end.

(** A loop that appends one record per declaration; an exception in an
    iteration ends it. *)
Fixpoint build_records (f : GoalDeclaration -> option GoalRecord)
    (decls : list GoalDeclaration) : option (list GoalRecord) :=
  match decls with
  | [] => Some []
  | d :: rest =>
      match f d with
      | None => None
      | Some g =>
          match build_records f rest with
          | None => None
          | Some gs => Some (g :: gs)
          end
      end
  end.

(** [d.split('T')[0]] when [d] is not empty. *)
Definition date_part (d : pystr) : pystr :=
  if nonempty d then hd [] (split_on 84 d) else d.

(** [build_sprint_data] of [sync_jira.py]. *)
Definition build_sprint_data (env : Environ) (sprint : RawSprint)
    (tasks : list Task) (existing_data : option ExistingData)
    (goal_prefix side_goal_prefix : pystr) : option StoredSprint :=
  let description := get_or (rs_goal sprint) [] in
  let parsed := parse_sprint_description R description goal_prefix side_goal_prefix in
  match build_records
          (build_record (map_task_to_goal R)
             (match existing_data with Some e => ex_goals e | None => None end)
             tasks existing_data)
          (goals parsed) with
  | None => None
  | Some goals =>
  match build_records
          (build_record (map_task_to_side_goal R)
             (match existing_data with Some e => ex_sideGoals e | None => None end)
             tasks existing_data)
          (sideGoals parsed) with
  | None => None
  | Some side_goals =>
      let status :=
        if pystr_eqb (lower R (get_or (rs_state sprint) [])) (py "closed")
        then py "closed" else py "active" in
      let start_date := date_part (get_or (rs_startDate sprint) []) in
      let end_date := date_part (get_or (rs_endDate sprint) []) in
      let jira_url := rstrip_char 47 (get_or (JIRA_URL env) []) in
      let board_id := get_or (JIRA_BOARD_ID env) [] in
      let timeline_url :=
        jira_url ++ py "/jira/software/c/projects/"
          ++ format_opt (JIRA_PROJECT_KEY env)
          ++ py "/boards/" ++ board_id ++ py "/timeline" in
      let existing_next_plans :=
        match existing_data with
        | Some e => get_or (ex_nextSprintPlans e) []
        | None => []
        end in
      let existing_achievements :=
        match existing_data with
        | Some e => get_or (ex_achievements e) []
        | None => []
        end in
      Some {| s_id := rs_id sprint;
              s_name := get_or (rs_name sprint)
                          (py "Sprint " ++ str_of_int (rs_id sprint));
              s_status := status;
              s_startDate := start_date;
              s_endDate := end_date;
              s_goals := goals;
              s_sideGoals := side_goals;
              s_achievements := existing_achievements;
              s_tasks := tasks;
              s_nextSprintPlans := existing_next_plans;
              s_jiraBaseUrl := jira_url;
              s_jiraTimelineUrl := timeline_url;
              s_closedAt :=
                match existing_data with
                | Some e => ex_closedAt e
                | None => None
                end |}
  end end.

(** [build_sprint_data] of [sync_jira_to_repo.py]: the same text, with
    the parser called on its default prefixes. *)
Definition build_sprint_data_repo (env : Environ) (sprint : RawSprint)
    (tasks : list Task) (existing_data : option ExistingData) : option StoredSprint :=
  build_sprint_data env sprint tasks existing_data
    default_goal_prefix default_side_goal_prefix.

End WithRuntime.

(** ** Effects of a run *)

(** What a run does that the outside can see, besides reading. *)
Inductive event :=
| CallBuild (sprint : RawSprint) (existing_data : option ExistingData)
| WriteSprint (sprint_id : Z) (data : StoredSprint)
| WriteCurrentSprint (sprint_id : Z) (is_active : bool).

(** How [main] ends: [sys.exit(code)], a plain return, or an exception. *)
Inductive ending := Exit (code : Z) | Returned | Raised.

(** A computation that logs events and may end the run. *)
Definition Run (A : Type) : Type := (list event * (ending + A))%type.

Definition ret {A} (a : A) : Run A := ([], inr a).
Definition stop {A} (e : ending) : Run A := ([], inl e).
Definition emit (e : event) : Run unit := ([e], inr tt).

Definition bind {A B} (m : Run A) (k : A -> Run B) : Run B :=
  match m with
  | (t, inl e) => (t, inl e)
  | (t, inr a) => let (t', r) := k a in (t ++ t', r)
  end.

Notation "x <- m ;; k" := (bind m (fun x => k))
  (at level 61, m at next level, right associativity).
Notation "m ;;; k" := (bind m (fun _ => k))
  (at level 61, right associativity).

(** The events of a run and how it ended. *)
Definition finish (m : Run unit) : list event * ending :=
  match m with
  | (t, inl e) => (t, e)
  | (t, inr _) => (t, Returned)
  end.

(** [args.sprint_id]: absent, or an integer (0 is false). *)
Definition sprint_id_given (arg : option Z) : option Z :=
  match arg with
  | Some n => if (n =? 0)%Z then None else Some n
  | None => None
  end.

(** The sprint to synchronise, as both [main]s select it. *)
Definition select_sprint (arg : option Z) (client : JiraClient) : Run RawSprint :=
  match sprint_id_given arg with
  | Some n =>
      match get_sprint client n with
      | Some sprint => ret sprint
      | None => stop (Exit 1)
      end
  | None =>
      match get_active_sprint client with
      | Some sprint => ret sprint
      | None => stop (Exit 0)
      end
  end.

(** [existing_data and existing_data.get('status') == 'closed'] *)
Definition closed_locally (existing_data : option ExistingData) : bool :=
  match existing_data with
  | Some e =>
      match ex_status e with
      | Some s => pystr_eqb s (py "closed")
      | None => false
      end
  | None => false
  end.

(** [sprint.get('state', '').lower() == 'active'] *)
Definition is_active (R : runtime) (sprint : RawSprint) : bool :=
  pystr_eqb (lower R (get_or (rs_state sprint) [])) (py "active").

End Sync.

(* ================================================================== *)
(** * sync_jira.py: [main] *)
(* ================================================================== *)

Module SyncJira.
Import JiraParser Sync.

(** The ['labels'] object of [config.json]. *)
Record Labels := {
  goalPrefix : option pystr;
  sideGoalPrefix : option pystr
}.

(** The data directory as the run reads it. *)
Record DataDir := {
  (** [load_existing_sprint]: the stored sprint file, if it exists *)
  sprint_file : Z -> option ExistingData;
  (** ['labels'] of [config.json], if the file and the key exist *)
  config_labels : option Labels
}.

Definition main (R : runtime) (env : Environ) (sprint_id_arg : option Z)
    (client : JiraClient) (data_dir : DataDir) : list event * ending :=
  finish (
    sprint <- select_sprint sprint_id_arg client ;;
    let sprint_id := rs_id sprint in
    let issues := get_sprint_issues client sprint_id in
    let tasks := transform_issues R issues [] client in
    let existing_data := sprint_file data_dir sprint_id in
    if closed_locally existing_data then stop (Exit 0)
    else
      let goal_prefix :=
        match config_labels data_dir with
        | Some l => get_or (goalPrefix l) default_goal_prefix
        | None => default_goal_prefix
        end in
      let side_goal_prefix :=
        match config_labels data_dir with
        | Some l => get_or (sideGoalPrefix l) default_side_goal_prefix
        | None => default_side_goal_prefix
        end in
      emit (CallBuild sprint existing_data) ;;;
      match build_sprint_data R env sprint tasks existing_data
              goal_prefix side_goal_prefix with
      | None => stop Raised
      | Some sprint_data =>
          emit (WriteSprint (s_id sprint_data) sprint_data) ;;;
          emit (WriteCurrentSprint sprint_id (is_active R sprint)) ;;;
          ret tt
      end).

End SyncJira.

(* ================================================================== *)
(** * sync_jira_to_repo.py: [main] *)
(* ================================================================== *)

Module SyncJiraToRepo.
Import JiraParser Sync.

(** The remote repository as the run meets it. *)
Record RepoClient := {
  (** [DATA_REPO_TOKEN] *)
  token : pystr;
  verify_connection : bool;
  (** [get_file('sprint-<id>.json')]: content and sha, or [None] *)
  get_sprint_file : Z -> option (ExistingData * pystr);
  (** sha of [current-sprint.json], if the file can be read *)
  get_current_sha : option pystr;
  (** whether the two [update_file] requests succeed *)
  update_sprint_ok : Z -> StoredSprint -> option pystr -> bool;
  update_current_ok : Z -> bool -> option pystr -> bool
}.

Definition main (R : runtime) (env : Environ) (sprint_id_arg : option Z)
    (jira_client : JiraClient) (repo_client : RepoClient) : list event * ending :=
  finish (
    (if negb (nonempty (token repo_client)) then stop (Exit 1) else ret tt) ;;;
    (if negb (verify_connection repo_client) then stop (Exit 1) else ret tt) ;;;
    sprint <- select_sprint sprint_id_arg jira_client ;;
    let sprint_id := rs_id sprint in
    let issues := get_sprint_issues jira_client sprint_id in
    let tasks := transform_issues R issues [] jira_client in
    let existing_file := get_sprint_file repo_client sprint_id in
    let existing_data := option_map fst existing_file in
    let existing_sha := option_map snd existing_file in
    if closed_locally existing_data then stop (Exit 0)
    else
      emit (CallBuild sprint existing_data) ;;;
      match build_sprint_data_repo R env sprint tasks existing_data with
      | None => stop Raised
      | Some sprint_data =>
          emit (WriteSprint sprint_id sprint_data) ;;;
          (if negb (update_sprint_ok repo_client sprint_id sprint_data existing_sha)
           then stop (Exit 1) else ret tt) ;;;
          let is_active := is_active R sprint in
          let current_sha := get_current_sha repo_client in
          emit (WriteCurrentSprint sprint_id is_active) ;;;
          (if negb (update_current_ok repo_client sprint_id is_active current_sha)
           then stop (Exit 1) else ret tt) ;;;
          ret tt
      end).

End SyncJiraToRepo.


(* ================================================================== *)
(** * jira_parser.py: [extract_next_sprint_plans] *)
(* ================================================================== *)

Module NextSprintPlans.

(** e-ogonek is 281. *)
Definition kw_nastepny_sprint : pystr := py "nast" ++ [281] ++ py "pny sprint".
Definition kw_next_sprint : pystr := py "next sprint".
Definition kw_plany : pystr := py "plany".
Definition kw_nastepny : pystr := py "nast" ++ [281] ++ py "pny".
Definition kw_next : pystr := py "next".

(** ['\n'.join(lines)] *)
Fixpoint join_lines (lines : list pystr) : pystr :=
  match lines with
  | [] => []
  | [line] => line
  | line :: rest => line ++ LF :: join_lines rest
  end.

Section WithRuntime.
Variable R : runtime.

(** The test that starts the section. *)
Definition starts_plans (lower_line : pystr) : bool :=
  contains kw_nastepny_sprint lower_line || contains kw_next_sprint lower_line
  || contains kw_plany lower_line.

(** [line.strip().startswith('##') or line.strip().startswith('**')] *)
Definition is_header (line : pystr) : bool :=
  startswith (py "##") (strip R line) || startswith (py "**") (strip R line).

(** [any(x in lower_line for x in ['następny', 'next', 'plany'])] *)
Definition mentions_next (lower_line : pystr) : bool :=
  existsb (fun x => contains x lower_line) [kw_nastepny; kw_next; kw_plany].

(** The loop over the lines: [in_section] and [plans_lines] are its
    variables; the result is [plans_lines] when the loop ends, by
    exhaustion or by [break]. *)
Fixpoint plans_loop (in_section : bool) (plans_lines : list pystr)
    (lines : list pystr) : list pystr :=
  match lines with
  | [] => plans_lines
  | line :: rest =>
      let lower_line := strip R (lower R line) in
      if starts_plans lower_line then plans_loop true plans_lines rest
      else if in_section && is_header line && negb (mentions_next lower_line)
      then plans_lines
      else if in_section then plans_loop in_section (plans_lines ++ [line]) rest
      else plans_loop in_section plans_lines rest
  end.

Definition extract_next_sprint_plans (description : pystr) : pystr :=
  if negb (nonempty description) then []
  else
    let lines := split_on LF (strip R description) in
    strip R (join_lines (plans_loop false [] lines)).

End WithRuntime.
End NextSprintPlans.

(* ================================================================== *)
(** * [JiraClient.get_sprint_issues] *)
(* ================================================================== *)

Module Pagination.
Import Sync.

Definition max_results : nat := 100.

(** The loop of [get_sprint_issues].  [request start_at] is what
    [result.get('issues')] gives for the request at that offset: [None]
    when the request fails or the answer has no issues key.  [issues] and
    [start_at] are the variables of the loop; [fuel] bounds its iterations
    and [None] means that they were all used. *)
Fixpoint issues_loop (fuel : nat) (request : nat -> option (list RawIssue))
    (start_at : nat) (issues : list RawIssue) : option (list RawIssue) :=
  match fuel with
  | O => None
  | S fuel' =>
      match request start_at with
      | None => Some issues
      | Some [] => Some issues
      | Some ((_ :: _) as page) =>
          let issues' := issues ++ page in
          if (List.length page <? max_results)%nat then Some issues'
          else issues_loop fuel' request (start_at + max_results) issues'
      end
  end.

Definition get_sprint_issues (fuel : nat) (request : nat -> option (list RawIssue))
    : option (list RawIssue) :=
  issues_loop fuel request 0 [].

End Pagination.

(* ================================================================== *)
(** * The stored file read back *)
(* ================================================================== *)

Module Storage.
Import JiraParser Sync.

(** What [load_existing_sprint] reads of a goal that [save_sprint_data]
    wrote. *)
Definition stored_goal (g : GoalRecord) : ExistingGoal :=
  {| eg_id := g_id g; eg_comments := Some (g_comments g) |}.

(** What [load_existing_sprint] reads of a record that
    [save_sprint_data] wrote: every key is present; a null [closedAt] reads
    as [None]. *)
Definition read_back (data : StoredSprint) : ExistingData :=
  {| ex_status := Some (s_status data);
     ex_goals := Some (map stored_goal (s_goals data));
     ex_sideGoals := Some (map stored_goal (s_sideGoals data));
     ex_achievements := Some (s_achievements data);
     ex_nextSprintPlans := Some (s_nextSprintPlans data);
     ex_closedAt := s_closedAt data |}.

(** The data directory after the writes of a run: [save_sprint_data]
    replaces the file of its sprint. *)
Fixpoint after_writes (data_dir : SyncJira.DataDir) (events : list event)
    : SyncJira.DataDir :=
  match events with
  | [] => data_dir
  | WriteSprint sprint_id data :: rest =>
      after_writes
        {| SyncJira.sprint_file :=
             fun id => if (id =? sprint_id)%Z then Some (read_back data)
                       else SyncJira.sprint_file data_dir id;
           SyncJira.config_labels := SyncJira.config_labels data_dir |}
        rest
  | _ :: rest => after_writes data_dir rest
  end.

End Storage.

(* ================================================================== *)
(** * Definitions used to state the properties *)
(* ================================================================== *)

(** A runtime under which every code point from 128 upwards is an
    uncased character that is neither white space nor a digit, and a set
    is iterated in the order of first insertion.  On ASCII text every
    runtime agrees with it on the string operations. *)
Definition ascii_runtime : runtime :=
  {| class_hi := fun _ => Other;
     lower_hi := fun s i => [nth i s 0];
     set_order := nodup (list_eq_dec N.eq_dec) |}.

Module StatusSpec.
Import StatusMapper.

Definition canonical (s : pystr) : Prop := s = Done \/ s = InProgress \/ s = ToDo.

Section WithRuntime.
Variable R : runtime.

(** The name rule in the words of the specification: look up the
    trimmed, lower-cased name, an absent name counting as empty. *)
Definition name_rule (f : StatusField) : pystr :=
  get_or (lookup (strip R (lower R (get_or (sf_name f) []))) STATUS_NAME_FALLBACK) ToDo.

(** The category key of a status field, lower-cased; [''] when the
    category or its key is absent. *)
Definition category_key (f : StatusField) : pystr :=
  lower R (match sf_statusCategory f with
           | Some cat => get_or (sc_key cat) []
           | None => []
           end).

End WithRuntime.
End StatusSpec.

Module ProgressSpec.
Import JiraParser.
Local Open Scope Z_scope.

(** The quotient [n / d] of integers, [d > 0], rounded to a nearest
    integer with ties to the even one. *)
Definition round_half_even (n d : Z) : Z :=
  let q := n / d in
  match 2 * (n mod d) ?= d with
  | Lt => q
  | Gt => q + 1
  | Eq => if Z.even q then q else q + 1
  end.

(** The same with ties upwards. *)
Definition round_half_up (n d : Z) : Z := (2 * n + d) / (2 * d).

(** A task of which only the status matters. *)
Definition task_with_status (s : pystr) : Task :=
  {| key := []; summary := []; status := s; labels := [];
     epic := None; assignee := None |}.

(** [p] is an integer nearest to [100 * k / n]. *)
Definition nearest_percent (k n p : Z) : Prop :=
  Z.abs (200 * k - 2 * p * n) <= n.

Definition nearest_ok (k n : nat) : bool :=
  match percent_of (Z.of_nat k) (Z.of_nat n) with
  | Some p => Z.abs (200 * Z.of_nat k - 2 * p * Z.of_nat n) <=? Z.of_nat n
  | None => false
  end.

Definition nearest_upto (bound : nat) : bool :=
  forallb (fun n => forallb (fun k => nearest_ok k n) (seq 0 (S n))) (seq 1 bound).

(** Tasks whose status is neither "Done" nor "In Progress". *)
Definition other_status (t : Task) : bool :=
  negb (pystr_eqb (status t) StatusMapper.Done)
  && negb (pystr_eqb (status t) StatusMapper.InProgress).

End ProgressSpec.

Module SyncSpec.
Import JiraParser Sync.

(** [eg] is the first stored entry with id [i]. *)
Definition first_with_id (stored : list ExistingGoal) (i : Z) (eg : ExistingGoal) : Prop :=
  exists pre post,
    stored = pre ++ eg :: post /\ eg_id eg = i
    /\ forall x, In x pre -> eg_id x <> i.

(** The stored entries of a section of the existing record, none when
    there is no record or the key is missing. *)
Definition stored_goals (existing_data : option ExistingData) : list ExistingGoal :=
  match existing_data with Some e => get_or (ex_goals e) [] | None => [] end.

Definition stored_side_goals (existing_data : option ExistingData) : list ExistingGoal :=
  match existing_data with Some e => get_or (ex_sideGoals e) [] | None => [] end.

(** The comments of a rebuilt record are those of the first stored entry
    with its id, and empty when no stored entry has its id. *)
Definition comments_kept (stored : list ExistingGoal) (g : GoalRecord) : Prop :=
  (forall eg, first_with_id stored (g_id g) eg ->
              g_comments g = get_or (eg_comments eg) [])
  /\ ((forall eg, In eg stored -> eg_id eg <> g_id g) -> g_comments g = []).

(** A rebuilt record carries the fields of its declaration. *)
Definition rebuilt_from (d : GoalDeclaration) (g : GoalRecord) : Prop :=
  g_id g = d_id d /\ g_title g = d_title d /\ g_client g = d_client d
  /\ g_tag g = d_tag d.

(** Sample data of a run. *)
Definition sprint7 : RawSprint :=
  {| rs_id := 7;
     rs_name := Some (py "Sprint 7");
     rs_goal := Some (py "1. [ACME] Ship the importer");
     rs_state := Some (py "active");
     rs_startDate := Some (py "2024-01-08T09:00:00.000Z");
     rs_endDate := None |}.

Definition issue1 : RawIssue :=
  {| i_key := py "PRJ-1";
     i_fields :=
       Some {| f_summary := Some (py "Importer");
               f_status :=
                 Some {| StatusMapper.sf_name := Some (py "Gotowe");
                         StatusMapper.sf_statusCategory :=
                           Some {| StatusMapper.sc_key := Some (py "done") |} |};
               f_labels := Some [py "cel-1"];
               f_assignee := None;
               f_customfield_10014 := None |} |}.

Definition tracker : JiraClient :=
  {| get_sprint := fun _ => None;
     get_active_sprint := Some sprint7;
     get_sprint_issues := fun _ => [issue1];
     get_epic_name := fun _ => None |}.

Definition no_environ : Environ :=
  {| JIRA_URL := None; JIRA_BOARD_ID := None; JIRA_PROJECT_KEY := None |}.

Definition record_with_status (s : pystr) : ExistingData :=
  {| ex_status := Some s;
     ex_goals := Some [ {| eg_id := 1; eg_comments := Some [JString (py "note")] |} ];
     ex_sideGoals := None;
     ex_achievements := Some (py "shipped");
     ex_nextSprintPlans := None;
     ex_closedAt := Some (py "2024-01-19") |}.

Definition dir_with (e : ExistingData) : SyncJira.DataDir :=
  {| SyncJira.sprint_file := fun id => if (id =? 7)%Z then Some e else None;
     SyncJira.config_labels := None |}.

Definition repo_with (e : ExistingData) : SyncJiraToRepo.RepoClient :=
  {| SyncJiraToRepo.token := py "t";
     SyncJiraToRepo.verify_connection := true;
     SyncJiraToRepo.get_sprint_file :=
       fun id => if (id =? 7)%Z then Some (e, py "abc") else None;
     SyncJiraToRepo.get_current_sha := None;
     SyncJiraToRepo.update_sprint_ok := fun _ _ _ => true;
     SyncJiraToRepo.update_current_ok := fun _ _ _ => true |}.

End SyncSpec.

Module ParserSpec.
Import JiraParser.

Section WithRuntime.
Variable R : runtime.

(** The lines of a description as the parser splits them. *)
Definition lines_of (description : pystr) : list pystr :=
  split_on LF (strip R description).

(** The six substrings the second loop treats as a section keyword. *)
Definition section_keywords : list pystr := first_pass_keywords ++ [kw_poboczn].

(** The line contains one of the six substrings, case-insensitively. *)
Definition has_phrase (line : pystr) : bool :=
  existsb (fun keyword => contains keyword (lower R (strip R line))) section_keywords.

(** The section a line with a phrase opens: the goal phrases come first. *)
Definition phrase_section (line : pystr) : section :=
  if mentions_goals (lower R (strip R line)) then SecGoals else SecSideGoals.

(** A header that names no section: a line starting with ## or **. *)
Definition is_plain_header (line : pystr) : bool :=
  negb (has_phrase line) && _is_section_header (strip R line).

Definition is_numbered (line : pystr) : bool := _is_numbered_item R (strip R line).
Definition is_dash (line : pystr) : bool := _is_dash_item R (strip R line).

(** The line carries a list marker. *)
Definition is_list_item (line : pystr) : bool := is_numbered line || is_dash line.

(** The text of a list item after its marker. *)
Definition item_text (line : pystr) : pystr := strip_marker R (strip R line).

(** A list item that is not a section line and has text after its marker. *)
Definition qualifies (line : pystr) : bool :=
  negb (has_phrase line) && negb (_is_section_header (strip R line))
  && is_list_item line && nonempty (item_text line).

(** The section in force after the lines [before]: that of the last
    header among them, looking backwards from the end; none if there is no
    header or the last one names no section. *)
Fixpoint last_header_from (reversed : list pystr) : option section :=
  match reversed with
  | [] => None
  | line :: earlier =>
      if has_phrase line then Some (phrase_section line)
      else if _is_section_header (strip R line) then None
      else last_header_from earlier
  end.

Definition last_header (before : list pystr) : option section :=
  last_header_from (rev before).

(** The section a line is assigned to, given the lines before it. *)
Definition assigned (header_mode : bool) (before : list pystr) (line : pystr)
    : option section :=
  if qualifies line then
    if header_mode then last_header before
    else if is_numbered line then Some SecGoals else Some SecSideGoals
  else None.

Definition section_eqb (a b : section) : bool :=
  match a, b with
  | SecGoals, SecGoals | SecSideGoals, SecSideGoals => true
  | _, _ => false
  end.

Definition assigned_to (header_mode : bool) (sec : section)
    (before : list pystr) (line : pystr) : bool :=
  match assigned header_mode before line with
  | Some s => section_eqb s sec
  | None => false
  end.

(** The lines assigned to a section, in input order. *)
Fixpoint select (header_mode : bool) (sec : section)
    (before rest : list pystr) : list pystr :=
  match rest with
  | [] => []
  | line :: rest' =>
      (if assigned_to header_mode sec before line then [line] else [])
        ++ select header_mode sec (before ++ [line]) rest'
  end.

(** The declaration a list item gives under an id. *)
Definition decl_of (prefix : pystr) (id : Z) (line : pystr) : GoalDeclaration :=
  let ct := parse_client_from_text R (item_text line) in
  {| d_id := id; d_title := snd ct; d_client := fst ct;
     d_tag := prefix ++ str_of_int id |}.

(** Declarations numbered from [n + 1]. *)
Fixpoint number (prefix : pystr) (n : Z) (lines : list pystr) : list GoalDeclaration :=
  match lines with
  | [] => []
  | line :: rest => decl_of prefix (n + 1) line :: number prefix (n + 1) rest
  end.

(** No line mentions one of the five keywords of the first pass. *)
Definition marker_mode (lines : list pystr) : Prop :=
  forall line keyword,
    In line lines -> In keyword first_pass_keywords ->
    contains keyword (strip R (lower R line)) = false.

(** Numbered lines and dash lines that yield a declaration in marker mode. *)
Definition numbered_entry (line : pystr) : bool :=
  is_numbered line && negb (has_phrase line) && nonempty (item_text line).

Definition dash_entry (line : pystr) : bool :=
  is_dash line && negb (has_phrase line).

End WithRuntime.
End ParserSpec.

Module ParserModes.
Import JiraParser ParserSpec.

(** Some line mentions one of the five keywords of the first pass. *)
Definition header_mode (R : runtime) (lines : list pystr) : Prop :=
  exists line keyword,
    In line lines /\ In keyword first_pass_keywords
    /\ contains keyword (strip R (lower R line)) = true.

(** A line that is no header of either kind. *)
Definition no_header (R : runtime) (line : pystr) : Prop :=
  has_phrase R line = false /\ _is_section_header (strip R line) = false.

End ParserModes.

Module ParserExamples.
Import JiraParser.

(** Five lines without a first-pass keyword: two goals, a numbered line
    without text, a side goal, and a numbered line with 'poboczn'. *)
Definition marker_description : pystr :=
  py "1. [K] alpha" ++ [LF] ++ py "2." ++ [LF] ++ py "- beta [Z]" ++ [LF]
  ++ py "3) Zadania poboczne" ++ [LF] ++ py "4 gamma".

(** Items before a header, under two recognised headers and under a
    plain one. *)
Definition header_description : pystr :=
  py "1. early" ++ [LF] ++ py "## Sprint Goals" ++ [LF] ++ py "- beta [Z]" ++ [LF]
  ++ py "## Notes" ++ [LF] ++ py "4 lost" ++ [LF] ++ py "**Side goals**" ++ [LF]
  ++ py "7. delta".

(** The format with headers of the module's documentation, with the
    Polish headers as they are written there. *)
Definition documented_description : pystr :=
  [LF] ++ py "## Cele g" ++ [322; 243] ++ py "wne" ++ [LF]
  ++ py "1. [Klient A] Implementacja nowego modulu" ++ [LF]
  ++ py "2. Optymalizacja" ++ [LF] ++ [LF]
  ++ py "## Cele poboczne" ++ [LF]
  ++ py "- [Klient A] Aktualizacja dokumentacji" ++ [LF]
  ++ py "- Opis bez klienta" ++ [LF].

(** A header and a numbered line without text. *)
Definition header_then_bare_number : pystr := py "Sprint goals" ++ [LF] ++ py "1.".

End ParserExamples.

Module LabelSpec.
Import JiraParser.

Section WithRuntime.
Variable R : runtime.

(** The candidate tags: the tags of the declarations, lower-cased. *)
Definition candidates (goals : list GoalDeclaration) : list pystr :=
  map (fun g => lower R (d_tag g)) goals.

(** The label equals the tag up to case. *)
Definition exact_match (label tag : pystr) : Prop := lower R label = tag.

(** The label equals the tag up to case once hyphens, underscores and
    white space are removed from both. *)
Definition loose_match (label tag : pystr) : Prop :=
  drop_separators R (lower R label) = drop_separators R tag.

(** The label matches one of the tags. *)
Definition matches_some (tags : list pystr) (label : pystr) : Prop :=
  exists tag, In tag tags /\ (exact_match label tag \/ loose_match label tag).

(** A declaration of which only the tag matters. *)
Definition goal_with_tag (tag : pystr) : GoalDeclaration :=
  {| d_id := 1; d_title := []; d_client := None; d_tag := tag |}.

End WithRuntime.
End LabelSpec.

Module ClientSpec.
Import JiraParser.

Section WithRuntime.
Variable R : runtime.

(** The text with every bracketed group replaced, as the code does it. *)
Definition remove_groups (s : pystr) : pystr := sub_client_pattern R 0 s.

(** The text with only the first bracketed group replaced: the reading
    of the specification. *)
Fixpoint remove_first_group (s : pystr) : pystr :=
  match s with
  | [] => []
  | c :: r =>
      match client_pattern_at R s with
      | Some rest => SPACE :: rest
      | None => c :: remove_first_group r
      end
  end.

(** The title the specification describes: the first bracketed substring
    removed, white space collapsed and trimmed. *)
Definition title_first_removed (text : pystr) : pystr :=
  strip R (remove_first_group (strip R text)).

(** All characters are white space. *)
Definition blank (s : pystr) : bool := forallb (isspace R) s.

End WithRuntime.

(** [s] is [pre [g] post], a bracketed substring whose contents [g] are
    not empty and hold no ']'. *)
Definition is_group (s pre g post : pystr) : Prop :=
  s = pre ++ LBRACKET :: g ++ RBRACKET :: post /\ g <> [] /\ ~ In RBRACKET g.

(** The first such substring of [s]: none begins further left. *)
Definition first_group (s pre g post : pystr) : Prop :=
  is_group s pre g post
  /\ forall pre' g' post',
       is_group s pre' g' post' -> (List.length pre <= List.length pre')%nat.

(** [s] has no such substring. *)
Definition group_free (s : pystr) : Prop :=
  forall pre g post, ~ is_group s pre g post.

End ClientSpec.

(* ================================================================== *)
(** * Definitions used to state further properties *)
(* ================================================================== *)

Module PaginationSpec.
Import Sync Pagination.

(** A tracker that holds the issues [all] and honours the page size asked
    for: it answers the request at an offset with the next [max_results]
    of them, and with all that remain when fewer are left.  A tracker that
    caps its pages below [max_results] does not satisfy this. *)
Definition serves (all : list RawIssue) (request : nat -> option (list RawIssue)) : Prop :=
  forall start_at, request start_at = Some (firstn max_results (skipn start_at all)).

(** The first requests are answered with the given pages, each of at
    least [max_results] issues. *)
Definition answers_full (pages : list (list RawIssue))
    (request : nat -> option (list RawIssue)) : Prop :=
  forall i, (i < List.length pages)%nat ->
    request (i * max_results)%nat = Some (nth i pages [])
    /\ (max_results <= List.length (nth i pages []))%nat.

(** A sample tracker with 250 issues. *)
Definition numbered_issue (n : nat) : RawIssue :=
  {| i_key := py "PRJ-" ++ str_of_int (Z.of_nat n); i_fields := None |}.

Definition sample_issues : list RawIssue := map numbered_issue (seq 1 250).

Definition sample_request (start_at : nat) : option (list RawIssue) :=
  Some (firstn max_results (skipn start_at sample_issues)).

(** The same tracker failing from the third request on. *)
Definition failing_request (start_at : nat) : option (list RawIssue) :=
  if (start_at <? 200)%nat then sample_request start_at else None.

End PaginationSpec.

Module TransformSpec.
Import JiraParser Sync.

(** The fields of an issue, empty when the issue has none. *)
Definition fields_of (issue : RawIssue) : Fields := get_or (i_fields issue) empty_fields.

(** The epic name the tracker gives for the epic link of an issue, none
    when the issue has no link. *)
Definition epic_of (client : JiraClient) (issue : RawIssue) : option pystr :=
  match f_customfield_10014 (fields_of issue) with
  | Some k => if nonempty k then get_epic_name client k else None
  | None => None
  end.

(** Every entry of the cache is an answer of the tracker. *)
Definition cache_coherent (client : JiraClient) (cache : epic_cache) : Prop :=
  forall k v, In (k, v) cache -> v = get_epic_name client k.

(** An issue with an epic link, and a tracker that knows one epic. *)
Definition linked_issue (n : nat) : RawIssue :=
  {| i_key := py "PRJ-" ++ str_of_int (Z.of_nat n);
     i_fields :=
       Some {| f_summary := None; f_status := None; f_labels := None;
               f_assignee := None; f_customfield_10014 := Some (py "EPIC-1") |} |}.

Definition epic_tracker : JiraClient :=
  {| get_sprint := fun _ => None;
     get_active_sprint := None;
     get_sprint_issues := fun _ => [];
     get_epic_name := fun k => if pystr_eqb k (py "EPIC-1") then Some (py "Importer") else None |}.

End TransformSpec.

Module RoundingSpec.
Local Open Scope Z_scope.

(** The real number of which [m] is the integer part at some scale, with
    location [l], is at most [K] at that scale: an inexact location means
    that the number is strictly above [m]. *)
Definition below (K m : Z) (l : location) : Prop :=
  match l with
  | loc_Exact => m <= K
  | loc_Inexact _ => m < K
  end.

End RoundingSpec.

Module AttachSpec.
Import JiraParser.

Section WithRuntime.
Variable R : runtime.

(** The task carries a label equal to the tag of the declaration up to
    case, hyphens, underscores and white space, and lower-casing leaves the
    tag as it is. *)
Definition attached (d : GoalDeclaration) (t : Task) : bool :=
  pystr_eqb (lower R (d_tag d)) (d_tag d)
  && existsb (fun label =>
                pystr_eqb (drop_separators R (lower R label))
                          (drop_separators R (d_tag d)))
             (labels t).

End WithRuntime.

(** Two tasks with the same key, of which only the first carries the
    label. *)
Definition twin_tasks : list Task :=
  [ {| key := py "PRJ-1"; summary := []; status := StatusMapper.Done;
       labels := [py "cel1"]; epic := None; assignee := None |};
    {| key := py "PRJ-1"; summary := []; status := StatusMapper.ToDo;
       labels := []; epic := None; assignee := None |} ].

(** Two tasks with different keys; the first carries the label and is
    done. *)
Definition sample_tasks : list Task :=
  [ {| key := py "PRJ-1"; summary := []; status := StatusMapper.Done;
       labels := [py "cel1"]; epic := None; assignee := None |};
    {| key := py "PRJ-2"; summary := []; status := StatusMapper.ToDo;
       labels := [py "other"]; epic := None; assignee := None |} ].

End AttachSpec.

Module RunSpec.
Import JiraParser Sync.

(** The prefixes [main] of [sync_jira.py] reads from [config.json]. *)
Definition goal_prefix_of (data_dir : SyncJira.DataDir) : pystr :=
  match SyncJira.config_labels data_dir with
  | Some l => get_or (SyncJira.goalPrefix l) default_goal_prefix
  | None => default_goal_prefix
  end.

Definition side_goal_prefix_of (data_dir : SyncJira.DataDir) : pystr :=
  match SyncJira.config_labels data_dir with
  | Some l => get_or (SyncJira.sideGoalPrefix l) default_side_goal_prefix
  | None => default_side_goal_prefix
  end.

(** The trace of a run that synchronises: the build, the write of the
    sprint file, the write of the pointer to the current sprint. *)
Definition sync_events (sprint : RawSprint) (existing_data : option ExistingData)
    (data : StoredSprint) (active : bool) : list event :=
  [CallBuild sprint existing_data; WriteSprint (rs_id sprint) data;
   WriteCurrentSprint (rs_id sprint) active].

(** A repository that accepts the sprint file and refuses the pointer. *)
Definition repo_refusing_pointer : SyncJiraToRepo.RepoClient :=
  {| SyncJiraToRepo.token := py "t";
     SyncJiraToRepo.verify_connection := true;
     SyncJiraToRepo.get_sprint_file := fun _ => None;
     SyncJiraToRepo.get_current_sha := None;
     SyncJiraToRepo.update_sprint_ok := fun _ _ _ => true;
     SyncJiraToRepo.update_current_ok := fun _ _ _ => false |}.

End RunSpec.

Module PlansSpec.
Import NextSprintPlans.

Section WithRuntime.
Variable R : runtime.

(** The line starts the plans section. *)
Definition starts (line : pystr) : bool := starts_plans (strip R (lower R line)).

(** The line is a header that mentions none of the three words. *)
Definition closes (line : pystr) : bool :=
  is_header R line && negb (mentions_next (strip R (lower R line))).

(** The lines after the first line that starts the section. *)
Fixpoint after_first_start (lines : list pystr) : option (list pystr) :=
  match lines with
  | [] => None
  | line :: rest => if starts line then Some rest else after_first_start rest
  end.

(** The lines before the first closing header. *)
Fixpoint until_close (lines : list pystr) : list pystr :=
  match lines with
  | [] => []
  | line :: rest => if closes line then [] else line :: until_close rest
  end.

(** The lines of the plans: after the first starting line, up to the
    first closing header, without further starting lines. *)
Definition plans_of (lines : list pystr) : list pystr :=
  match after_first_start lines with
  | Some rest => filter (fun line => negb (starts line)) (until_close rest)
  | None => []
  end.

End WithRuntime.
End PlansSpec.

(* ================================================================== *)
(** * Properties *)
(* ================================================================== *)

Lemma ascii_runtime_set_order_ok : set_order_ok ascii_runtime.
Proof.
  intro l; split; simpl.
  - apply NoDup_nodup.
  - intro x; apply nodup_In.
Qed.

Lemma pystr_eqb_eq (a b : pystr) : pystr_eqb a b = true <-> a = b.
Proof.
  unfold pystr_eqb; destruct (list_eq_dec N.eq_dec a b); split; congruence.
Qed.

Lemma pystr_eqb_refl (a : pystr) : pystr_eqb a a = true.
Proof. now apply pystr_eqb_eq. Qed.

Lemma pystr_eqb_neq (a b : pystr) : pystr_eqb a b = false <-> a <> b.
Proof.
  unfold pystr_eqb; destruct (list_eq_dec N.eq_dec a b); split; congruence.
Qed.

(** ** The status mapper *)

Section StatusMapperFacts.
Import StatusMapper StatusSpec.
Variable R : runtime.

Lemma lookup_In {A} k (tbl : list (pystr * A)) v :
  lookup k tbl = Some v -> In (k, v) tbl.
Proof.
  induction tbl as [|[k' v'] tbl IH]; simpl; [discriminate|].
  destruct (pystr_eqb k k') eqn:E.
  - apply pystr_eqb_eq in E; intros [= ->]; subst; now left.
  - intros H; right; auto.
Qed.

Lemma name_table_canonical k v :
  lookup k STATUS_NAME_FALLBACK = Some v -> canonical v.
Proof.
  intros H; apply lookup_In in H.
  assert (F : Forall (fun e => canonical (snd e)) STATUS_NAME_FALLBACK).
  { unfold STATUS_NAME_FALLBACK, canonical.
    repeat (constructor; [simpl; tauto|]); constructor. }
  rewrite Forall_forall in F; exact (F _ H).
Qed.

Lemma category_table_canonical k v :
  lookup k STATUS_CATEGORY_MAP = Some v -> canonical v.
Proof.
  intros H; apply lookup_In in H.
  unfold STATUS_CATEGORY_MAP, canonical in *; simpl in H.
  destruct H as [[= _ <-]|[[= _ <-]|[[= _ <-]|[]]]]; tauto.
Qed.

Lemma name_fallback_rule f : name_fallback R f = name_rule R f.
Proof.
  unfold name_fallback, name_rule.
  destruct (get_or (sf_name f) []) as [|c n]; simpl nonempty; cbv iota.
  - reflexivity.
  - destruct (lookup _ _); reflexivity.
Qed.

Lemma name_fallback_canonical f : canonical (name_fallback R f).
Proof.
  unfold name_fallback.
  destruct (nonempty _); [|unfold canonical; tauto].
  destruct (lookup _ STATUS_NAME_FALLBACK) eqn:E.
  - eapply name_table_canonical; eauto.
  - unfold canonical; tauto.
Qed.

Lemma lower_nil : lower R [] = [].
Proof. reflexivity. Qed.

Lemma map_jira_status_by_category f v :
  lookup (category_key R f) STATUS_CATEGORY_MAP = Some v ->
  map_jira_status R (Some f) = v.
Proof.
  unfold category_key, map_jira_status, field_truthy, category_truthy.
  destruct (sf_statusCategory f) as [[[k|]]|]; simpl get_or; cbv iota;
    try (rewrite lower_nil; discriminate).
  intros ->.
  destruct (sf_name f); reflexivity.
Qed.

Lemma map_jira_status_by_name f :
  lookup (category_key R f) STATUS_CATEGORY_MAP = None ->
  map_jira_status R (Some f) = name_rule R f.
Proof.
  rewrite <- name_fallback_rule.
  unfold category_key, map_jira_status, field_truthy, category_truthy.
  destruct (sf_statusCategory f) as [[[k|]]|] eqn:C; simpl get_or; cbv iota.
  - intros ->. destruct (sf_name f); reflexivity.
  - intros _. destruct (sf_name f); reflexivity.
  - intros _. destruct (sf_name f) eqn:N; simpl; [reflexivity|].
    unfold name_fallback; rewrite N; reflexivity.
Qed.

End StatusMapperFacts.

(** C6.  [map_jira_status] is total and always returns one of "Done",
    "In Progress", "To Do": "To Do" for an absent or empty field; the value
    of the category table when the lower-cased [statusCategory.key] is
    'done', 'indeterminate' or 'new', whatever the name; otherwise the entry
    of the synonym table for the trimmed, lower-cased name; otherwise
    "To Do".  In particular a category key "done" gives "Done" for every
    name, the name "Backlog" alone gives "To Do", and [None] gives "To Do". *)
Theorem map_jira_status_spec (R : runtime) :
  let status := StatusMapper.map_jira_status R in
  let field n c :=
    {| StatusMapper.sf_name := n; StatusMapper.sf_statusCategory := c |} in
  (forall sf, StatusSpec.canonical (status sf)) /\
  status None = StatusMapper.ToDo /\
  status (Some (field None None)) = StatusMapper.ToDo /\
  (forall f, StatusSpec.category_key R f = py "done" ->
             status (Some f) = StatusMapper.Done) /\
  (forall f, StatusSpec.category_key R f = py "indeterminate" ->
             status (Some f) = StatusMapper.InProgress) /\
  (forall f, StatusSpec.category_key R f = py "new" ->
             status (Some f) = StatusMapper.ToDo) /\
  (forall f, StatusSpec.category_key R f <> py "done" ->
             StatusSpec.category_key R f <> py "indeterminate" ->
             StatusSpec.category_key R f <> py "new" ->
             status (Some f) = StatusSpec.name_rule R f) /\
  (forall f, StatusSpec.canonical (StatusSpec.name_rule R f)) /\
  (forall name,
      status (Some (field name (Some {| StatusMapper.sc_key := Some (py "done") |})))
      = StatusMapper.Done) /\
  status (Some (field (Some (py "Backlog")) None)) = StatusMapper.ToDo.
Proof.
  intros status field.
  assert (Hname : forall f, StatusSpec.canonical (StatusSpec.name_rule R f)).
  { intro f; rewrite <- name_fallback_rule; apply name_fallback_canonical. }
  assert (Hcat : forall f k v,
             StatusSpec.category_key R f = k ->
             StatusMapper.lookup k StatusMapper.STATUS_CATEGORY_MAP = Some v ->
             status (Some f) = v).
  { intros f k v <- H; now apply map_jira_status_by_category. }
  assert (Hother : forall f, StatusSpec.category_key R f <> py "done" ->
             StatusSpec.category_key R f <> py "indeterminate" ->
             StatusSpec.category_key R f <> py "new" ->
             status (Some f) = StatusSpec.name_rule R f).
  { intros f H1 H2 H3; apply map_jira_status_by_name.
    unfold StatusMapper.STATUS_CATEGORY_MAP; simpl.
    apply pystr_eqb_neq in H1, H2, H3.
    now rewrite H1, H2, H3. }
  repeat split; auto.
  - intros [f|]; [|unfold StatusSpec.canonical; simpl; tauto].
    destruct (StatusMapper.lookup (StatusSpec.category_key R f)
                StatusMapper.STATUS_CATEGORY_MAP) as [v|] eqn:E.
    + unfold status; rewrite (map_jira_status_by_category R f E).
      eapply category_table_canonical; eauto.
    + unfold status; rewrite (map_jira_status_by_name R f E); apply Hname.
  - intros f H; now apply (Hcat f _ _ H).
  - intros f H; now apply (Hcat f _ _ H).
  - intros f H; now apply (Hcat f _ _ H).
  - intros name; now apply (Hcat _ (py "done")).
Qed.

Lemma map_jira_status_spec_witness :
  StatusSpec.category_key ascii_runtime
    {| StatusMapper.sf_name := Some (py "Gotowe");
       StatusMapper.sf_statusCategory :=
         Some {| StatusMapper.sc_key := Some (py "Indeterminate") |} |}
    = py "indeterminate" /\
  StatusMapper.map_jira_status ascii_runtime
    (Some {| StatusMapper.sf_name := Some (py "Gotowe");
             StatusMapper.sf_statusCategory :=
               Some {| StatusMapper.sc_key := Some (py "Indeterminate") |} |})
    = StatusMapper.InProgress.
Proof.
  split; [reflexivity|].
  apply (proj1 (proj2 (proj2 (proj2 (proj2 (map_jira_status_spec ascii_runtime)))))).
  reflexivity.
Defined.

(** ** The freeze gate *)

Lemma closed_locally_true (e : Sync.ExistingData) :
  Sync.ex_status e = Some (py "closed") -> Sync.closed_locally (Some e) = true.
Proof. intros H; unfold Sync.closed_locally; rewrite H; reflexivity. Qed.

(** C2.  In a run of either script that finds its sprint and whose
    stored record for it exists with status "closed", nothing is built
    and nothing is written, and the run ends with exit status 0. *)
Theorem closed_sprint_sync_is_noop
    (R : runtime) (env : Sync.Environ) (sprint_id_arg : option Z)
    (client : Sync.JiraClient) (sprint : Sync.RawSprint) (e : Sync.ExistingData) :
  Sync.select_sprint sprint_id_arg client = Sync.ret sprint ->
  Sync.ex_status e = Some (py "closed") ->
  (forall data_dir,
      SyncJira.sprint_file data_dir (Sync.rs_id sprint) = Some e ->
      SyncJira.main R env sprint_id_arg client data_dir = ([], Sync.Exit 0)) /\
  (forall repo_client sha,
      SyncJiraToRepo.token repo_client <> [] ->
      SyncJiraToRepo.verify_connection repo_client = true ->
      SyncJiraToRepo.get_sprint_file repo_client (Sync.rs_id sprint) = Some (e, sha) ->
      SyncJiraToRepo.main R env sprint_id_arg client repo_client = ([], Sync.Exit 0)).
Proof.
  intros Hsel Hst; split.
  - intros data_dir Hfile.
    unfold SyncJira.main; rewrite Hsel.
    cbv beta iota delta [Sync.bind Sync.ret].
    rewrite Hfile, (closed_locally_true e Hst); reflexivity.
  - intros repo sha Htok Hconn Hfile.
    unfold SyncJiraToRepo.main.
    destruct (SyncJiraToRepo.token repo) eqn:T; [congruence|].
    rewrite Hconn, Hsel.
    cbv beta iota delta [Sync.bind Sync.ret nonempty negb app].
    rewrite Hfile.
    cbv beta iota delta [option_map fst].
    rewrite (closed_locally_true e Hst); reflexivity.
Qed.

Lemma closed_sprint_sync_is_noop_witness :
  SyncJira.main ascii_runtime SyncSpec.no_environ None SyncSpec.tracker
    (SyncSpec.dir_with (SyncSpec.record_with_status (py "closed")))
  = ([], Sync.Exit 0)
  /\ SyncJiraToRepo.main ascii_runtime SyncSpec.no_environ None SyncSpec.tracker
       (SyncSpec.repo_with (SyncSpec.record_with_status (py "closed")))
     = ([], Sync.Exit 0).
Proof.
  destruct (@closed_sprint_sync_is_noop ascii_runtime SyncSpec.no_environ None
              SyncSpec.tracker SyncSpec.sprint7
              (SyncSpec.record_with_status (py "closed"))
              eq_refl eq_refl) as [L Rp].
  split.
  - apply L. reflexivity.
  - apply (Rp _ (py "abc")); [discriminate|reflexivity|reflexivity].
Defined.

(** The same runs on a record that is not closed call the builder once
    and then write the sprint file and the pointer. *)
Example open_sprint_sync_writes :
  (exists data,
      SyncJira.main ascii_runtime SyncSpec.no_environ None SyncSpec.tracker
        (SyncSpec.dir_with (SyncSpec.record_with_status (py "active")))
      = ([Sync.CallBuild SyncSpec.sprint7
            (Some (SyncSpec.record_with_status (py "active")));
          Sync.WriteSprint 7 data; Sync.WriteCurrentSprint 7 true],
         Sync.Returned)
      /\ map Sync.g_tasks (Sync.s_goals data) = [[py "PRJ-1"]]
      /\ map Sync.g_completionPercent (Sync.s_goals data) = [100%Z]
      /\ Sync.s_startDate data = py "2024-01-08")
  /\ fst (SyncJiraToRepo.main ascii_runtime SyncSpec.no_environ None SyncSpec.tracker
            (SyncSpec.repo_with (SyncSpec.record_with_status (py "active"))))
     = fst (SyncJira.main ascii_runtime SyncSpec.no_environ None SyncSpec.tracker
              (SyncSpec.dir_with (SyncSpec.record_with_status (py "active")))).
Proof.
  split.
  - eexists. split; [vm_compute; reflexivity|]. repeat split.
  - vm_compute. reflexivity.
Qed.

(** ** Binary64 facts behind the percentage *)

Section FloatFacts.
Import JiraParser.
Local Open Scope Z_scope.

Lemma digits2_pos_size p : digits2_pos p = Pos.size p.
Proof. induction p; simpl; congruence. Qed.

Lemma Zdigits2_nonneg m : 0 <= Zdigits2 m.
Proof. destruct m; simpl; lia. Qed.

(** [m < 2^k] bounds the number of binary digits of [m] by [k]. *)
Lemma Zdigits2_le_of_lt m k : 0 <= k -> 0 <= m < 2 ^ k -> Zdigits2 m <= k.
Proof.
  intros Hk [H0 H]. destruct m as [|p|p]; simpl; try lia.
  rewrite digits2_pos_size.
  destruct (Z_le_gt_dec (Zpos (Pos.size p)) k) as [|G]; [assumption|exfalso].
  pose proof (Pos.size_le p) as L.
  assert (2 ^ (k + 1) <= 2 ^ Zpos (Pos.size p)) by (apply Z.pow_le_mono_r; lia).
  rewrite Z.pow_add_r in H1 by lia.
  assert (Zpos (2 ^ Pos.size p) <= Zpos p~0) by exact L.
  rewrite Pos2Z.inj_pow in H2. lia.
Qed.

Lemma Zdigits2_lt_pow m : 0 <= m -> m < 2 ^ Zdigits2 m.
Proof.
  intros H0. destruct m as [|p|p]; simpl; try lia.
  rewrite digits2_pos_size.
  pose proof (Pos.size_gt p) as G.
  assert (Zpos p < Zpos (2 ^ Pos.size p)) by exact G.
  now rewrite Pos2Z.inj_pow in H.
Qed.

Lemma Zdigits2_succ m : 0 <= m -> Zdigits2 (m + 1) <= Zdigits2 m + 1.
Proof.
  intros H. apply Zdigits2_le_of_lt.
  - pose proof (Zdigits2_nonneg m); lia.
  - pose proof (Zdigits2_lt_pow H) as L.
    rewrite Z.pow_add_r by (try apply Zdigits2_nonneg; lia).
    pose proof (Z.pow_pos_nonneg 2 (Zdigits2 m) ltac:(lia) (Zdigits2_nonneg m)). lia.
Qed.

Lemma Zdigits2_mul a b :
  Zdigits2 (Zpos (a * b)) <= Zdigits2 (Zpos a) + Zdigits2 (Zpos b).
Proof.
  apply Zdigits2_le_of_lt.
  - pose proof (Zdigits2_nonneg (Zpos a)); pose proof (Zdigits2_nonneg (Zpos b)); lia.
  - pose proof (@Zdigits2_lt_pow (Zpos a) ltac:(lia)) as A.
    pose proof (@Zdigits2_lt_pow (Zpos b) ltac:(lia)) as B.
    rewrite Z.pow_add_r by apply Zdigits2_nonneg.
    rewrite Pos2Z.inj_mul. split; [lia|].
    apply Z.mul_lt_mono_nonneg; lia.
Qed.

Lemma Zdigits2_mono a b : 0 <= a <= b -> Zdigits2 a <= Zdigits2 b.
Proof.
  intros [Ha Hab]. apply Zdigits2_le_of_lt; [apply Zdigits2_nonneg|].
  pose proof (@Zdigits2_lt_pow b ltac:(lia)). lia.
Qed.

(** One step of the right shift drops one digit and keeps the sign. *)
Lemma shr_1_digits mrs :
  Zdigits2 (shr_m (shr_1 mrs)) = Z.max 0 (Zdigits2 (shr_m mrs) - 1)
  /\ (0 <= shr_m mrs -> 0 <= shr_m (shr_1 mrs)).
Proof.
  destruct mrs as [m r s]; destruct m as [|[p|p|]|[p|p|]];
    cbn [shr_1 shr_m Zdigits2 digits2_pos];
    rewrite ?Pos2Z.inj_succ; split; intros; lia.
Qed.

Lemma iter_shr_1_digits p : forall mrs,
  Zdigits2 (shr_m (iter_pos shr_1 p mrs)) = Z.max 0 (Zdigits2 (shr_m mrs) - Zpos p)
  /\ (0 <= shr_m mrs -> 0 <= shr_m (iter_pos shr_1 p mrs)).
Proof.
  induction p as [p IH|p IH|]; intros mrs; simpl iter_pos.
  - destruct (shr_1_digits mrs) as [E1 N1].
    destruct (IH (shr_1 mrs)) as [E2 N2].
    destruct (IH (iter_pos shr_1 p (shr_1 mrs))) as [E3 N3].
    split; [rewrite E3, E2, E1; lia | auto].
  - destruct (IH mrs) as [E2 N2].
    destruct (IH (iter_pos shr_1 p mrs)) as [E3 N3].
    split; [rewrite E3, E2; lia | auto].
  - apply shr_1_digits.
Qed.

Lemma shr_digits mrs e n :
  Zdigits2 (shr_m (fst (shr mrs e n))) = Z.max 0 (Zdigits2 (shr_m mrs) - Z.max 0 n)
  /\ snd (shr mrs e n) = e + Z.max 0 n
  /\ (0 <= shr_m mrs -> 0 <= shr_m (fst (shr mrs e n))).
Proof.
  destruct n as [|p|p]; simpl.
  - pose proof (Zdigits2_nonneg (shr_m mrs)); repeat split; auto; lia.
  - destruct (iter_shr_1_digits p mrs); repeat split; auto.
  - pose proof (Zdigits2_nonneg (shr_m mrs)); repeat split; auto; lia.
Qed.

Lemma shr_m_of_loc m l : shr_m (shr_record_of_loc m l) = m.
Proof. destruct l as [|[]]; reflexivity. Qed.

Lemma round_nearest_even_range m l :
  m <= round_nearest_even m l <= m + 1.
Proof. destruct l as [|[]]; simpl; try lia. destruct (Z.even m); lia. Qed.

(** A rounding whose argument is below [2^U] neither overflows nor
    produces a NaN, and its result stays below [2^(U+1)]. *)
Lemma binary_round_aux_small sx mx ex lx U :
  0 <= mx -> Zdigits2 mx + ex <= U -> -1074 <= U <= 1023 -> ex <= 971 ->
  match binary_round_aux prec emax sx mx ex lx with
  | S754_zero _ => True
  | S754_finite s m e =>
      s = sx /\ Zpos (digits2_pos m) + e <= U + 1
      /\ e <= Z.max ex (Z.max (U - 52) (-1074))
  | _ => False
  end.
Proof.
  intros Hm HD HU Hex.
  unfold binary_round_aux, shr_fexp.
  set (n1 := fexp prec emax (Zdigits2 mx + ex) - ex).
  destruct (shr_digits (shr_record_of_loc mx lx) ex n1) as (D1 & E1 & N1).
  rewrite shr_m_of_loc in D1, N1.
  destruct (shr (shr_record_of_loc mx lx) ex n1) as [mrs' e'] eqn:S1.
  simpl fst in *; simpl snd in *.
  set (mr := round_nearest_even (shr_m mrs') (loc_of_shr_record mrs')).
  pose proof (round_nearest_even_range (shr_m mrs') (loc_of_shr_record mrs')) as Rr.
  fold mr in Rr.
  specialize (N1 Hm).
  assert (Hmr : 0 <= mr) by lia.
  assert (Dmr : Zdigits2 mr <= Zdigits2 (shr_m mrs') + 1).
  { etransitivity; [apply (Zdigits2_mono (a := mr) (b := shr_m mrs' + 1)); lia|].
    now apply Zdigits2_succ. }
  set (n2 := fexp prec emax (Zdigits2 mr + e') - e').
  destruct (shr_digits (shr_record_of_loc mr loc_Exact) e' n2) as (D2 & E2 & N2).
  rewrite shr_m_of_loc in D2, N2.
  destruct (shr (shr_record_of_loc mr loc_Exact) e' n2) as [mrs'' e''] eqn:S2.
  simpl fst in *; simpl snd in *.
  specialize (N2 Hmr).
  unfold fexp, SpecFloat.emin, prec, emax in *.
  pose proof (Zdigits2_nonneg mx).
  destruct (shr_m mrs'') as [|m|m] eqn:M; [exact I| |lia].
  simpl Zdigits2 in D2.
  assert (e'' <= 1024 - 53) by lia.
  apply Z.leb_le in H0; rewrite H0.
  split; [reflexivity|lia].
Qed.

(** The quotient of two positive integers, the first not above the
    second, is a finite non-negative float below 4. *)
Lemma int_truediv_small (d t : positive) :
  (d <= t)%positive ->
  exists q, int_truediv (Zpos d) (Zpos t) = Some q /\
    match q with
    | S754_zero _ => True
    | S754_finite s m e => s = false /\ Zpos (digits2_pos m) + e <= 2 /\ e <= -51
    | _ => False
    end.
Proof.
  intros Hdt.
  unfold int_truediv. change (Zpos t =? 0) with false. cbv iota.
  unfold operand_of_int, SFdiv, SFdiv_core_binary.
  set (d1 := Zdigits2 (Zpos d)). set (d2 := Zdigits2 (Zpos t)).
  assert (Hd : d1 <= d2) by (apply Zdigits2_mono; lia).
  set (e' := Z.min (fexp prec emax (d1 + 0 - (d2 + 0))) (0 - 0)).
  assert (He : -1074 <= e' <= -53)
    by (unfold e', fexp, SpecFloat.emin, prec, emax; lia).
  set (s := 0 - 0 - e'). assert (Hs : s = - e') by (unfold s; lia).
  destruct s as [|ps|ps] eqn:S; try lia.
  rewrite Z.shiftl_mul_pow2 by lia.
  pose proof (Z.pow_pos_nonneg 2 (Zpos ps) ltac:(lia) ltac:(lia)) as P2.
  pose proof (Z_div_mod (Zpos d * 2 ^ Zpos ps) (Zpos t) ltac:(lia)) as DM.
  destruct (Z.div_eucl (Zpos d * 2 ^ Zpos ps) (Zpos t)) as [q r].
  destruct DM as [DM Hr].
  assert (Hq : 0 <= q <= 2 ^ Zpos ps) by nia.
  assert (Dq : Zdigits2 q <= Zpos ps + 1).
  { apply Zdigits2_le_of_lt; [lia|]. rewrite Z.pow_add_r by lia. lia. }
  pose proof (@binary_round_aux_small (xorb false false) q e'
                (new_location (Zpos t) r) 1 ltac:(lia) ltac:(lia) ltac:(lia) ltac:(lia)) as B.
  destruct (binary_round_aux prec emax (xorb false false) q e' _) as [sz|sz| |sz m e];
    try contradiction.
  - eexists; split; [reflexivity|exact I].
  - eexists; split; [reflexivity|]. simpl in B. repeat split; try tauto; lia.
Qed.

Lemma float_of_int_100 :
  float_of_int 100 = S754_finite false 7036874417766400 (-46).
Proof. reflexivity. Qed.

Lemma py_round_finite_nonneg m e :
  exists a, py_round (S754_finite false m e) = Some a /\ 0 <= a.
Proof.
  unfold py_round. eexists; split; [reflexivity|].
  destruct e as [|pe|pe].
  - rewrite Z.pow_0_r; lia.
  - pose proof (Z.pow_pos_nonneg 2 (Zpos pe) ltac:(lia) ltac:(lia)). nia.
  - pose proof (Z.pow_pos_nonneg 2 (Zpos pe) ltac:(lia) ltac:(lia)) as P.
    pose proof (Z.div_pos (Zpos m) (2 ^ Zpos pe) ltac:(lia) P).
    destruct (2 * (Zpos m mod 2 ^ Zpos pe) ?= 2 ^ Zpos pe);
      try destruct (Z.even _); lia.
Qed.

(** The percentage of a count within its total is always defined and
    never negative. *)
Lemma percent_of_total (d t : Z) :
  0 <= d <= t -> 0 < t -> exists p, percent_of d t = Some p /\ 0 <= p.
Proof.
  intros [H0 Hdt] Ht. unfold percent_of.
  destruct t as [|t|t]; try lia.
  destruct d as [|d|d]; try lia.
  - exists 0; split; [reflexivity|lia].
  - destruct (@int_truediv_small d t ltac:(lia)) as (q & -> & Hq).
    rewrite float_of_int_100.
    destruct q as [sq|sq| |sq m e]; try contradiction.
    + exists 0; split; [reflexivity|lia].
    + destruct Hq as (-> & HD & He).
      unfold SFmul.
      pose proof (Zdigits2_mul m 7036874417766400) as DM.
      change (Zdigits2 (Zpos 7036874417766400)) with 53 in DM.
      simpl Zdigits2 in DM.
      pose proof (@binary_round_aux_small (xorb false false)
                    (Zpos (m * 7036874417766400)) (e + -46) loc_Exact 9
                    ltac:(lia) ltac:(simpl Zdigits2; lia) ltac:(lia) ltac:(lia)) as B.
      destruct (binary_round_aux prec emax (xorb false false) _ _ _)
        as [sz|sz| |sz mz ez]; try contradiction.
      * exists 0; split; [reflexivity|lia].
      * destruct B as (-> & _ & _). simpl xorb.
        destruct (py_round_finite_nonneg mz ez) as (a & -> & Ha).
        exists a; split; [reflexivity|exact Ha].
Qed.

End FloatFacts.

(** ** Progress aggregation *)

Section ProgressFacts.
Import JiraParser ProgressSpec.
Local Open Scope Z_scope.

Lemma count_status_range s (ts : list Task) :
  0 <= count_status s ts <= Z.of_nat (List.length ts).
Proof.
  unfold count_status. pose proof (filter_length_le (fun t => pystr_eqb (status t) s) ts).
  lia.
Qed.

(** The three counts partition the list. *)
Lemma count_partition (ts : list Task) :
  count_status StatusMapper.Done ts + count_status StatusMapper.InProgress ts
  + Z.of_nat (List.length (filter other_status ts)) = Z.of_nat (List.length ts).
Proof.
  unfold count_status.
  induction ts as [|t ts IH]; [reflexivity|].
  cbn [filter]. unfold other_status at 1.
  destruct (pystr_eqb (status t) StatusMapper.Done) eqn:D;
    destruct (pystr_eqb (status t) StatusMapper.InProgress) eqn:P;
    cbn [negb andb List.length]; try lia.
  apply pystr_eqb_eq in D, P. rewrite D in P. discriminate.
Qed.

Lemma calculate_goal_progress_nonempty (ts : list Task) :
  ts <> [] ->
  exists p,
    percent_of (count_status StatusMapper.Done ts) (Z.of_nat (List.length ts)) = Some p
    /\ 0 <= p
    /\ calculate_goal_progress ts =
       Some {| done := count_status StatusMapper.Done ts;
               inProgress := count_status StatusMapper.InProgress ts;
               todo := Z.of_nat (List.length ts) - count_status StatusMapper.Done ts
                       - count_status StatusMapper.InProgress ts;
               total := Z.of_nat (List.length ts);
               percent := p |}.
Proof.
  intros Hne.
  destruct (@percent_of_total (count_status StatusMapper.Done ts) (Z.of_nat (List.length ts)))
    as (p & Hp & Hp0).
  - apply count_status_range.
  - destruct ts; [congruence|simpl; lia].
  - exists p; repeat split; auto.
    unfold calculate_goal_progress. destruct ts as [|t ts]; [congruence|].
    now rewrite Hp.
Qed.

(** No exception escapes [calculate_goal_progress]. *)
Lemma calculate_goal_progress_total (ts : list Task) :
  exists p, calculate_goal_progress ts = Some p.
Proof.
  destruct ts as [|t ts]; [eexists; reflexivity|].
  destruct (@calculate_goal_progress_nonempty (t :: ts)) as (p & _ & _ & E);
    [discriminate|eauto].
Qed.

Lemma nearest_upto_forall bound :
  nearest_upto bound = true ->
  forall k n, (k <= n)%nat -> (1 <= n <= bound)%nat -> nearest_ok k n = true.
Proof.
  unfold nearest_upto. intros H k n Hk Hn.
  rewrite forallb_forall in H.
  specialize (H n ltac:(apply in_seq; lia)).
  rewrite forallb_forall in H.
  apply H, in_seq; lia.
Qed.

Lemma nearest_upto_100 : nearest_upto 100 = true.
Proof. vm_compute. reflexivity. Qed.

Lemma percent_nearest_upto_100 (k n : nat) p :
  (k <= n)%nat -> (1 <= n <= 100)%nat ->
  percent_of (Z.of_nat k) (Z.of_nat n) = Some p ->
  nearest_percent (Z.of_nat k) (Z.of_nat n) p.
Proof.
  intros Hk Hn Hp.
  pose proof (nearest_upto_forall nearest_upto_100 Hk Hn) as H.
  unfold nearest_ok in H. rewrite Hp in H.
  unfold nearest_percent. now apply Z.leb_le.
Qed.

End ProgressFacts.

Section ProgressClaim.
Import JiraParser ProgressSpec.
Local Open Scope Z_scope.

(** C4, as amended.  Aggregating the empty list gives all zeros.
    Otherwise [total] is the length of the list, [done] and [inProgress]
    count the statuses "Done" and "In Progress", [todo] is
    [total - done - inProgress], which is the number of tasks with any other
    status, so the three add up to [total]; [percent] is always defined and
    is Python's [round] (ties to even) of the binary64 value of
    [(done / total) * 100]; for up to 100 tasks it is an integer nearest to
    the exact [100 * done / total].  Two "Done" and one "In Progress" give 67,
    one "Done" and three "To Do" give 25, and a goal record is completed iff
    its percentage is 100. *)
Theorem calculate_goal_progress_spec :
  calculate_goal_progress [] =
    Some {| done := 0; inProgress := 0; todo := 0; total := 0; percent := 0 |}
  /\ (forall ts, ts <> [] ->
        exists pr,
          calculate_goal_progress ts = Some pr
          /\ total pr = Z.of_nat (List.length ts)
          /\ done pr = count_status StatusMapper.Done ts
          /\ inProgress pr = count_status StatusMapper.InProgress ts
          /\ todo pr = total pr - done pr - inProgress pr
          /\ todo pr = Z.of_nat (List.length (filter other_status ts))
          /\ done pr + inProgress pr + todo pr = total pr
          /\ percent_of (done pr) (total pr) = Some (percent pr)
          /\ 0 <= percent pr
          /\ ((List.length ts <= 100)%nat ->
              nearest_percent (done pr) (total pr) (percent pr)))
  /\ calculate_goal_progress
       (map task_with_status
            [StatusMapper.Done; StatusMapper.Done; StatusMapper.InProgress]) =
     Some {| done := 2; inProgress := 1; todo := 0; total := 3; percent := 67 |}
  /\ calculate_goal_progress
       (map task_with_status
            [StatusMapper.Done; StatusMapper.ToDo; StatusMapper.ToDo; StatusMapper.ToDo]) =
     Some {| done := 1; inProgress := 0; todo := 3; total := 4; percent := 25 |}
  /\ (forall mapper stored tasks existing_data goal_data g,
        Sync.build_record mapper stored tasks existing_data goal_data = Some g ->
        (Sync.g_completed g = true <-> Sync.g_completionPercent g = 100)).
Proof.
  split; [reflexivity|]. split; [|split; [reflexivity|split; [reflexivity|]]].
  - intros ts Hne.
    destruct (calculate_goal_progress_nonempty Hne) as (p & Hp & Hp0 & E).
    eexists; split; [exact E|]. cbn [total done inProgress todo percent].
    pose proof (count_partition ts) as CP.
    repeat split; auto; try lia.
    intros Hlen.
    pose proof (count_status_range StatusMapper.Done ts) as [C0 C1].
    unfold count_status in *.
    apply percent_nearest_upto_100; [lia| |exact Hp].
    destruct ts; [congruence|simpl in *; lia].
  - intros mapper stored tasks existing_data goal_data g.
    unfold Sync.build_record.
    destruct (calculate_goal_progress _) as [pr|]; [|discriminate].
    intros [= <-]; cbn [Sync.g_completed Sync.g_completionPercent].
    apply Z.eqb_eq.
Qed.

Lemma calculate_goal_progress_spec_witness :
  let ts := map task_with_status [StatusMapper.Done; py "Blocked"] in
  ts <> [] /\
  exists pr,
    calculate_goal_progress ts = Some pr /\ total pr = 2 /\ todo pr = 1
    /\ percent pr = 50.
Proof.
  intros ts. split; [discriminate|].
  destruct (proj1 (proj2 calculate_goal_progress_spec) ts ltac:(discriminate))
    as (pr & E & _).
  exists pr. split; [exact E|].
  vm_compute in E. injection E as <-. repeat split.
Defined.

(** C4 as stated fails: with 23 of 40 tasks done the exact quotient is
    57.5, which either tie rule rounds to 58, and the code returns 57. *)
Lemma percent_not_a_tie_rule_of_the_exact_quotient :
  let ts := map task_with_status
              (repeat StatusMapper.Done 23 ++ repeat StatusMapper.ToDo 17) in
  exists pr,
    calculate_goal_progress ts = Some pr
    /\ done pr = 23 /\ total pr = 40
    /\ percent pr <> round_half_even (done pr * 100) (total pr)
    /\ percent pr <> round_half_up (done pr * 100) (total pr).
Proof.
  eexists; split; [vm_compute; reflexivity|].
  cbn [done total percent]. repeat split; vm_compute; discriminate.
Qed.

End ProgressClaim.

(** ** Merging with the stored record *)

Section MergeFacts.
Import JiraParser Sync SyncSpec.
Variable R : runtime.

Lemma find_first_with_id stored i eg :
  first_with_id stored i eg ->
  find (fun g => (eg_id g =? i)%Z) stored = Some eg.
Proof.
  intros (pre & post & -> & Hid & Hpre).
  induction pre as [|x pre IH]; simpl.
  - apply Z.eqb_eq in Hid. now rewrite Hid.
  - assert (Hx : (eg_id x =? i)%Z = false)
      by (apply Z.eqb_neq, Hpre; now left).
    rewrite Hx. apply IH. intros y Hy; apply Hpre; now right.
Qed.

Lemma find_no_id (stored : list ExistingGoal) i :
  (forall eg, In eg stored -> eg_id eg <> i) ->
  find (fun g => (eg_id g =? i)%Z) stored = None.
Proof.
  intros H. induction stored as [|x stored IH]; simpl; [reflexivity|].
  assert (Hx : (eg_id x =? i)%Z = false) by (apply Z.eqb_neq, H; now left).
  rewrite Hx. apply IH. intros y Hy; apply H; now right.
Qed.

Lemma existing_comments_for_goals existing_data g :
  g_comments g =
    existing_comments_for
      (match existing_data with Some e => ex_goals e | None => None end)
      existing_data (g_id g) ->
  comments_kept (stored_goals existing_data) g.
Proof.
  intros E. unfold comments_kept, stored_goals, existing_comments_for in *.
  destruct existing_data as [e|]; split.
  - intros eg F. now rewrite E, (find_first_with_id F).
  - intros N. now rewrite E, (find_no_id _ N).
  - intros eg (pre & post & H & _). now destruct pre.
  - intros _. exact E.
Qed.

Lemma existing_comments_for_side_goals existing_data g :
  g_comments g =
    existing_comments_for
      (match existing_data with Some e => ex_sideGoals e | None => None end)
      existing_data (g_id g) ->
  comments_kept (stored_side_goals existing_data) g.
Proof.
  intros E. unfold comments_kept, stored_side_goals, existing_comments_for in *.
  destruct existing_data as [e|]; split.
  - intros eg F. now rewrite E, (find_first_with_id F).
  - intros N. now rewrite E, (find_no_id _ N).
  - intros eg (pre & post & H & _). now destruct pre.
  - intros _. exact E.
Qed.

(** One iteration of either loop never raises, and its record keeps the
    declaration and the comments looked up by id. *)
Lemma build_record_total mapper stored tasks existing_data d :
  exists g,
    build_record mapper stored tasks existing_data d = Some g
    /\ rebuilt_from d g
    /\ g_comments g = existing_comments_for stored existing_data (g_id g).
Proof.
  unfold build_record.
  destruct (calculate_goal_progress_total
              (filter (fun t => existsb (pystr_eqb (key t))
                 (map key (filter (fun task =>
                    match mapper (labels task) [d] with
                    | Some task_tag => pystr_eqb task_tag (d_tag d)
                    | None => false
                    end) tasks))) tasks)) as (p & ->).
  eexists; split; [reflexivity|]. split; [repeat split|reflexivity].
Qed.

Lemma build_records_total f (P : GoalDeclaration -> GoalRecord -> Prop) decls :
  (forall d, exists g, f d = Some g /\ P d g) ->
  exists gs, build_records f decls = Some gs /\ Forall2 P decls gs.
Proof.
  intros Hf. induction decls as [|d decls (gs & E & F)]; simpl.
  - exists []; split; [reflexivity|constructor].
  - destruct (Hf d) as (g & -> & Pg). rewrite E.
    exists (g :: gs); split; [reflexivity|now constructor].
Qed.

End MergeFacts.

(** C5.  [build_sprint_data] always returns a record.  Its goals and side
    goals are the parsed declarations in order; each has the comments of
    the first stored entry of its section with the same id, and no comments
    when the section of the stored record has no entry with that id or
    there is no stored record; [achievements], [nextSprintPlans] and
    [closedAt] are those of the stored record, and '', '' and null without
    one. *)
Theorem build_sprint_data_keeps_user_content
    (R : runtime) (env : Sync.Environ) (sprint : Sync.RawSprint)
    (tasks : list JiraParser.Task) (existing_data : option Sync.ExistingData)
    (goal_prefix side_goal_prefix : pystr) :
  let parsed := JiraParser.parse_sprint_description R
                  (get_or (Sync.rs_goal sprint) []) goal_prefix side_goal_prefix in
  exists out,
    Sync.build_sprint_data R env sprint tasks existing_data
      goal_prefix side_goal_prefix = Some out
    /\ Forall2 SyncSpec.rebuilt_from (JiraParser.goals parsed) (Sync.s_goals out)
    /\ Forall2 SyncSpec.rebuilt_from (JiraParser.sideGoals parsed) (Sync.s_sideGoals out)
    /\ Forall (SyncSpec.comments_kept (SyncSpec.stored_goals existing_data))
              (Sync.s_goals out)
    /\ Forall (SyncSpec.comments_kept (SyncSpec.stored_side_goals existing_data))
              (Sync.s_sideGoals out)
    /\ match existing_data with
       | Some e =>
           Sync.s_achievements out = get_or (Sync.ex_achievements e) []
           /\ Sync.s_nextSprintPlans out = get_or (Sync.ex_nextSprintPlans e) []
           /\ Sync.s_closedAt out = Sync.ex_closedAt e
       | None =>
           Sync.s_achievements out = []
           /\ Sync.s_nextSprintPlans out = []
           /\ Sync.s_closedAt out = None
       end.
Proof.
  intros parsed. unfold Sync.build_sprint_data. fold parsed.
  set (stored_g := match existing_data with
                   | Some e => Sync.ex_goals e | None => None end).
  set (stored_s := match existing_data with
                   | Some e => Sync.ex_sideGoals e | None => None end).
  destruct (@build_records_total
              (Sync.build_record (JiraParser.map_task_to_goal R) stored_g tasks existing_data)
              (fun d g => SyncSpec.rebuilt_from d g /\
                          Sync.g_comments g =
                            Sync.existing_comments_for stored_g existing_data (Sync.g_id g))
              (JiraParser.goals parsed)
              (fun d => build_record_total _ _ _ _ d)) as (gs & -> & Fg).
  destruct (@build_records_total
              (Sync.build_record (JiraParser.map_task_to_side_goal R) stored_s tasks existing_data)
              (fun d g => SyncSpec.rebuilt_from d g /\
                          Sync.g_comments g =
                            Sync.existing_comments_for stored_s existing_data (Sync.g_id g))
              (JiraParser.sideGoals parsed)
              (fun d => build_record_total _ _ _ _ d)) as (ss & -> & Fs).
  eexists; split; [reflexivity|].
  cbn [Sync.s_goals Sync.s_sideGoals Sync.s_achievements
       Sync.s_nextSprintPlans Sync.s_closedAt].
  split; [eapply Forall2_impl; [|exact Fg]; simpl; tauto|].
  split; [eapply Forall2_impl; [|exact Fs]; simpl; tauto|].
  split; [|split].
  - clear -Fg. induction Fg as [|d g ds gs' [_ Hg] _ IH]; constructor; auto.
    now apply existing_comments_for_goals.
  - clear -Fs. induction Fs as [|d g ds gs' [_ Hg] _ IH]; constructor; auto.
    now apply existing_comments_for_side_goals.
  - destruct existing_data; repeat split.
Qed.

(** The comments example of the specification: a stored goal 1 with the
    comment "note" reappears on the rebuilt goal 1; the rebuilt goal 2 has
    no stored counterpart and no comments. *)
Example comments_merge_example :
  option_map (fun out => map Sync.g_comments (Sync.s_goals out))
    (Sync.build_sprint_data ascii_runtime SyncSpec.no_environ
       {| Sync.rs_id := 7; Sync.rs_name := None;
          Sync.rs_goal := Some (py "1. first" ++ [LF] ++ py "2. second");
          Sync.rs_state := None; Sync.rs_startDate := None; Sync.rs_endDate := None |}
       [] (Some (SyncSpec.record_with_status (py "active")))
       (py "cel") (py "extra"))
  = Some [[Sync.JString (py "note")]; []].
Proof. vm_compute. reflexivity. Qed.

(** ** The description parser *)

Lemma py_inj a b : py a = py b -> a = b.
Proof.
  unfold py. intros H.
  assert (E : list_ascii_of_string a = list_ascii_of_string b).
  { revert H. generalize (list_ascii_of_string a) (list_ascii_of_string b).
    induction l as [|x l IH]; intros [|y l']; simpl; try discriminate; auto.
    intros [= Hxy Hl]. f_equal; auto.
    rewrite <- (ascii_N_embedding x), <- (ascii_N_embedding y). now rewrite Hxy. }
  rewrite <- (string_of_list_ascii_of_string a), <- (string_of_list_ascii_of_string b).
  now rewrite E.
Qed.

Lemma str_of_int_inj a b : str_of_int a = str_of_int b -> a = b.
Proof.
  unfold str_of_int. intros H. apply py_inj in H.
  apply DecimalZ.to_int_inj.
  assert (N : forall z, Z.to_int z <> Decimal.Pos Decimal.Nil
                        /\ Z.to_int z <> Decimal.Neg Decimal.Nil).
  { intros [|p|p]; simpl; split; try discriminate;
      intros [= E]; now apply (DecimalPos.Unsigned.to_uint_nonnil p). }
  pose proof (@NilZero.isi _ (proj1 (N a)) (proj2 (N a))) as Ia.
  pose proof (@NilZero.isi _ (proj1 (N b)) (proj2 (N b))) as Ib.
  rewrite H in Ia. rewrite Ia in Ib. now injection Ib.
Qed.


Section ParserFacts.
Import JiraParser ParserSpec.
Variable R : runtime.
Variables goal_prefix side_goal_prefix : pystr.

Lemma has_phrase_mentions line :
  has_phrase R line =
    mentions_goals (lower R (strip R line))
    || mentions_side_goals (lower R (strip R line)).
Proof.
  unfold has_phrase, section_keywords, first_pass_keywords,
    mentions_goals, mentions_side_goals.
  cbn [app existsb].
  repeat rewrite <- orb_assoc. now rewrite orb_false_r.
Qed.

Lemma contains_nonempty kw : kw <> [] -> contains kw [] = false.
Proof. destruct kw; [congruence|reflexivity]. Qed.

Lemma has_phrase_blank line : strip R line = [] -> has_phrase R line = false.
Proof.
  intros E. unfold has_phrase. rewrite E. reflexivity.
Qed.

Lemma last_header_snoc before line :
  last_header R (before ++ [line]) =
    if has_phrase R line then Some (phrase_section R line)
    else if _is_section_header (strip R line) then None
    else last_header R before.
Proof. unfold last_header. now rewrite rev_app_distr. Qed.

Lemma set_section_same st : set_section st (current_section st) = st.
Proof. now destruct st. Qed.

(** What one iteration does, in terms of the section the line is
    assigned to. *)
Lemma parse_line_assigned hdr st before line :
  current_section st = last_header R before ->
  parse_line R hdr goal_prefix side_goal_prefix st line =
    match assigned R hdr before line with
    | Some SecGoals =>
        let ct := parse_client_from_text R (item_text R line) in
        add_goal goal_prefix st (fst ct) (snd ct)
    | Some SecSideGoals =>
        let ct := parse_client_from_text R (item_text R line) in
        add_side_goal side_goal_prefix st (fst ct) (snd ct)
    | None => set_section st (last_header R (before ++ [line]))
    end.
Proof.
  intros Hcur.
  pose proof (set_section_same st) as Hid.
  unfold parse_line, assigned, qualifies, is_list_item, is_numbered, is_dash, item_text.
  rewrite last_header_snoc, has_phrase_mentions, <- Hcur. unfold phrase_section.
  destruct (strip R line) as [|c l] eqn:S.
  { cbn. exact (eq_sym Hid). }
  cbn [nonempty negb].
  destruct (mentions_goals _) eqn:MG; [reflexivity|].
  destruct (mentions_side_goals _) eqn:MS; [reflexivity|].
  cbn [orb negb andb].
  destruct (_is_section_header _) eqn:SH; [reflexivity|].
  cbn [negb andb].
  destruct (parse_client_from_text R (strip_marker R (c :: l))) as [client title].
  cbn [fst snd].
  destruct (_is_numbered_item R _) eqn:NU; destruct (_is_dash_item R _) eqn:DA;
    cbn [negb andb orb]; try (exact (eq_sym Hid));
    destruct (nonempty (strip_marker R (c :: l))) eqn:NE; cbn [negb];
    destruct hdr; try (exact (eq_sym Hid)); try reflexivity;
    destruct (current_section st) as [[|]|]; try reflexivity;
    exact (eq_sym Hid).
Qed.

Lemma assigned_not_header hdr before line s :
  assigned R hdr before line = Some s ->
  last_header R (before ++ [line]) = last_header R before.
Proof.
  unfold assigned, qualifies. rewrite last_header_snoc.
  destruct (has_phrase R line); [discriminate|].
  destruct (_is_section_header (strip R line)); [discriminate|reflexivity].
Qed.

Lemma assigned_to_goals hdr before line :
  assigned_to R hdr SecGoals before line =
    match assigned R hdr before line with Some SecGoals => true | _ => false end.
Proof. unfold assigned_to. destruct (assigned _ _ _ _) as [[|]|]; reflexivity. Qed.

Lemma assigned_to_side_goals hdr before line :
  assigned_to R hdr SecSideGoals before line =
    match assigned R hdr before line with Some SecSideGoals => true | _ => false end.
Proof. unfold assigned_to. destruct (assigned _ _ _ _) as [[|]|]; reflexivity. Qed.

(** The loop from any state whose section is the one in force. *)
Lemma parse_fold hdr rest : forall before st,
  current_section st = last_header R before ->
  let st' := fold_left (parse_line R hdr goal_prefix side_goal_prefix) rest st in
  goals (result st') =
    goals (result st)
      ++ number R goal_prefix (goal_counter st) (select R hdr SecGoals before rest)
  /\ sideGoals (result st') =
       sideGoals (result st)
         ++ number R side_goal_prefix (side_goal_counter st)
              (select R hdr SecSideGoals before rest).
Proof.
  induction rest as [|line rest IH]; intros before st Hcur.
  - cbn. now rewrite !app_nil_r.
  - cbn [fold_left select].
    rewrite assigned_to_goals, assigned_to_side_goals.
    rewrite (@parse_line_assigned hdr st before line Hcur).
    destruct (assigned R hdr before line) as [[|]|] eqn:A.
    + specialize (IH (before ++ [line])
                     (add_goal goal_prefix st
                        (fst (parse_client_from_text R (item_text R line)))
                        (snd (parse_client_from_text R (item_text R line))))).
      cbn zeta in *. destruct IH as [IHg IHs].
      { cbn [add_goal current_section]. rewrite Hcur. symmetry.
        eapply assigned_not_header; eauto. }
      rewrite IHg, IHs. cbn [add_goal result goals sideGoals goal_counter side_goal_counter
                              app number].
      unfold decl_of. rewrite <- app_assoc. now split.
    + specialize (IH (before ++ [line])
                     (add_side_goal side_goal_prefix st
                        (fst (parse_client_from_text R (item_text R line)))
                        (snd (parse_client_from_text R (item_text R line))))).
      cbn zeta in *. destruct IH as [IHg IHs].
      { cbn [add_side_goal current_section]. rewrite Hcur. symmetry.
        eapply assigned_not_header; eauto. }
      rewrite IHg, IHs. cbn [add_side_goal result goals sideGoals goal_counter
                              side_goal_counter app number].
      unfold decl_of. rewrite <- app_assoc. now split.
    + specialize (IH (before ++ [line]) (set_section st (last_header R (before ++ [line])))
                     eq_refl).
      cbn zeta in *. destruct IH as [IHg IHs].
      rewrite IHg, IHs. now split.
Qed.

Lemma parse_sprint_description_lines description :
  parse_sprint_description R description goal_prefix side_goal_prefix =
    result (parse_lines R goal_prefix side_goal_prefix (lines_of R description)).
Proof.
  unfold parse_sprint_description, lines_of.
  destruct description; reflexivity.
Qed.

(** The result of a parse, for either mode. *)
Lemma parse_sprint_description_select description :
  let lines := lines_of R description in
  let hdr := has_explicit_headers R lines in
  let r := parse_sprint_description R description goal_prefix side_goal_prefix in
  goals r = number R goal_prefix 0 (select R hdr SecGoals [] lines)
  /\ sideGoals r = number R side_goal_prefix 0 (select R hdr SecSideGoals [] lines).
Proof.
  intros lines hdr r. unfold r. rewrite parse_sprint_description_lines.
  fold lines. unfold parse_lines. fold hdr.
  exact (@parse_fold hdr lines [] initial_state eq_refl).
Qed.

Lemma NoDup_map_injective {A B} (f : A -> B) (l : list A) :
  (forall x y, f x = f y -> x = y) -> NoDup l -> NoDup (map f l).
Proof.
  intros Hf H. induction H as [|x l Hx H IH]; simpl; constructor; auto.
  rewrite in_map_iff. intros (y & E & Hy). apply Hf in E. now subst.
Qed.

Lemma number_length prefix ls : forall n,
  List.length (number R prefix n ls) = List.length ls.
Proof. induction ls as [|l ls IH]; intros n; simpl; auto. Qed.

Lemma number_ids prefix ls : forall n,
  map d_id (number R prefix n ls) =
    map (fun k => (n + Z.of_nat k)%Z) (seq 1 (List.length ls)).
Proof.
  induction ls as [|l ls IH]; intros n; [reflexivity|].
  cbn [number map List.length seq d_id decl_of]. f_equal.
  rewrite IH, <- (seq_shift (List.length ls) 1), map_map.
  apply map_ext. intros k. lia.
Qed.

Lemma number_tags prefix ls : forall n,
  map d_tag (number R prefix n ls) =
    map (fun d => prefix ++ str_of_int (d_id d)) (number R prefix n ls).
Proof.
  induction ls as [|l ls IH]; intros n; [reflexivity|].
  cbn [number map d_tag d_id decl_of]. now rewrite IH.
Qed.

Lemma number_tags_unique prefix ls n : NoDup (map d_tag (number R prefix n ls)).
Proof.
  rewrite number_tags, <- (map_map d_id (fun i => prefix ++ str_of_int i)).
  apply NoDup_map_injective.
  - intros x y E. apply app_inv_head in E. now apply str_of_int_inj.
  - rewrite number_ids. apply NoDup_map_injective; [intros; lia|apply seq_NoDup].
Qed.

(** Declarations numbered from 1: ids, tags, and their uniqueness. *)
Lemma number_from_one prefix ls :
  let ds := number R prefix 0 ls in
  map d_id ds = map Z.of_nat (seq 1 (List.length ds))
  /\ map d_tag ds = map (fun d => prefix ++ str_of_int (d_id d)) ds
  /\ NoDup (map d_tag ds).
Proof.
  intros ds. unfold ds. rewrite number_length. split; [|split].
  - rewrite number_ids. apply map_ext. intros; lia.
  - apply number_tags.
  - apply number_tags_unique.
Qed.

End ParserFacts.

(** C9.  In every parse result, for every description and pair of
    prefixes, the declarations of each section carry the ids 1, 2, ..., n in
    list order, the tag of each is the prefix of its section followed by its
    id, both sections start at 1, and the tags of a section are pairwise
    distinct. *)
Theorem parse_ids_sequential_tags_unique
    (R : runtime) (description goal_prefix side_goal_prefix : pystr) :
  let r := JiraParser.parse_sprint_description R description
             goal_prefix side_goal_prefix in
  let sequential prefix ds :=
    map JiraParser.d_id ds = map Z.of_nat (seq 1 (List.length ds))
    /\ map JiraParser.d_tag ds =
         map (fun d => prefix ++ str_of_int (JiraParser.d_id d)) ds
    /\ NoDup (map JiraParser.d_tag ds) in
  sequential goal_prefix (JiraParser.goals r)
  /\ sequential side_goal_prefix (JiraParser.sideGoals r).
Proof.
  intros r sequential.
  destruct (parse_sprint_description_select R goal_prefix side_goal_prefix description)
    as [Eg Es].
  fold r in Eg, Es. unfold sequential. rewrite Eg, Es.
  split; apply number_from_one.
Qed.

Section ParserModeFacts.
Import JiraParser ParserSpec ParserModes.
Variable R : runtime.
Variables goal_prefix side_goal_prefix : pystr.

Lemma marker_mode_first_pass lines :
  marker_mode R lines <-> has_explicit_headers R lines = false.
Proof.
  unfold marker_mode, has_explicit_headers. split.
  - intros H. apply not_true_is_false. intros E.
    apply existsb_exists in E as (line & Hl & E).
    apply existsb_exists in E as (kw & Hk & E).
    now rewrite (H line kw Hl Hk) in E.
  - intros H line kw Hl Hk. apply not_true_is_false. intros E.
    assert (existsb (fun line =>
              existsb (fun keyword => contains keyword (strip R (lower R line)))
                first_pass_keywords) lines = true) as X; [|congruence].
    apply existsb_exists. exists line. split; [assumption|].
    apply existsb_exists. now exists kw.
Qed.

Lemma header_mode_first_pass lines :
  header_mode R lines <-> has_explicit_headers R lines = true.
Proof.
  unfold header_mode, has_explicit_headers. split.
  - intros (line & kw & Hl & Hk & E).
    apply existsb_exists. exists line. split; [assumption|].
    apply existsb_exists. now exists kw.
  - intros E. apply existsb_exists in E as (line & Hl & E).
    apply existsb_exists in E as (kw & Hk & E). now exists line, kw.
Qed.

(** *** Characters of the markers *)

Lemma isdecimal_not_marker c :
  isdecimal R c = true -> c <> 35 /\ c <> 42 /\ c <> 45.
Proof. intros H; repeat split; intros ->; discriminate. Qed.

Lemma isspace_not_star c : isspace R c = true -> c <> 42.
Proof. intros H ->. discriminate. Qed.

Lemma is_section_header_cons c r :
  _is_section_header (c :: r) =
    (35 =? c) && match r with b :: _ => 35 =? b | [] => false end
    || (42 =? c) && match r with b :: _ => 42 =? b | [] => false end.
Proof.
  unfold _is_section_header.
  change (py "##") with [35; 35]. change (py "**") with [42; 42].
  cbn [startswith]. destruct r; rewrite ?andb_true_r; reflexivity.
Qed.

Lemma numbered_not_header l :
  _is_numbered_item R l = true -> _is_section_header l = false.
Proof.
  destruct l as [|c r]; [discriminate|]. cbn [_is_numbered_item].
  intros H. apply andb_prop in H as [D _].
  destruct (isdecimal_not_marker c D) as (A & B & _).
  rewrite is_section_header_cons.
  apply N.eqb_neq in A, B. rewrite N.eqb_sym in A, B.
  now rewrite A, B.
Qed.

Lemma dash_char_cases c : dash_char c = true -> c = 45 \/ c = 42.
Proof.
  unfold dash_char. intros H. apply orb_prop in H as [H|H];
    apply N.eqb_eq in H; auto.
Qed.

Lemma dash_not_numbered l :
  _is_dash_item R l = true -> _is_numbered_item R l = false.
Proof.
  destruct l as [|c [|x r]]; try discriminate. cbn [_is_dash_item _is_numbered_item].
  intros H. apply andb_prop in H as [D _].
  destruct (dash_char_cases c D) as [-> | ->]; reflexivity.
Qed.

Lemma dash_not_header l :
  _is_dash_item R l = true -> _is_section_header l = false.
Proof.
  destruct l as [|c [|x r]]; try discriminate. cbn [_is_dash_item].
  intros H. apply andb_prop in H as [D Sx].
  apply isspace_not_star in Sx. apply N.eqb_neq in Sx. rewrite N.eqb_sym in Sx.
  rewrite is_section_header_cons. cbv beta iota.
  rewrite Sx. destruct (dash_char_cases c D) as [-> | ->]; reflexivity.
Qed.

(** *** A stripped line ends in a character that is not white space *)

Lemma drop_while_head p s :
  match drop_while p s with c :: _ => p c = false | [] => True end.
Proof.
  induction s as [|c s IH]; simpl; [exact I|].
  destruct (p c) eqn:E; [exact IH|exact E].
Qed.

Lemma drop_while_nil p s : drop_while p s = [] -> forall c, In c s -> p c = true.
Proof.
  induction s as [|c s IH]; simpl; [tauto|].
  destruct (p c) eqn:E; [|discriminate].
  intros H x [<-|Hx]; auto.
Qed.

Lemma strip_rev_head s :
  match rev (strip R s) with c :: _ => isspace R c = false | [] => True end.
Proof.
  unfold strip, rstrip. rewrite rev_involutive. apply drop_while_head.
Qed.

Lemma dash_item_text line :
  is_dash R line = true -> nonempty (item_text R line) = true.
Proof.
  unfold is_dash, item_text. pose proof (strip_rev_head line) as L.
  destruct (strip R line) as [|c [|x r]]; try discriminate.
  cbn [_is_dash_item]. intros H. pose proof H as H'.
  apply andb_prop in H as [D Sx].
  unfold strip_marker.
  assert (N : numbered_marker R (c :: x :: r) = None).
  { cbn [numbered_marker]. destruct (dash_char_cases c D) as [-> | ->]; reflexivity. }
  rewrite N. cbn [dash_marker]. rewrite H'.
  destruct (drop_while (isspace R) (x :: r)) eqn:E; [exfalso|reflexivity].
  pose proof (drop_while_nil _ _ E) as All.
  cbn [rev] in L. rewrite <- app_assoc in L.
  destruct (rev r) as [|y t] eqn:Er.
  - cbn in L. congruence.
  - cbn in L. assert (In y (x :: r)) as Hy.
    { right. apply in_rev. rewrite Er. now left. }
    rewrite (All y Hy) in L. discriminate.
Qed.

(** *** Marker mode: the selection is a filter *)

Lemma assigned_to_marker_goals before line :
  assigned_to R false SecGoals before line = numbered_entry R line.
Proof.
  unfold assigned_to, assigned, qualifies, numbered_entry, is_list_item, is_numbered.
  destruct (_is_numbered_item R (strip R line)) eqn:N.
  - rewrite (numbered_not_header _ N).
    destruct (has_phrase R line), (nonempty (item_text R line)); reflexivity.
  - cbn [andb orb].
    destruct (negb (has_phrase R line) && negb (_is_section_header (strip R line))
              && is_dash R line && nonempty (item_text R line)); reflexivity.
Qed.

Lemma assigned_to_marker_side_goals before line :
  assigned_to R false SecSideGoals before line = dash_entry R line.
Proof.
  unfold assigned_to, assigned, qualifies, dash_entry, is_list_item, is_numbered.
  destruct (is_dash R line) eqn:D.
  - pose proof (dash_item_text line D) as T. unfold is_dash in D.
    rewrite (dash_not_numbered _ D), (dash_not_header _ D), T.
    destruct (has_phrase R line); reflexivity.
  - cbn [andb orb]. rewrite orb_false_r.
    destruct (_is_numbered_item R (strip R line)); cbn [andb orb].
    + destruct (negb (has_phrase R line) && negb (_is_section_header (strip R line))
                && true && nonempty (item_text R line)); reflexivity.
    + rewrite andb_false_r. reflexivity.
Qed.

Lemma select_marker_goals rest : forall before,
  select R false SecGoals before rest = filter (numbered_entry R) rest.
Proof.
  induction rest as [|l rest IH]; intros before; [reflexivity|].
  cbn [select filter]. rewrite assigned_to_marker_goals, IH.
  destruct (numbered_entry R l); reflexivity.
Qed.

Lemma select_marker_side_goals rest : forall before,
  select R false SecSideGoals before rest = filter (dash_entry R) rest.
Proof.
  induction rest as [|l rest IH]; intros before; [reflexivity|].
  cbn [select filter]. rewrite assigned_to_marker_side_goals, IH.
  destruct (dash_entry R l); reflexivity.
Qed.

(** *** The section in force *)

Lemma last_header_none_before before :
  (forall l, In l before -> has_phrase R l = false) -> last_header R before = None.
Proof.
  unfold last_header. intros H.
  assert (H' : forall l, In l (rev before) -> has_phrase R l = false)
    by (intros l Hl; apply H; now apply in_rev).
  clear H. induction (rev before) as [|l ls IH]; [reflexivity|].
  cbn [last_header_from]. rewrite (H' l (or_introl eq_refl)).
  destruct (_is_section_header (strip R l)); [reflexivity|].
  apply IH. intros x Hx. apply H'. now right.
Qed.

Lemma last_header_app_no_header before after :
  (forall l, In l after -> no_header R l) ->
  last_header R (before ++ after) = last_header R before.
Proof.
  intros H. induction after as [|l after IH] using rev_ind.
  - now rewrite app_nil_r.
  - rewrite app_assoc, last_header_snoc.
    destruct (H l) as [P S]; [apply in_or_app; right; now left|].
    rewrite P, S. apply IH. intros x Hx. apply H, in_or_app. now left.
Qed.

(** The section in force is that of the most recent header. *)
Lemma last_header_recent pre h post :
  (forall l, In l post -> no_header R l) ->
  last_header R (pre ++ h :: post) =
    if has_phrase R h then Some (phrase_section R h)
    else if _is_section_header (strip R h) then None
    else last_header R pre.
Proof.
  intros H. change (pre ++ h :: post) with (pre ++ [h] ++ post).
  rewrite app_assoc, (@last_header_app_no_header (pre ++ [h]) post H). apply last_header_snoc.
Qed.

Lemma select_qualifies hdr sec rest : forall before l,
  In l (select R hdr sec before rest) -> qualifies R l = true.
Proof.
  induction rest as [|x rest IH]; intros before l; [intros []|].
  cbn [select]. intros H. apply in_app_or in H as [H|H]; [|eauto].
  unfold assigned_to, assigned in H.
  destruct (qualifies R x) eqn:Q; [|destruct H].
  destruct (match _ with Some s => section_eqb s sec | None => false end);
    [|destruct H].
  destruct H as [<-|[]]. exact Q.
Qed.

End ParserModeFacts.

(** C10.  A line that contains, case-insensitively, one of 'cele główne',
    'cele sprintu', 'sprint goals', 'cele poboczne', 'side goals' or
    'poboczn' is consumed as a section header in either mode, also when the
    first pass found no keyword: the iteration only sets the current
    section, leaves the result and both counters as they were, and the line
    is never among the lines that give a declaration, whatever marker it
    starts with. *)
Theorem keyword_line_is_consumed
    (R : runtime) (has_explicit_headers : bool)
    (goal_prefix side_goal_prefix : pystr)
    (st : JiraParser.loop_state) (line : pystr) :
  ParserSpec.has_phrase R line = true ->
  let st' := JiraParser.parse_line R has_explicit_headers
               goal_prefix side_goal_prefix st line in
  JiraParser.result st' = JiraParser.result st
  /\ JiraParser.goal_counter st' = JiraParser.goal_counter st
  /\ JiraParser.side_goal_counter st' = JiraParser.side_goal_counter st
  /\ JiraParser.current_section st' = Some (ParserSpec.phrase_section R line)
  /\ (forall sec before rest,
        ~ In line (ParserSpec.select R has_explicit_headers sec before rest)).
Proof.
  intros H st'.
  assert (E : st' = JiraParser.set_section st (Some (ParserSpec.phrase_section R line))).
  { unfold st', JiraParser.parse_line, ParserSpec.phrase_section.
    rewrite has_phrase_mentions in H.
    destruct (strip R line) as [|c l] eqn:S; [discriminate|].
    cbn [nonempty negb].
    destruct (JiraParser.mentions_goals _); [reflexivity|].
    cbn [orb] in H. now rewrite H. }
  rewrite E. repeat split.
  intros sec before rest Hin.
  apply select_qualifies in Hin. unfold ParserSpec.qualifies in Hin.
  now rewrite H in Hin.
Qed.

Lemma keyword_line_is_consumed_witness :
  let line := py "3) Zadania poboczne" in
  ParserSpec.has_phrase ascii_runtime line = true
  /\ ParserSpec.is_numbered ascii_runtime line = true
  /\ JiraParser.has_explicit_headers ascii_runtime
       (ParserSpec.lines_of ascii_runtime ParserExamples.marker_description) = false
  /\ JiraParser.result
       (JiraParser.parse_line ascii_runtime false (py "cel") (py "extra")
          JiraParser.initial_state line)
     = JiraParser.result JiraParser.initial_state.
Proof.
  intros line.
  split; [reflexivity|]. split; [reflexivity|]. split; [reflexivity|].
  exact (proj1 (@keyword_line_is_consumed ascii_runtime false (py "cel") (py "extra")
                  JiraParser.initial_state line eq_refl)).
Defined.

(** C1, as amended.  When no line mentions a keyword of the first pass,
    the goals are the numbered lines (digits, then '.', ')' or white space)
    that contain none of the six section substrings and have text after the
    marker, and the side goals are the lines starting with '-' or '*' and
    white space that contain none of the six substrings; each section is in
    input order with ids 1, 2, ... and no other line gives a declaration or
    moves a counter. *)
Theorem marker_mode_parse
    (R : runtime) (description goal_prefix side_goal_prefix : pystr) :
  ParserSpec.marker_mode R (ParserSpec.lines_of R description) ->
  let lines := ParserSpec.lines_of R description in
  let r := JiraParser.parse_sprint_description R description
             goal_prefix side_goal_prefix in
  JiraParser.goals r =
    ParserSpec.number R goal_prefix 0 (filter (ParserSpec.numbered_entry R) lines)
  /\ JiraParser.sideGoals r =
       ParserSpec.number R side_goal_prefix 0 (filter (ParserSpec.dash_entry R) lines)
  /\ map JiraParser.d_id (JiraParser.goals r) =
       map Z.of_nat (seq 1 (List.length (filter (ParserSpec.numbered_entry R) lines)))
  /\ map JiraParser.d_id (JiraParser.sideGoals r) =
       map Z.of_nat (seq 1 (List.length (filter (ParserSpec.dash_entry R) lines))).
Proof.
  intros M lines r.
  apply marker_mode_first_pass in M.
  destruct (parse_sprint_description_select R goal_prefix side_goal_prefix description)
    as [Eg Es].
  fold lines in M, Eg, Es. fold r in Eg, Es. rewrite M in Eg, Es.
  rewrite select_marker_goals in Eg. rewrite select_marker_side_goals in Es.
  repeat split; auto.
  - rewrite Eg. destruct (number_from_one R goal_prefix
                            (filter (ParserSpec.numbered_entry R) lines)) as [I _].
    now rewrite number_length in I.
  - rewrite Es. destruct (number_from_one R side_goal_prefix
                            (filter (ParserSpec.dash_entry R) lines)) as [I _].
    now rewrite number_length in I.
Qed.

Lemma marker_mode_holds_of_first_pass R lines :
  JiraParser.has_explicit_headers R lines = false -> ParserSpec.marker_mode R lines.
Proof. apply marker_mode_first_pass. Qed.

Lemma marker_mode_parse_witness :
  let r := JiraParser.parse_sprint_description ascii_runtime
             ParserExamples.marker_description (py "cel") (py "extra") in
  ParserSpec.marker_mode ascii_runtime
    (ParserSpec.lines_of ascii_runtime ParserExamples.marker_description)
  /\ map JiraParser.d_id (JiraParser.goals r) = [1; 2]%Z
  /\ map JiraParser.d_id (JiraParser.sideGoals r) = [1]%Z.
Proof.
  intros r.
  assert (M : ParserSpec.marker_mode ascii_runtime
                (ParserSpec.lines_of ascii_runtime ParserExamples.marker_description))
    by (apply marker_mode_holds_of_first_pass; reflexivity).
  split; [exact M|].
  destruct (@marker_mode_parse ascii_runtime ParserExamples.marker_description
              (py "cel") (py "extra") M) as (_ & _ & Ig & Is).
  split; [exact Ig|exact Is].
Defined.

(** The parse of the marker-mode sample, in full. *)
Example marker_description_parse :
  let r := JiraParser.parse_sprint_description ascii_runtime
             ParserExamples.marker_description (py "cel") (py "extra") in
  map (fun d => (JiraParser.d_id d, JiraParser.d_client d, JiraParser.d_title d,
                 JiraParser.d_tag d)) (JiraParser.goals r)
    = [ (1%Z, Some (py "K"), py "alpha", py "cel1");
        (2%Z, None, py "gamma", py "cel2") ]
  /\ map (fun d => (JiraParser.d_id d, JiraParser.d_client d, JiraParser.d_title d,
                    JiraParser.d_tag d)) (JiraParser.sideGoals r)
    = [ (1%Z, Some (py "Z"), py "beta", py "extra1") ].
Proof. split; reflexivity. Qed.

(** C1 as stated fails: the description "1." has no section phrase, its
    only line starts with a digit followed by '.', and no goal results. *)
Lemma numbered_line_without_text_gives_no_goal :
  let description := py "1." in
  let lines := ParserSpec.lines_of ascii_runtime description in
  lines = [py "1."]
  /\ JiraParser.has_explicit_headers ascii_runtime lines = false
  /\ ParserSpec.has_phrase ascii_runtime (py "1.") = false
  /\ JiraParser._is_numbered_item ascii_runtime (py "1.") = true
  /\ JiraParser.goals
       (JiraParser.parse_sprint_description ascii_runtime description
          (py "cel") (py "extra")) = [].
Proof. repeat split. Qed.

(** C7, as amended.  When some line mentions a keyword of the first
    pass, the goals and the side goals are, in input order and numbered from
    1, the list items with text after their marker that are assigned to the
    section: an item is assigned to the section of the most recent header
    line before it, whatever its marker; items before any line with a
    section phrase, and items whose most recent header is a '##' or '**'
    line without a phrase, are dropped; and a line with a section phrase is
    never an item. *)
Theorem header_mode_parse
    (R : runtime) (description goal_prefix side_goal_prefix : pystr) :
  ParserModes.header_mode R (ParserSpec.lines_of R description) ->
  let lines := ParserSpec.lines_of R description in
  let r := JiraParser.parse_sprint_description R description
             goal_prefix side_goal_prefix in
  JiraParser.goals r =
    ParserSpec.number R goal_prefix 0
      (ParserSpec.select R true JiraParser.SecGoals [] lines)
  /\ JiraParser.sideGoals r =
       ParserSpec.number R side_goal_prefix 0
         (ParserSpec.select R true JiraParser.SecSideGoals [] lines)
  /\ (forall pre h post line,
        ParserSpec.has_phrase R h = true ->
        (forall l, In l post -> ParserModes.no_header R l) ->
        ParserSpec.qualifies R line = true ->
        ParserSpec.assigned R true (pre ++ h :: post) line
          = Some (ParserSpec.phrase_section R h))
  /\ (forall before line,
        (forall l, In l before -> ParserSpec.has_phrase R l = false) ->
        ParserSpec.assigned R true before line = None)
  /\ (forall pre h post line,
        ParserSpec.is_plain_header R h = true ->
        (forall l, In l post -> ParserModes.no_header R l) ->
        ParserSpec.assigned R true (pre ++ h :: post) line = None)
  /\ (forall before line,
        ParserSpec.has_phrase R line = true ->
        ParserSpec.assigned R true before line = None)
  /\ (forall before line,
        ParserSpec.qualifies R line = false ->
        ParserSpec.assigned R true before line = None).
Proof.
  intros M lines r.
  apply header_mode_first_pass in M.
  destruct (parse_sprint_description_select R goal_prefix side_goal_prefix description)
    as [Eg Es].
  fold lines in M, Eg, Es. fold r in Eg, Es. rewrite M in Eg, Es.
  split; [exact Eg|]. split; [exact Es|].
  unfold ParserSpec.assigned. repeat split.
  - intros pre h post line Hh Hpost Q.
    rewrite Q, (@last_header_recent R pre h post Hpost). now rewrite Hh.
  - intros before line Hb.
    rewrite (@last_header_none_before R before Hb).
    now destruct (ParserSpec.qualifies R line).
  - intros pre h post line Hh Hpost.
    rewrite (@last_header_recent R pre h post Hpost).
    unfold ParserSpec.is_plain_header in Hh.
    apply andb_prop in Hh as [P S]. apply negb_true_iff in P.
    rewrite P, S. now destruct (ParserSpec.qualifies R line).
  - intros before line Hl. unfold ParserSpec.qualifies. now rewrite Hl.
  - intros before line Q. now rewrite Q.
Qed.

Lemma header_mode_holds_of_first_pass R lines :
  JiraParser.has_explicit_headers R lines = true -> ParserModes.header_mode R lines.
Proof. apply header_mode_first_pass. Qed.

Lemma header_mode_parse_witness :
  let r := JiraParser.parse_sprint_description ascii_runtime
             ParserExamples.header_description (py "cel") (py "extra") in
  ParserModes.header_mode ascii_runtime
    (ParserSpec.lines_of ascii_runtime ParserExamples.header_description)
  /\ JiraParser.goals r =
       ParserSpec.number ascii_runtime (py "cel") 0 [py "- beta [Z]"]
  /\ JiraParser.sideGoals r =
       ParserSpec.number ascii_runtime (py "extra") 0 [py "7. delta"].
Proof.
  intros r.
  assert (M : ParserModes.header_mode ascii_runtime
                (ParserSpec.lines_of ascii_runtime ParserExamples.header_description))
    by (apply header_mode_holds_of_first_pass; reflexivity).
  split; [exact M|].
  destruct (@header_mode_parse ascii_runtime ParserExamples.header_description
              (py "cel") (py "extra") M) as (Eg & Es & _).
  split; [exact Eg|exact Es].
Defined.

(** The parse of the header-mode sample, in full: the dash item under
    "Sprint Goals" is goal 1, the numbered item under "Side goals" is side
    goal 1, and the items before the first header and under "## Notes" are
    dropped. *)
Example header_description_parse :
  let r := JiraParser.parse_sprint_description ascii_runtime
             ParserExamples.header_description (py "cel") (py "extra") in
  map (fun d => (JiraParser.d_id d, JiraParser.d_client d, JiraParser.d_title d,
                 JiraParser.d_tag d)) (JiraParser.goals r)
    = [ (1%Z, Some (py "Z"), py "beta", py "cel1") ]
  /\ map (fun d => (JiraParser.d_id d, JiraParser.d_client d, JiraParser.d_title d,
                    JiraParser.d_tag d)) (JiraParser.sideGoals r)
    = [ (1%Z, None, py "delta", py "extra1") ].
Proof. split; reflexivity. Qed.

(** C7 as stated fails: under the header "Sprint goals" the list-item
    line "1." is assigned to no section. *)
Lemma list_item_without_text_under_header_is_dropped :
  let description := ParserExamples.header_then_bare_number in
  let lines := ParserSpec.lines_of ascii_runtime description in
  let r := JiraParser.parse_sprint_description ascii_runtime description
             (py "cel") (py "extra") in
  lines = [py "Sprint goals"; py "1."]
  /\ JiraParser.has_explicit_headers ascii_runtime lines = true
  /\ ParserSpec.last_header ascii_runtime [py "Sprint goals"] = Some JiraParser.SecGoals
  /\ ParserSpec.is_list_item ascii_runtime (py "1.") = true
  /\ ParserSpec.has_phrase ascii_runtime (py "1.") = false
  /\ JiraParser.goals r = []
  /\ JiraParser.sideGoals r = [].
Proof. repeat split. Qed.

(** The documented format with headers: two goals and two side goals. *)
Example documented_description_parse :
  let r := JiraParser.parse_sprint_description ascii_runtime
             ParserExamples.documented_description (py "cel") (py "extra") in
  map (fun d => (JiraParser.d_client d, JiraParser.d_title d, JiraParser.d_tag d))
      (JiraParser.goals r)
    = [ (Some (py "Klient A"), py "Implementacja nowego modulu", py "cel1");
        (None, py "Optymalizacja", py "cel2") ]
  /\ map (fun d => (JiraParser.d_client d, JiraParser.d_title d, JiraParser.d_tag d))
         (JiraParser.sideGoals r)
    = [ (Some (py "Klient A"), py "Aktualizacja dokumentacji", py "extra1");
        (None, py "Opis bez klienta", py "extra2") ].
Proof. split; reflexivity. Qed.

(** ** Matching labels against tags *)

Section LabelFacts.
Import JiraParser LabelSpec.
Variable R : runtime.

Lemma exact_is_loose label tag : exact_match R label tag -> loose_match R label tag.
Proof. unfold exact_match, loose_match. now intros ->. Qed.

Lemma existsb_pystr_eqb x l : existsb (pystr_eqb x) l = true <-> In x l.
Proof.
  rewrite existsb_exists. split.
  - intros (y & Hy & E). apply pystr_eqb_eq in E. now subst.
  - intros H. exists x. split; [assumption|apply pystr_eqb_refl].
Qed.

(** The loop over the labels, for any iteration order of the tags. *)
Lemma match_labels_none tags labels :
  match_labels R tags labels = None <->
  forall label, In label labels -> ~ matches_some R tags label.
Proof.
  induction labels as [|label rest IH]; cbn [match_labels].
  - split; [intros _ l []|reflexivity].
  - destruct (existsb (pystr_eqb (lower R label)) tags) eqn:E.
    + split; [discriminate|]. intros H. exfalso.
      apply (H label (or_introl eq_refl)).
      exists (lower R label). split; [now apply existsb_pystr_eqb|now left].
    + destruct (find _ tags) as [tag|] eqn:F.
      * split; [discriminate|]. intros H. exfalso.
        apply find_some in F as [Ht Hn]. apply pystr_eqb_eq in Hn.
        apply (H label (or_introl eq_refl)). exists tag. split; [assumption|now right].
      * rewrite IH. split.
        -- intros H l [->|Hl]; [|now apply H].
           intros (tag & Ht & M).
           assert (L : loose_match R l tag)
             by (destruct M; [now apply exact_is_loose|assumption]).
           pose proof (find_none _ _ F tag Ht) as N. cbv beta in N.
           apply pystr_eqb_neq in N. now apply N.
        -- intros H l Hl. apply H. now right.
Qed.

Lemma match_labels_some tags labels t :
  match_labels R tags labels = Some t ->
  In t tags
  /\ exists pre label post,
       labels = pre ++ label :: post
       /\ (forall l, In l pre -> ~ matches_some R tags l)
       /\ (exact_match R label t
           \/ (~ In (lower R label) tags /\ loose_match R label t)).
Proof.
  induction labels as [|label rest IH]; cbn [match_labels]; [discriminate|].
  destruct (existsb (pystr_eqb (lower R label)) tags) eqn:E.
  - intros [= <-]. apply existsb_pystr_eqb in E. split; [assumption|].
    exists [], label, rest. repeat split; [intros l []|now left].
  - assert (NI : ~ In (lower R label) tags).
    { intros H. apply existsb_pystr_eqb in H. congruence. }
    destruct (find _ tags) as [tag|] eqn:F.
    + intros [= <-]. apply find_some in F as [Ht Hn]. apply pystr_eqb_eq in Hn.
      split; [assumption|].
      exists [], label, rest. repeat split; [intros l []|now right].
    + intros H. destruct (IH H) as (Ht & pre & l & post & -> & Hpre & M).
      split; [assumption|].
      exists (label :: pre), l, post. repeat split; auto.
      intros x [<-|Hx]; [|now apply Hpre].
      apply (proj1 (match_labels_none tags [label])); [|now left].
      cbn [match_labels]. now rewrite E, F.
Qed.

(** A different iteration order of the same tags changes neither whether
    there is a match nor which label decides. *)
Lemma matches_some_ext tags tags' label :
  (forall x, In x tags' <-> In x tags) ->
  matches_some R tags' label <-> matches_some R tags label.
Proof.
  intros H. unfold matches_some.
  split; intros (tag & Ht & M); exists tag; (split; [now apply H|assumption]).
Qed.

Lemma set_order_singleton x : set_order_ok R -> set_order R [x] = [x].
Proof.
  intros Ok. destruct (Ok [x]) as [ND I].
  destruct (set_order R [x]) as [|a [|b l]].
  - exfalso. apply (proj2 (I x)). now left.
  - f_equal. destruct (proj1 (I a) (or_introl eq_refl)) as [->|[]]. reflexivity.
  - exfalso.
    destruct (proj1 (I a) (or_introl eq_refl)) as [<-|[]].
    destruct (proj1 (I b) (or_intror (or_introl eq_refl))) as [<-|[]].
    inversion ND as [|? ? N _]. apply N. now left.
Qed.

End LabelFacts.

(** C8.  For every list of labels and every set of candidate tags,
    iterated in any order: the two mapping functions agree; the result is
    that of the first label, in label order, that matches a candidate,
    either exactly up to case or, if its lower-cased form is no candidate,
    after removing hyphens, underscores and white space from both; the
    result is one of the lower-cased candidate tags; it is null iff no label
    matches; the label "cel-1" against the tag "cel1" gives "cel1", and the
    label "other" gives null. *)
Theorem map_task_to_goal_first_match (R : runtime) :
  set_order_ok R ->
  forall (task_labels : list pystr) (goals : list JiraParser.GoalDeclaration),
  let tags := LabelSpec.candidates R goals in
  JiraParser.map_task_to_side_goal R task_labels goals
    = JiraParser.map_task_to_goal R task_labels goals
  /\ (JiraParser.map_task_to_goal R task_labels goals = None <->
      forall label, In label task_labels -> ~ LabelSpec.matches_some R tags label)
  /\ (forall t,
        JiraParser.map_task_to_goal R task_labels goals = Some t ->
        In t tags
        /\ exists pre label post,
             task_labels = pre ++ label :: post
             /\ (forall l, In l pre -> ~ LabelSpec.matches_some R tags l)
             /\ (LabelSpec.exact_match R label t
                 \/ (~ In (lower R label) tags /\ LabelSpec.loose_match R label t)))
  /\ JiraParser.map_task_to_goal R [py "cel-1"] [LabelSpec.goal_with_tag (py "cel1")]
       = Some (py "cel1")
  /\ JiraParser.map_task_to_goal R [py "other"] [LabelSpec.goal_with_tag (py "cel1")]
       = None.
Proof.
  intros Ok task_labels goals tags.
  unfold JiraParser.map_task_to_goal, JiraParser.map_task_to_side_goal.
  fold (LabelSpec.candidates R goals). fold tags.
  destruct (Ok tags) as [_ I].
  split; [reflexivity|]. split; [|split; [|split]].
  - rewrite match_labels_none. split; intros H l Hl M; apply (H l Hl).
    + now apply (proj2 (@matches_some_ext R tags (set_order R tags) l I)).
    + now apply (proj1 (@matches_some_ext R tags (set_order R tags) l I)).
  - intros t H. apply match_labels_some in H as (Ht & pre & l & post & E & Hpre & M).
    split; [now apply I|].
    exists pre, l, post. repeat split; auto.
    + intros x Hx Mx. apply (Hpre x Hx).
      now apply (proj2 (@matches_some_ext R tags (set_order R tags) x I)).
    + destruct M as [M|[N M]]; [now left|right]. split; [|assumption].
      intros Hin. apply N. now apply I.
  - cbn [map LabelSpec.goal_with_tag JiraParser.d_tag].
    change (lower R (py "cel1")) with (py "cel1").
    rewrite (set_order_singleton (py "cel1") Ok). reflexivity.
  - cbn [map LabelSpec.goal_with_tag JiraParser.d_tag].
    change (lower R (py "cel1")) with (py "cel1").
    rewrite (set_order_singleton (py "cel1") Ok). reflexivity.
Qed.

Lemma map_task_to_goal_first_match_witness :
  set_order_ok ascii_runtime
  /\ JiraParser.map_task_to_goal ascii_runtime [py "Other"; py "EXTRA_2"; py "extra1"]
       [LabelSpec.goal_with_tag (py "extra1"); LabelSpec.goal_with_tag (py "extra2")]
     <> None.
Proof.
  split; [exact ascii_runtime_set_order_ok|].
  intros H.
  apply (proj1 (proj2 (@map_task_to_goal_first_match ascii_runtime
                         ascii_runtime_set_order_ok _ _))) with (label := py "extra1") in H.
  - apply H. exists (py "extra1"). split; [left; reflexivity|left; reflexivity].
  - right; right; now left.
Defined.

(** ** The client tag *)

Section ClientFacts.
Import JiraParser ClientSpec.
Variable R : runtime.

Lemma drop_while_app p a b :
  drop_while p (a ++ b) =
    if forallb p a then drop_while p b else drop_while p a ++ b.
Proof.
  induction a as [|c a IH]; [reflexivity|].
  cbn [app drop_while forallb]. destruct (p c); [exact IH|reflexivity].
Qed.

Lemma drop_while_all p a : forallb p a = true -> drop_while p a = [].
Proof.
  induction a as [|c a IH]; [reflexivity|].
  cbn [drop_while forallb]. destruct (p c); [exact IH|discriminate].
Qed.

Lemma forallb_rev {A} (p : A -> bool) l : forallb p (rev l) = forallb p l.
Proof.
  induction l as [|c l IH]; [reflexivity|].
  cbn [rev forallb]. rewrite forallb_app, IH. cbn [forallb].
  rewrite andb_true_r. apply andb_comm.
Qed.

Lemma rstrip_cons c s :
  rstrip R (c :: s) = if blank R (c :: s) then [] else c :: rstrip R s.
Proof.
  unfold rstrip, blank. cbn [rev]. rewrite drop_while_app, forallb_rev.
  cbn [forallb]. destruct (forallb (isspace R) s) eqn:A.
  - rewrite andb_true_r. cbn [drop_while].
    destruct (isspace R c); [reflexivity|].
    cbn [rev]. rewrite <- (forallb_rev (isspace R)) in A.
    now rewrite (drop_while_all _ _ A).
  - rewrite andb_false_r, rev_app_distr. reflexivity.
Qed.

Lemma rstrip_blank s : blank R s = true -> rstrip R s = [].
Proof.
  intros B. destruct s as [|c s]; [reflexivity|]. now rewrite rstrip_cons, B.
Qed.

Lemma drop_while_incl p s c : In c (drop_while p s) -> In c s.
Proof.
  induction s as [|x s IH]; [intros []|]. cbn [drop_while].
  destruct (p x); [right; auto|auto].
Qed.

Lemma strip_incl s c : In c (strip R s) -> In c s.
Proof.
  unfold strip, rstrip, lstrip. intros H.
  apply in_rev, drop_while_incl, in_rev, drop_while_incl in H. exact H.
Qed.

Lemma isspace_lbracket : isspace R LBRACKET = false.
Proof. reflexivity. Qed.

(** *** The search *)

Lemma bracket_at_head s r : bracket_at s = Some r -> exists t, s = LBRACKET :: t.
Proof.
  destruct s as [|c t]; [discriminate|]. cbn [bracket_at].
  destruct (c =? LBRACKET) eqn:E; [|discriminate].
  apply N.eqb_eq in E. subst. eauto.
Qed.

Lemma search_bracket_none s : ~ In LBRACKET s -> search_bracket s = None.
Proof.
  induction s as [|c s IH]; [reflexivity|]. intros H. cbn [search_bracket].
  destruct (bracket_at (c :: s)) as [[g rest]|] eqn:B.
  - apply bracket_at_head in B as (t & [= -> _]). exfalso. apply H. now left.
  - apply IH. intros X. apply H. now right.
Qed.

Lemma span_not_rbracket_rest s :
  match snd (span_not_rbracket s) with
  | c :: _ => c = RBRACKET /\ In RBRACKET s
  | [] => True
  end.
Proof.
  induction s as [|c s IH]; [exact I|]. cbn [span_not_rbracket].
  destruct (c =? RBRACKET) eqn:E.
  - apply N.eqb_eq in E. cbn. split; [assumption|now left].
  - destruct (span_not_rbracket s) as [g rest]. cbn [snd] in *.
    destruct rest; [exact I|]. destruct IH. split; [assumption|now right].
Qed.

Lemma bracket_at_none_without_rbracket s : ~ In RBRACKET s -> bracket_at s = None.
Proof.
  intros H. destruct s as [|c t]; [reflexivity|]. cbn [bracket_at].
  destruct (c =? LBRACKET); [|reflexivity].
  pose proof (span_not_rbracket_rest t) as S.
  destruct (span_not_rbracket t) as [g [|x rest]]; cbn [snd] in S.
  - now destruct g.
  - exfalso. apply H. right. tauto.
Qed.

Lemma search_bracket_none_without_rbracket s :
  ~ In RBRACKET s -> search_bracket s = None.
Proof.
  induction s as [|c s IH]; [reflexivity|]. intros H. cbn [search_bracket].
  rewrite (bracket_at_none_without_rbracket _ H).
  apply IH. intros X. apply H. now right.
Qed.

Lemma span_not_rbracket_group g post :
  ~ In RBRACKET g ->
  span_not_rbracket (g ++ RBRACKET :: post) = (g, RBRACKET :: post).
Proof.
  induction g as [|c g IH]; intros H.
  - reflexivity.
  - cbn [app span_not_rbracket].
    assert (E : (c =? RBRACKET) = false).
    { apply N.eqb_neq. intros ->. apply H. now left. }
    rewrite E, IH; [reflexivity|]. intros X. apply H. now right.
Qed.

Lemma bracket_at_group g post :
  g <> [] -> ~ In RBRACKET g ->
  bracket_at (LBRACKET :: g ++ RBRACKET :: post) = Some (g, post).
Proof.
  intros Hg H. cbn [bracket_at]. rewrite N.eqb_refl.
  rewrite (@span_not_rbracket_group g post H). now destruct g.
Qed.

Lemma bracket_at_other c s : c <> LBRACKET -> bracket_at (c :: s) = None.
Proof.
  intros H. cbn [bracket_at]. apply N.eqb_neq in H. now rewrite H.
Qed.

Lemma search_bracket_first pre g post :
  ~ In LBRACKET pre -> g <> [] -> ~ In RBRACKET g ->
  search_bracket (pre ++ LBRACKET :: g ++ RBRACKET :: post) = Some g.
Proof.
  intros Hpre Hg H. induction pre as [|c pre IH].
  - cbn [app search_bracket]. now rewrite (@bracket_at_group g post Hg H).
  - cbn [app search_bracket]. rewrite bracket_at_other.
    + apply IH. intros X. apply Hpre. now right.
    + intros ->. apply Hpre. now left.
Qed.

(** *** The substitution *)

Lemma drop_while_split p s : exists a, s = a ++ drop_while p s.
Proof.
  induction s as [|c s (a & E)]; [now exists []|]. cbn [drop_while].
  destruct (p c); [|now exists []].
  exists (c :: a). cbn [app]. now rewrite <- E.
Qed.

Lemma drop_while_not_all p a :
  forallb p a = false -> exists d t, drop_while p a = d :: t /\ In d a.
Proof.
  intros H. destruct (drop_while p a) as [|d t] eqn:E.
  - pose proof (drop_while_nil _ _ E) as All.
    assert (forallb p a = true) by (apply forallb_forall; exact All). congruence.
  - exists d, t. split; [reflexivity|].
    apply (drop_while_incl p a). rewrite E. now left.
Qed.

Lemma span_not_rbracket_app s :
  s = fst (span_not_rbracket s) ++ snd (span_not_rbracket s).
Proof.
  induction s as [|c s IH]; [reflexivity|]. cbn [span_not_rbracket].
  destruct (c =? RBRACKET); [reflexivity|].
  destruct (span_not_rbracket s) as [g rest]. cbn [fst snd app] in *. now f_equal.
Qed.

Lemma bracket_at_shape s g rest :
  bracket_at s = Some (g, rest) -> exists x, s = LBRACKET :: g ++ x :: rest.
Proof.
  destruct s as [|c t]; [discriminate|]. cbn [bracket_at].
  destruct (c =? LBRACKET) eqn:E; [|discriminate]. apply N.eqb_eq in E. subst c.
  pose proof (span_not_rbracket_app t) as A.
  destruct (span_not_rbracket t) as [[|a g'] [|x rest']]; try discriminate.
  intros [= <- <-]. exists x. cbn [fst snd] in A. now rewrite A.
Qed.

Lemma client_pattern_at_consumed s rest :
  client_pattern_at R s = Some rest ->
  exists c consumed, s = (c :: consumed) ++ rest.
Proof.
  unfold client_pattern_at, lstrip.
  destruct (drop_while_split (isspace R) s) as (ws & Es).
  destruct (bracket_at (drop_while (isspace R) s)) as [[g r]|] eqn:B; [|discriminate].
  intros [= <-]. apply bracket_at_shape in B as (x & B). rewrite B in Es.
  destruct (drop_while_split (isspace R) r) as (ws2 & Er).
  destruct ws as [|w ws].
  - exists LBRACKET, (g ++ x :: ws2). rewrite Es at 1. rewrite Er at 1.
    cbn [app]. f_equal. rewrite <- app_assoc. reflexivity.
  - exists w, (ws ++ LBRACKET :: g ++ x :: ws2). rewrite Es at 1. rewrite Er at 1.
    cbn [app]. f_equal. rewrite <- app_assoc. cbn [app]. f_equal. f_equal.
    rewrite <- app_assoc. reflexivity.
Qed.

Lemma sub_client_pattern_skip pre rest :
  sub_client_pattern R (List.length pre) (pre ++ rest) = sub_client_pattern R 0 rest.
Proof. induction pre as [|c pre IH]; [reflexivity|exact IH]. Qed.

(** At a match the substitution writes one space and resumes after it. *)
Lemma remove_groups_match s rest :
  client_pattern_at R s = Some rest ->
  remove_groups R s = SPACE :: remove_groups R rest.
Proof.
  intros M. destruct (@client_pattern_at_consumed s rest M) as (c & consumed & E).
  unfold remove_groups. subst s. cbn [app] in *. cbn [sub_client_pattern].
  rewrite M. f_equal.
  rewrite length_app, Nat.add_sub. apply sub_client_pattern_skip.
Qed.

Lemma remove_groups_no_match c r :
  client_pattern_at R (c :: r) = None ->
  remove_groups R (c :: r) = c :: remove_groups R r.
Proof. intros M. unfold remove_groups. cbn [sub_client_pattern]. now rewrite M. Qed.

Lemma client_pattern_at_none s : ~ In LBRACKET s -> client_pattern_at R s = None.
Proof.
  intros H. unfold client_pattern_at, lstrip.
  destruct (bracket_at (drop_while (isspace R) s)) as [[g r]|] eqn:B; [|reflexivity].
  apply bracket_at_head in B as (t & B). exfalso. apply H.
  apply (drop_while_incl (isspace R)). rewrite B. now left.
Qed.

Lemma remove_groups_without_bracket s : ~ In LBRACKET s -> remove_groups R s = s.
Proof.
  induction s as [|c s IH]; [reflexivity|]. intros H.
  rewrite (@remove_groups_no_match c s (@client_pattern_at_none (c :: s) H)).
  f_equal. apply IH. intros X. apply H. now right.
Qed.

(** The first group and the white space around it become one space. *)
Lemma remove_groups_first pre g post :
  ~ In LBRACKET pre -> g <> [] -> ~ In RBRACKET g ->
  remove_groups R (pre ++ LBRACKET :: g ++ RBRACKET :: post) =
    rstrip R pre ++ SPACE :: remove_groups R (lstrip R post).
Proof.
  intros Hpre Hg H. induction pre as [|c pre IH].
  - cbn [app]. apply remove_groups_match.
    unfold client_pattern_at, lstrip at 1. cbn [drop_while].
    rewrite isspace_lbracket. now rewrite (@bracket_at_group g post Hg H).
  - destruct (blank R (c :: pre)) eqn:B.
    + rewrite (@rstrip_blank (c :: pre) B). cbn [app]. apply remove_groups_match.
      unfold client_pattern_at, lstrip at 1.
      change (c :: pre ++ LBRACKET :: g ++ RBRACKET :: post)
        with ((c :: pre) ++ LBRACKET :: g ++ RBRACKET :: post).
      rewrite drop_while_app. unfold blank in B. rewrite B. cbn [drop_while].
      rewrite isspace_lbracket. now rewrite (@bracket_at_group g post Hg H).
    + rewrite rstrip_cons, B. cbn [app].
      rewrite remove_groups_no_match.
      * f_equal. apply IH. intros X. apply Hpre. now right.
      * unfold client_pattern_at, lstrip.
        change (c :: pre ++ LBRACKET :: g ++ RBRACKET :: post)
          with ((c :: pre) ++ LBRACKET :: g ++ RBRACKET :: post).
        rewrite drop_while_app. unfold blank in B. rewrite B.
        destruct (@drop_while_not_all (isspace R) (c :: pre) B) as (d & t & -> & Hd).
        cbn [app]. rewrite bracket_at_other; [reflexivity|].
        intros ->. now apply Hpre.
Qed.

End ClientFacts.

(** *** The first bracketed group, wherever it begins *)

Section ClientGroupFacts.
Import JiraParser ClientSpec.
Variable R : runtime.

Lemma span_not_rbracket_fst s : ~ In RBRACKET (fst (span_not_rbracket s)).
Proof.
  induction s as [|c s IH]; [intros []|]. cbn [span_not_rbracket].
  destruct (N.eqb_spec c RBRACKET) as [E|E]; [intros []|].
  destruct (span_not_rbracket s) as [g rest]. cbn [fst] in *.
  intros [X|X]; [now apply E|now apply IH].
Qed.

Lemma bracket_at_is_group s g rest :
  bracket_at s = Some (g, rest) -> is_group s [] g rest.
Proof.
  destruct s as [|c t]; [discriminate|]. cbn [bracket_at].
  destruct (N.eqb_spec c LBRACKET) as [->|]; [|discriminate].
  pose proof (span_not_rbracket_app t) as A.
  pose proof (span_not_rbracket_rest t) as T.
  pose proof (span_not_rbracket_fst t) as F.
  destruct (span_not_rbracket t) as [[|a g'] [|x rest']]; try discriminate.
  cbn [fst snd] in A, T, F. destruct T as [-> _].
  intros [= <- <-]. split; [|split].
  - cbn [app]. now rewrite A.
  - discriminate.
  - exact F.
Qed.

Lemma is_group_bracket_at g post :
  is_group (LBRACKET :: g ++ RBRACKET :: post) [] g post ->
  bracket_at (LBRACKET :: g ++ RBRACKET :: post) = Some (g, post).
Proof. intros (_ & Hg & H). now apply bracket_at_group. Qed.

Lemma is_group_prepend a s pre g post :
  is_group s pre g post -> is_group (a ++ s) (a ++ pre) g post.
Proof.
  intros (E & Hg & H). split; [|now split].
  rewrite E. now rewrite app_assoc.
Qed.

Lemma is_group_tail c s pre g post :
  is_group (c :: s) (c :: pre) g post -> is_group s pre g post.
Proof.
  intros (E & Hg & H). split; [|now split].
  cbn [app] in E. now injection E.
Qed.

Lemma is_group_at_head s g post :
  is_group s [] g post -> bracket_at s = Some (g, post).
Proof.
  intros (E & Hg & H). cbn [app] in E. subst s. now apply bracket_at_group.
Qed.

Lemma first_group_tail c s pre g post :
  first_group (c :: s) (c :: pre) g post -> first_group s pre g post.
Proof.
  intros [G M]. split; [now apply is_group_tail with c|].
  intros pre' g' post' G'.
  specialize (M (c :: pre') g' post' (@is_group_prepend [c] s pre' g' post' G')).
  cbn [List.length] in M. lia.
Qed.

(** No group begins before the first one. *)
Lemma bracket_at_none_before s a t pre g post :
  first_group s pre g post -> s = a ++ t ->
  (List.length a < List.length pre)%nat -> bracket_at t = None.
Proof.
  intros [_ M] -> L.
  destruct (bracket_at t) as [[g' r']|] eqn:B; [|reflexivity].
  apply bracket_at_is_group in B.
  specialize (M (a ++ []) g' r' (@is_group_prepend a t [] g' r' B)).
  rewrite app_nil_r in M. lia.
Qed.

Lemma search_bracket_first_group pre : forall s g post,
  first_group s pre g post -> search_bracket s = Some g.
Proof.
  induction pre as [|c pre IH]; intros s g post F.
  - destruct F as [G _]. pose proof (is_group_at_head G) as B.
    destruct s as [|x s]; [discriminate|]. cbn [search_bracket]. now rewrite B.
  - assert (E : exists t, s = c :: t).
    { destruct F as [(E & _) _]. cbn [app] in E. eauto. }
    destruct E as (t & ->). cbn [search_bracket].
    rewrite (@bracket_at_none_before (c :: t) [] (c :: t) (c :: pre) g post F eq_refl);
      [|cbn [List.length]; lia].
    apply (IH t g post). now apply first_group_tail with c.
Qed.

Lemma group_free_tail c s : group_free (c :: s) -> group_free s.
Proof.
  intros H pre g post G.
  apply (H (c :: pre) g post). exact (@is_group_prepend [c] s pre g post G).
Qed.

Lemma group_free_cons c s :
  bracket_at (c :: s) = None -> group_free s -> group_free (c :: s).
Proof.
  intros B H pre g post G. destruct pre as [|x pre].
  - rewrite (is_group_at_head G) in B. discriminate.
  - assert (x = c) as -> by (destruct G as (E & _); cbn [app] in E; congruence).
    apply (H pre g post). now apply is_group_tail with c.
Qed.

Lemma search_bracket_group_free s : search_bracket s = None <-> group_free s.
Proof.
  induction s as [|c s IH].
  - split; [|reflexivity]. intros _ pre g post (E & _). now destruct pre.
  - cbn [search_bracket]. destruct (bracket_at (c :: s)) as [[g r]|] eqn:B.
    + split; [discriminate|]. intros H. exfalso.
      exact (H [] g r (bracket_at_is_group _ B)).
    + rewrite IH. split; [now apply group_free_cons|apply group_free_tail].
Qed.

Lemma group_free_without s :
  ~ In LBRACKET s \/ ~ In RBRACKET s -> group_free s.
Proof.
  intros H pre g post (E & _). subst s. destruct H as [H|H]; apply H.
  - apply in_or_app. right. now left.
  - apply in_or_app. right. right. apply in_or_app. right. now left.
Qed.

(** Every text either has no group or has a first one. *)
Lemma first_group_total s :
  group_free s \/ exists pre g post, first_group s pre g post.
Proof.
  induction s as [|c s IH].
  - left. intros pre g post (E & _). now destruct pre.
  - destruct (bracket_at (c :: s)) as [[g r]|] eqn:B.
    + right. exists [], g, r. split; [now apply bracket_at_is_group|].
      intros; cbn [List.length]; lia.
    + destruct IH as [H|(pre & g & post & [G M])].
      * left. now apply group_free_cons.
      * right. exists (c :: pre), g, post. split.
        -- exact (@is_group_prepend [c] s pre g post G).
        -- intros pre' g' post' G'. destruct pre' as [|x pre'].
           ++ rewrite (is_group_at_head G') in B. discriminate.
           ++ assert (x = c) as ->
                by (destruct G' as (E & _); cbn [app] in E; congruence).
              apply is_group_tail in G'. specialize (M pre' g' post' G').
              cbn [List.length]. lia.
Qed.

Lemma first_group_without_bracket pre g post :
  ~ In LBRACKET pre -> g <> [] -> ~ In RBRACKET g ->
  first_group (pre ++ LBRACKET :: g ++ RBRACKET :: post) pre g post.
Proof.
  intros Hpre Hg H. split; [now repeat split|].
  intros pre' g' post' (E & _). revert pre' E.
  induction pre as [|c pre IH]; intros pre' E; [cbn [List.length]; lia|].
  destruct pre' as [|x pre']; cbn [app] in E.
  - exfalso. apply Hpre. left. congruence.
  - injection E as _ E. cbn [List.length]. apply le_n_S.
    apply IH; [|exact E]. intros X. apply Hpre. now right.
Qed.

Lemma client_pattern_at_none_before s pre g post :
  first_group s pre g post -> blank R pre = false ->
  client_pattern_at R s = None.
Proof.
  intros F B. pose proof F as [(E & _) _].
  unfold client_pattern_at, lstrip. rewrite E, drop_while_app.
  unfold blank in B. rewrite B.
  destruct (drop_while_split (isspace R) pre) as (ws & Ews).
  destruct (@drop_while_not_all (isspace R) pre B) as (d & t & Ed & _).
  rewrite Ed in Ews |- *.
  rewrite (@bracket_at_none_before s ws
             ((d :: t) ++ LBRACKET :: g ++ RBRACKET :: post) pre g post F);
    [reflexivity| |].
  - rewrite E. rewrite Ews at 1. now rewrite <- app_assoc.
  - apply (f_equal (@List.length N)) in Ews. rewrite length_app in Ews.
    cbn [List.length] in Ews. lia.
Qed.

(** The first group and the white space around it become one space,
    whatever stands before it. *)
Lemma remove_groups_first_group pre : forall s g post,
  first_group s pre g post ->
  remove_groups R s = rstrip R pre ++ SPACE :: remove_groups R (lstrip R post).
Proof.
  induction pre as [|c pre IH]; intros s g post F.
  - pose proof F as [G _]. pose proof G as (E & Hg & H). cbn [app] in E. subst s.
    apply remove_groups_match.
    unfold client_pattern_at, lstrip at 1. cbn [drop_while].
    rewrite isspace_lbracket. now rewrite (@bracket_at_group g post Hg H).
  - pose proof F as [(E & Hg & H) _].
    destruct (blank R (c :: pre)) eqn:B.
    + rewrite (@rstrip_blank R (c :: pre) B). cbn [app]. apply remove_groups_match.
      unfold client_pattern_at, lstrip at 1. rewrite E, drop_while_app.
      unfold blank in B. rewrite B. cbn [drop_while].
      rewrite isspace_lbracket. now rewrite (@bracket_at_group g post Hg H).
    + rewrite rstrip_cons, B. cbn [app].
      pose proof (@client_pattern_at_none_before s (c :: pre) g post F B) as N.
      rewrite E in N |- *. cbn [app] in N |- *.
      rewrite (remove_groups_no_match _ _ _ N). f_equal.
      apply (IH _ g post). apply first_group_tail with c. now rewrite E in F.
Qed.

Lemma client_pattern_at_group_free s : group_free s -> client_pattern_at R s = None.
Proof.
  intros H. unfold client_pattern_at, lstrip.
  destruct (drop_while_split (isspace R) s) as (ws & Ews).
  destruct (bracket_at (drop_while (isspace R) s)) as [[g r]|] eqn:B; [|reflexivity].
  exfalso. apply bracket_at_is_group in B.
  apply (H (ws ++ []) g r). rewrite Ews at 1. now apply is_group_prepend.
Qed.

Lemma remove_groups_group_free s : group_free s -> remove_groups R s = s.
Proof.
  induction s as [|c s IH]; [reflexivity|]. intros H.
  rewrite (remove_groups_no_match _ _ _ (client_pattern_at_group_free H)).
  f_equal. apply IH. now apply group_free_tail with c.
Qed.

End ClientGroupFacts.

(** C3, as amended.  For every text (in particular the text of a list
    item after its marker), with [strip] the trimming of white space: call
    a group a bracketed substring [[g]] whose contents [g] are not empty and
    hold no ']', and the first group the one that begins furthest left.
    Every text either has no group or has a first one.  If the trimmed text
    has no group, which is so in particular when it has no '[' or no ']',
    the client is null and the title is the trimmed text; the client is
    null in no other case.  If the trimmed text is [pre [g] post] with
    [[g]] its first group, whatever [pre] holds, the client is [g] trimmed,
    and the title is the trimmed text in which every group, together with
    the white space around it, is replaced by one space, trimmed again: the
    part before the first group without its trailing white space, one
    space, and the rest treated the same way, which is the rest itself once
    it has no group.  So the extraction does not depend on the position:
    "[A] text", "text [A]" and "te [A] xt" give the client "A" and the
    titles "text", "text" and "te xt", and "[] fix [ACME] login" gives the
    client "ACME" and the title "[] fix login". *)
Theorem parse_client_from_text_spec (R : runtime) :
  let parse := JiraParser.parse_client_from_text R in
  let L := JiraParser.LBRACKET in
  let Rb := JiraParser.RBRACKET in
  (forall text, ~ In L text \/ ~ In Rb text -> parse text = (None, strip R text))
  /\ (forall s, ~ In L s \/ ~ In Rb s -> ClientSpec.group_free s)
  /\ (forall s, ClientSpec.group_free s
                \/ exists pre g post, ClientSpec.first_group s pre g post)
  /\ (forall pre g post,
        ~ In L pre -> g <> [] -> ~ In Rb g ->
        ClientSpec.first_group (pre ++ L :: g ++ Rb :: post) pre g post)
  /\ (forall text,
        ClientSpec.group_free (strip R text) -> parse text = (None, strip R text))
  /\ (forall text,
        fst (parse text) = None -> ClientSpec.group_free (strip R text))
  /\ (forall text pre g post,
        ClientSpec.first_group (strip R text) pre g post ->
        parse text =
          (Some (strip R g),
           strip R (rstrip R pre ++ JiraParser.SPACE
                      :: ClientSpec.remove_groups R (lstrip R post))))
  /\ (forall s pre g post,
        ClientSpec.first_group s pre g post ->
        ClientSpec.remove_groups R s =
          rstrip R pre ++ JiraParser.SPACE
            :: ClientSpec.remove_groups R (lstrip R post))
  /\ (forall s, ClientSpec.group_free s -> ClientSpec.remove_groups R s = s)
  /\ parse (py "[A] text") = (Some (py "A"), py "text")
  /\ parse (py "text [A]") = (Some (py "A"), py "text")
  /\ parse (py "te [A] xt") = (Some (py "A"), py "te xt")
  /\ parse (py "[] fix [ACME] login") = (Some (py "ACME"), py "[] fix login").
Proof.
  intros parse L Rb. unfold parse, L, Rb.
  assert (NoGroup : forall text,
            ClientSpec.group_free (strip R text) ->
            JiraParser.parse_client_from_text R text = (None, strip R text)).
  { intros text H. unfold JiraParser.parse_client_from_text.
    now rewrite (proj2 (search_bracket_group_free (strip R text)) H). }
  split; [|split; [|split; [|split; [|split; [|split; [|split; [|split;
    [|split; [|repeat split]]]]]]]]].
  - intros text H. apply NoGroup. apply group_free_without.
    destruct H as [H|H]; [left|right]; intros X; apply H; now apply strip_incl in X.
  - exact group_free_without.
  - exact first_group_total.
  - exact first_group_without_bracket.
  - exact NoGroup.
  - intros text. unfold JiraParser.parse_client_from_text.
    destruct (JiraParser.search_bracket (strip R text)) eqn:E; [discriminate|].
    intros _. now apply search_bracket_group_free.
  - intros text pre g post F.
    unfold JiraParser.parse_client_from_text.
    rewrite (@search_bracket_first_group pre (strip R text) g post F).
    f_equal. f_equal. exact (@remove_groups_first_group R pre (strip R text) g post F).
  - intros s pre g post F. exact (@remove_groups_first_group R pre s g post F).
  - intros s H. exact (@remove_groups_group_free R s H).
Qed.

Lemma not_in_of_existsb (c : N) (s : pystr) :
  existsb (N.eqb c) s = false -> ~ In c s.
Proof.
  intros E H. assert (existsb (N.eqb c) s = true) as X; [|congruence].
  apply existsb_exists. exists c. split; [assumption|apply N.eqb_refl].
Qed.

Lemma parse_client_from_text_spec_witness :
  let text := py "  [] fix  [ ACME ]  login " in
  ClientSpec.first_group (strip ascii_runtime text)
    (py "[] fix  ") (py " ACME ") (py "  login")
  /\ JiraParser.parse_client_from_text ascii_runtime text =
       (Some (py "ACME"), py "[] fix login").
Proof.
  intros text.
  assert (F : ClientSpec.first_group (strip ascii_runtime text)
                (py "[] fix  ") (py " ACME ") (py "  login")).
  { split.
    - split; [reflexivity|]. split; [discriminate|].
      apply not_in_of_existsb. reflexivity.
    - intros pre' g' post' (E & Hg & Hn).
      change (strip ascii_runtime text)
        with [91; 93; 32; 102; 105; 120; 32; 32; 91; 32; 65; 67; 77; 69; 32; 93;
              32; 32; 108; 111; 103; 105; 110]%N in E.
      do 8 (destruct pre' as [|? pre'];
            [exfalso; cbn [app] in E;
             first [discriminate E
                   |injection E as E; destruct g' as [|x g'];
                    [now apply Hg
                    |cbn [app] in E; injection E as Ex _; apply Hn; left;
                     now symmetry]]
            |cbn [app] in E; injection E as _ E]).
      cbn [List.length py map list_ascii_of_string]. lia. }
  split; [exact F|].
  rewrite (proj1 (proj2 (proj2 (proj2 (proj2 (proj2 (proj2
             (parse_client_from_text_spec ascii_runtime)))))))
             text _ _ _ F).
  reflexivity.
Defined.

(** C3 as stated fails.  With two bracketed groups the title loses both,
    where removing the first alone leaves the second; and the client is the
    content of the brackets trimmed, not the content itself. *)
Lemma title_loses_every_bracketed_group :
  let text := py "[A] x [B]" in
  JiraParser.parse_client_from_text ascii_runtime text = (Some (py "A"), py "x")
  /\ ClientSpec.title_first_removed ascii_runtime text = py "x [B]"
  /\ snd (JiraParser.parse_client_from_text ascii_runtime text)
     <> ClientSpec.title_first_removed ascii_runtime text
  /\ JiraParser.search_bracket (py "[ A ] x") = Some (py " A ")
  /\ fst (JiraParser.parse_client_from_text ascii_runtime (py "[ A ] x"))
     <> Some (py " A ").
Proof. repeat split; discriminate. Qed.

(** ** Fetching the issues page by page *)

Section PaginationFacts.
Import Sync Pagination PaginationSpec.

Lemma issues_loop_serves all request :
  serves all request ->
  forall fuel start_at issues,
    (List.length (skipn start_at all) < fuel * max_results)%nat ->
    issues_loop fuel request start_at issues = Some (issues ++ skipn start_at all).
Proof.
  intros Hs. induction fuel as [|fuel IH]; intros start_at issues Hlen; [lia|].
  cbn [issues_loop]. rewrite (Hs start_at).
  set (rem := skipn start_at all) in *.
  destruct (firstn max_results rem) as [|i page] eqn:P.
  - assert (rem = []) as ->.
    { destruct rem; [reflexivity|discriminate]. }
    now rewrite app_nil_r.
  - rewrite <- P.
    pose proof (firstn_skipn max_results rem) as FS.
    pose proof (length_firstn max_results rem) as LF.
    destruct (Nat.ltb_spec (List.length (firstn max_results rem)) max_results) as [L|L].
    + assert (firstn max_results rem = rem) as ->; [|reflexivity].
      apply firstn_all2. lia.
    + assert (E : skipn (start_at + max_results) all = skipn max_results rem).
      { unfold rem. rewrite skipn_skipn. f_equal. lia. }
      rewrite IH.
      * rewrite <- app_assoc, E. f_equal. f_equal. exact FS.
      * rewrite E, length_skipn. unfold max_results in *. lia.
Qed.

Lemma issues_loop_full_pages request :
  forall pages fuel start issues,
    (forall i, (i < List.length pages)%nat ->
       request (start + i * max_results)%nat = Some (nth i pages [])
       /\ (max_results <= List.length (nth i pages []))%nat) ->
    (List.length pages <= fuel)%nat ->
    issues_loop fuel request start issues =
      issues_loop (fuel - List.length pages)%nat request
        (start + List.length pages * max_results)%nat (issues ++ List.concat pages).
Proof.
  induction pages as [|page pages IH]; intros fuel start issues H Hf.
  - cbn. now rewrite Nat.sub_0_r, Nat.add_0_r, app_nil_r.
  - destruct fuel as [|fuel]; [cbn in Hf; lia|].
    destruct (H 0%nat ltac:(cbn; lia)) as [R0 L0]. cbn [nth] in R0, L0.
    rewrite Nat.mul_0_l, Nat.add_0_r in R0.
    cbn [issues_loop]. rewrite R0.
    destruct page as [|i page]; [cbn in L0; unfold max_results in L0; lia|].
    destruct (Nat.ltb_spec (List.length (i :: page)) max_results) as [L|L]; [lia|].
    rewrite IH.
    + cbn [List.length List.concat Nat.sub]. rewrite <- app_assoc.
      f_equal. lia.
    + intros j Hj. destruct (H (S j) ltac:(cbn; lia)) as [Rj Lj].
      cbn [nth] in Rj, Lj. split; [|assumption].
      rewrite <- Rj. f_equal. lia.
    + cbn in Hf. lia.
Qed.

End PaginationFacts.

(** X1.  Against a tracker that holds finitely many issues and honours
    the page size of 100 (each request is answered with the next 100
    issues from its offset, or with all that remain when fewer are left),
    the loop ends and returns all the issues in their order, once per
    issue, also when their number is a multiple of 100. *)
Theorem get_sprint_issues_complete
    (all : list Sync.RawIssue) (request : nat -> option (list Sync.RawIssue))
    (fuel : nat) :
  PaginationSpec.serves all request ->
  (List.length all < fuel * Pagination.max_results)%nat ->
  Pagination.get_sprint_issues fuel request = Some all.
Proof.
  intros Hs Hf. unfold Pagination.get_sprint_issues.
  now rewrite (@issues_loop_serves all request Hs fuel 0%nat []).
Qed.

Lemma get_sprint_issues_complete_witness :
  PaginationSpec.serves PaginationSpec.sample_issues PaginationSpec.sample_request
  /\ Pagination.get_sprint_issues 3 PaginationSpec.sample_request
     = Some PaginationSpec.sample_issues.
Proof.
  assert (S : PaginationSpec.serves PaginationSpec.sample_issues
                PaginationSpec.sample_request) by (intro; reflexivity).
  split; [exact S|].
  apply (@get_sprint_issues_complete _ _ 3%nat S).
  apply Nat.ltb_lt. reflexivity.
Defined.

(** X2.  When the first requests are answered with full pages and the
    next one fails or comes back empty, the loop returns the issues of the
    pages before it and reports nothing; when the next one is a short page,
    the loop ends with it. *)
Theorem get_sprint_issues_stops_at_failure
    (pages : list (list Sync.RawIssue))
    (request : nat -> option (list Sync.RawIssue)) (fuel : nat) :
  PaginationSpec.answers_full pages request ->
  (List.length pages < fuel)%nat ->
  Pagination.get_sprint_issues fuel request =
    match request (List.length pages * Pagination.max_results)%nat with
    | None => Some (List.concat pages)
    | Some last =>
        if (List.length last <? Pagination.max_results)%nat
        then Some (List.concat pages ++ last)
        else Pagination.issues_loop (fuel - List.length pages - 1)%nat request
               (S (List.length pages) * Pagination.max_results)%nat
               (List.concat pages ++ last)
    end.
Proof.
  intros Ha Hf. unfold Pagination.get_sprint_issues.
  rewrite (@issues_loop_full_pages request pages fuel 0%nat []);
    [|exact Ha|lia].
  cbn [app Nat.add].
  destruct (fuel - List.length pages)%nat as [|f] eqn:F; [lia|].
  cbn [Pagination.issues_loop].
  destruct (request _) as [[|i last]|]; cbn [List.length].
  - now rewrite app_nil_r.
  - destruct (Nat.ltb_spec (S (List.length last)) Pagination.max_results);
      [reflexivity|].
    f_equal; lia.
  - reflexivity.
Qed.

Lemma get_sprint_issues_stops_at_failure_witness :
  let pages := [firstn 100 PaginationSpec.sample_issues;
                firstn 100 (skipn 100 PaginationSpec.sample_issues)] in
  PaginationSpec.answers_full pages PaginationSpec.failing_request
  /\ Pagination.get_sprint_issues 5 PaginationSpec.failing_request
     = Some (firstn 200 PaginationSpec.sample_issues).
Proof.
  intros pages.
  assert (A : PaginationSpec.answers_full pages PaginationSpec.failing_request).
  { intros i Hi. destruct i as [|[|i]]; [| |cbn in Hi; lia].
    - split; [reflexivity|apply Nat.leb_le; reflexivity].
    - split; [reflexivity|apply Nat.leb_le; reflexivity]. }
  split; [exact A|].
  rewrite (@get_sprint_issues_stops_at_failure pages _ 5%nat A); [|cbn; lia].
  reflexivity.
Defined.

(** X3.  The loop has no bound of its own: against a tracker that
    answers every request with at least 100 issues it never ends. *)
Theorem get_sprint_issues_unbounded
    (request : nat -> option (list Sync.RawIssue)) :
  (forall start_at, exists page,
      request start_at = Some page
      /\ (Pagination.max_results <= List.length page)%nat) ->
  forall fuel, Pagination.get_sprint_issues fuel request = None.
Proof.
  intros H fuel. unfold Pagination.get_sprint_issues.
  generalize 0%nat ([] : list Sync.RawIssue).
  induction fuel as [|fuel IH]; intros start issues; [reflexivity|].
  cbn [Pagination.issues_loop].
  destruct (H start) as (page & -> & L).
  destruct page as [|i page]; [cbn in L; unfold Pagination.max_results in L; lia|].
  destruct (Nat.ltb_spec (List.length (i :: page)) Pagination.max_results); [lia|].
  apply IH.
Qed.

Lemma get_sprint_issues_unbounded_witness :
  Pagination.get_sprint_issues 50
    (fun _ => Some (firstn 100 PaginationSpec.sample_issues)) = None.
Proof.
  apply (@get_sprint_issues_unbounded
           (fun _ => Some (firstn 100 PaginationSpec.sample_issues))).
  intros start_at. eexists. split; [reflexivity|].
  apply Nat.leb_le. reflexivity.
Defined.

(** ** From issues to tasks *)

Section TransformFacts.
Import JiraParser Sync TransformSpec.
Variable R : runtime.
Variable client : JiraClient.

Lemma lookup_coherent cache k v :
  cache_coherent client cache ->
  StatusMapper.lookup k cache = Some v -> v = get_epic_name client k.
Proof.
  intros H L. apply lookup_In in L. now apply H.
Qed.

Lemma lookup_mem k (cache : epic_cache) :
  cache_mem k cache = true -> exists v, StatusMapper.lookup k cache = Some v.
Proof.
  unfold cache_mem. induction cache as [|[k' v'] cache IH]; [discriminate|].
  cbn [existsb fst StatusMapper.lookup].
  destruct (pystr_eqb k k'); [eauto|exact IH].
Qed.

(** One issue: the task carries the key of the issue, a canonical
    status and the epic name of the tracker, and the cache stays coherent. *)
Lemma transform_issue_spec issue cache :
  cache_coherent client cache ->
  let '(task, cache') := transform_issue R issue cache client in
  key task = i_key issue
  /\ summary task = get_or (f_summary (fields_of issue)) []
  /\ labels task = get_or (f_labels (fields_of issue)) []
  /\ StatusSpec.canonical (status task)
  /\ epic task = epic_of client issue
  /\ cache_coherent client cache'.
Proof.
  intros Hc. unfold transform_issue, epic_of, fields_of.
  set (fields := get_or (i_fields issue) empty_fields).
  assert (Hst : StatusSpec.canonical
                  (StatusMapper.map_jira_status R
                     (Some (get_or (f_status fields) empty_status)))).
  { destruct (StatusMapper.lookup
                (StatusSpec.category_key R (get_or (f_status fields) empty_status))
                StatusMapper.STATUS_CATEGORY_MAP) as [v|] eqn:E.
    - rewrite (@map_jira_status_by_category R _ v E).
      eapply category_table_canonical; eauto.
    - rewrite (@map_jira_status_by_name R _ E).
      rewrite <- name_fallback_rule. apply name_fallback_canonical. }
  destruct (f_customfield_10014 fields) as [k|]; [|cbn; repeat split; auto].
  destruct (nonempty k); [|cbn; repeat split; auto].
  destruct (cache_mem k cache) eqn:M; cbn [key summary labels status epic].
  - repeat split; auto.
    unfold cache_get. destruct (lookup_mem k cache M) as (v & L).
    rewrite L. exact (lookup_coherent k Hc L).
  - repeat split; auto.
    + unfold cache_get. cbn [StatusMapper.lookup]. now rewrite pystr_eqb_refl.
    + intros k' v' [[= <- <-]|H]; [reflexivity|now apply Hc].
Qed.

Lemma transform_issues_spec issues : forall cache,
  cache_coherent client cache ->
  Forall2 (fun issue task =>
             key task = i_key issue
             /\ summary task = get_or (f_summary (fields_of issue)) []
             /\ labels task = get_or (f_labels (fields_of issue)) []
             /\ StatusSpec.canonical (status task)
             /\ epic task = epic_of client issue)
          issues (transform_issues R issues cache client).
Proof.
  induction issues as [|issue issues IH]; intros cache Hc; [constructor|].
  cbn [transform_issues].
  pose proof (transform_issue_spec issue Hc) as S.
  destruct (transform_issue R issue cache client) as [task cache'].
  destruct S as (A & B & C & D & E & F).
  constructor; [repeat split; assumption|now apply IH].
Qed.

End TransformFacts.

(** X4.  [transform_issues], started on an empty cache as both [main]s
    do, gives one task per issue, in the order of the issues, with the key
    of its issue, the summary and the labels of the issue (empty when
    missing), a status that is one of "Done", "In Progress" and "To Do", and
    as epic the name the tracker gives for the epic link of the issue: the
    cache never changes an answer. *)
Theorem transform_issues_tasks
    (R : runtime) (client : Sync.JiraClient) (issues : list Sync.RawIssue) :
  let tasks := Sync.transform_issues R issues [] client in
  map JiraParser.key tasks = map Sync.i_key issues
  /\ Forall (fun t => StatusSpec.canonical (JiraParser.status t)) tasks
  /\ Forall2 (fun issue task =>
                JiraParser.summary task
                  = get_or (Sync.f_summary (TransformSpec.fields_of issue)) []
                /\ JiraParser.labels task
                   = get_or (Sync.f_labels (TransformSpec.fields_of issue)) []
                /\ JiraParser.epic task = TransformSpec.epic_of client issue)
             issues tasks.
Proof.
  intros tasks.
  assert (F : Forall2 (fun issue task =>
             JiraParser.key task = Sync.i_key issue
             /\ JiraParser.summary task
                = get_or (Sync.f_summary (TransformSpec.fields_of issue)) []
             /\ JiraParser.labels task
                = get_or (Sync.f_labels (TransformSpec.fields_of issue)) []
             /\ StatusSpec.canonical (JiraParser.status task)
             /\ JiraParser.epic task = TransformSpec.epic_of client issue)
          issues tasks).
  { apply transform_issues_spec. intros k v []. }
  clearbody tasks. induction F as [|i t issues0 ts (A & B & C & D & E) F IH].
  - repeat split; constructor.
  - destruct IH as (I1 & I2 & I3). repeat split.
    + cbn [map]. now rewrite A, I1.
    + now constructor.
    + now constructor.
Qed.

(** Two issues with the same epic link get the same epic name. *)
Example transform_issues_shared_epic :
  map JiraParser.epic
    (Sync.transform_issues ascii_runtime
       [TransformSpec.linked_issue 1; SyncSpec.issue1; TransformSpec.linked_issue 2]
       [] TransformSpec.epic_tracker)
  = [Some (py "Importer"); None; Some (py "Importer")].
Proof. reflexivity. Qed.

(** ** The percentage stays between 0 and 100 *)

Section PercentFacts.
Import JiraParser RoundingSpec.
Local Open Scope Z_scope.

Lemma shr_1_below mrs K :
  0 <= shr_m mrs ->
  below (2 * K) (shr_m mrs) (loc_of_shr_record mrs) ->
  below K (shr_m (shr_1 mrs)) (loc_of_shr_record (shr_1 mrs))
  /\ shr_m (shr_1 mrs) * 2 <= shr_m mrs.
Proof.
  destruct mrs as [m r s].
  destruct m as [|[p|p|]|p]; destruct r, s;
    cbn [shr_1 shr_m shr_r shr_s loc_of_shr_record below orb]; lia.
Qed.

Lemma iter_shr_1_below p : forall mrs K,
  0 <= shr_m mrs ->
  below (2 ^ Zpos p * K) (shr_m mrs) (loc_of_shr_record mrs) ->
  below K (shr_m (iter_pos shr_1 p mrs)) (loc_of_shr_record (iter_pos shr_1 p mrs))
  /\ shr_m (iter_pos shr_1 p mrs) * 2 ^ Zpos p <= shr_m mrs.
Proof.
  induction p as [p IH|p IH|]; intros mrs K H0 HB; cbn [iter_pos].
  - assert (E : 2 ^ Zpos p~1 = 2 * (2 ^ Zpos p * 2 ^ Zpos p)).
    { rewrite Pos2Z.inj_xI, Z.pow_add_r, Z.pow_mul_r, Z.pow_1_r by lia.
      replace (2 ^ 2) with 4 by reflexivity.
      rewrite <- Z.pow_mul_l. replace (2 * 2) with 4 by reflexivity.
      rewrite <- (Z.pow_mul_r 2 2) by lia. replace (2 ^ 2) with 4 by reflexivity.
      lia. }
    rewrite E in *.
    destruct (@shr_1_below mrs (2 ^ Zpos p * 2 ^ Zpos p * K) H0) as [B1 F1].
    { now replace (2 * (2 ^ Zpos p * 2 ^ Zpos p * K))
        with (2 * (2 ^ Zpos p * 2 ^ Zpos p) * K) by lia. }
    pose proof (proj2 (shr_1_digits mrs) H0) as N1.
    destruct (IH (shr_1 mrs) (2 ^ Zpos p * K) N1) as [B2 F2].
    { now replace (2 ^ Zpos p * (2 ^ Zpos p * K))
        with (2 ^ Zpos p * 2 ^ Zpos p * K) by lia. }
    pose proof (proj2 (iter_shr_1_digits p (shr_1 mrs)) N1) as N2.
    destruct (IH (iter_pos shr_1 p (shr_1 mrs)) K N2 B2) as [B3 F3].
    split; [exact B3|].
    pose proof (Z.pow_pos_nonneg 2 (Zpos p) ltac:(lia) ltac:(lia)). nia.
  - assert (E : 2 ^ Zpos p~0 = 2 ^ Zpos p * 2 ^ Zpos p).
    { rewrite Pos2Z.inj_xO, <- Z.pow_add_r by lia. f_equal. lia. }
    rewrite E in *.
    destruct (IH mrs (2 ^ Zpos p * K) H0) as [B2 F2].
    { now replace (2 ^ Zpos p * (2 ^ Zpos p * K))
        with (2 ^ Zpos p * 2 ^ Zpos p * K) by lia. }
    pose proof (proj2 (iter_shr_1_digits p mrs) H0) as N2.
    destruct (IH (iter_pos shr_1 p mrs) K N2 B2) as [B3 F3].
    split; [exact B3|].
    pose proof (Z.pow_pos_nonneg 2 (Zpos p) ltac:(lia) ltac:(lia)). nia.
  - change (2 ^ 1) with 2 in *. now apply shr_1_below.
Qed.

Lemma shr_below mrs e n K :
  0 <= shr_m mrs ->
  below (2 ^ Z.max 0 n * K) (shr_m mrs) (loc_of_shr_record mrs) ->
  below K (shr_m (fst (shr mrs e n))) (loc_of_shr_record (fst (shr mrs e n)))
  /\ shr_m (fst (shr mrs e n)) * 2 ^ Z.max 0 n <= shr_m mrs.
Proof.
  intros H0 HB. destruct n as [|p|p]; cbn [shr fst Z.max] in *.
  - change (Z.max 0 0) with 0 in *. rewrite Z.pow_0_r in *. split; [|lia].
    now replace K with (1 * K) by lia.
  - replace (Z.max 0 (Zpos p)) with (Zpos p) in * by lia.
    now apply iter_shr_1_below.
  - replace (Z.max 0 (Zneg p)) with 0 in * by lia. rewrite Z.pow_0_r in *.
    split; [|lia]. now replace K with (1 * K) by lia.
Qed.

Lemma loc_of_shr_record_of_loc m l :
  loc_of_shr_record (shr_record_of_loc m l) = l
  \/ exists c, l = loc_Inexact c /\ exists c', loc_of_shr_record (shr_record_of_loc m l) = loc_Inexact c'.
Proof. destruct l as [|[]]; cbn; eauto. Qed.

Lemma below_record_of_loc K m l :
  below K m l -> below K m (loc_of_shr_record (shr_record_of_loc m l)).
Proof. destruct l as [|[]]; cbn; auto. Qed.

Lemma round_nearest_even_below K m l :
  below K m l -> round_nearest_even m l <= K.
Proof.
  destruct l as [|[]]; cbn [below round_nearest_even]; try lia.
  destruct (Z.even m); lia.
Qed.

(** Rounding does not cross a bound that is representable at the scale
    the first shift reaches: a number at most [K] at the scale [ex] is
    rounded to a float at most [K] at that scale. *)
Lemma binary_round_aux_le sx mx ex lx K1 :
  0 <= mx ->
  below (2 ^ Z.max 0 (fexp prec emax (Zdigits2 mx + ex) - ex) * K1) mx lx ->
  match binary_round_aux prec emax sx mx ex lx with
  | S754_finite _ m e =>
      ex <= e
      /\ Zpos m * 2 ^ (e - ex)
         <= 2 ^ Z.max 0 (fexp prec emax (Zdigits2 mx + ex) - ex) * K1
  | _ => True
  end.
Proof.
  intros Hm HB.
  unfold binary_round_aux, shr_fexp.
  set (n1 := fexp prec emax (Zdigits2 mx + ex) - ex) in *.
  destruct (@shr_below (shr_record_of_loc mx lx) ex n1 K1) as [B1 F1].
  { now rewrite shr_m_of_loc. }
  { rewrite shr_m_of_loc. now apply below_record_of_loc. }
  destruct (shr_digits (shr_record_of_loc mx lx) ex n1) as (_ & E1 & N1).
  rewrite shr_m_of_loc in F1, N1. specialize (N1 Hm).
  destruct (shr (shr_record_of_loc mx lx) ex n1) as [mrs' e'].
  cbn [fst snd] in *.
  set (mr := round_nearest_even (shr_m mrs') (loc_of_shr_record mrs')).
  pose proof (round_nearest_even_below _ _ _ B1) as Rb. fold mr in Rb.
  pose proof (round_nearest_even_range (shr_m mrs') (loc_of_shr_record mrs')) as Rr.
  fold mr in Rr. assert (Hmr : 0 <= mr) by lia.
  set (n2 := fexp prec emax (Zdigits2 mr + e') - e').
  destruct (@shr_below (shr_record_of_loc mr loc_Exact) e' n2 mr) as [_ F2].
  { rewrite shr_m_of_loc. exact Hmr. }
  { rewrite shr_m_of_loc. cbn [shr_record_of_loc loc_of_shr_record below].
    pose proof (Z.pow_pos_nonneg 2 (Z.max 0 n2) ltac:(lia) ltac:(lia)). nia. }
  destruct (shr_digits (shr_record_of_loc mr loc_Exact) e' n2) as (_ & E2 & _).
  rewrite shr_m_of_loc in F2.
  destruct (shr (shr_record_of_loc mr loc_Exact) e' n2) as [mrs'' e''].
  cbn [fst snd] in *.
  destruct (shr_m mrs'') as [|m|m] eqn:M; try exact I.
  destruct (e'' <=? emax - prec); [|exact I].
  subst e'' e'. split; [lia|].
  replace (ex + Z.max 0 n1 + Z.max 0 n2 - ex) with (Z.max 0 n2 + Z.max 0 n1) by lia.
  rewrite Z.pow_add_r by lia.
  pose proof (Z.pow_pos_nonneg 2 (Z.max 0 n1) ltac:(lia) ltac:(lia)) as P1.
  assert (X : Zpos m * 2 ^ Z.max 0 n2 <= K1) by lia.
  rewrite Z.mul_assoc, (Z.mul_comm (2 ^ Z.max 0 n1) K1).
  apply Z.mul_le_mono_nonneg_r; lia.
Qed.

Lemma new_location_cases nb k :
  (k = 0 /\ new_location nb k = loc_Exact)
  \/ (k <> 0 /\ exists c, new_location nb k = loc_Inexact c).
Proof.
  unfold new_location, new_location_even, new_location_odd.
  destruct k as [|p|p]; [left|right|right]; (split; [lia|]);
    destruct (Z.even nb); try reflexivity; eexists; reflexivity.
Qed.

(** The quotient of two positive integers, the first not above the
    second, is a float that is at most 1. *)
Lemma int_truediv_le_one (d t : positive) :
  (d <= t)%positive ->
  exists q, int_truediv (Zpos d) (Zpos t) = Some q /\
    match q with
    | S754_zero _ => True
    | S754_finite s m e =>
        s = false /\ Zpos (digits2_pos m) + e <= 2 /\ e <= -51
        /\ Zpos m <= 2 ^ (- e)
    | _ => False
    end.
Proof.
  intros Hdt.
  destruct (int_truediv_small Hdt) as (q & E & Hq).
  exists q. split; [exact E|].
  destruct q as [sq|sq| |sq m e]; try exact Hq.
  destruct Hq as (Hs & HD & He). repeat split; auto.
  revert E. unfold int_truediv. change (Zpos t =? 0) with false. cbv iota.
  unfold operand_of_int, SFdiv, SFdiv_core_binary.
  set (d1 := Zdigits2 (Zpos d)). set (d2 := Zdigits2 (Zpos t)).
  assert (Hd : d1 <= d2) by (apply Zdigits2_mono; lia).
  set (e' := Z.min (fexp prec emax (d1 + 0 - (d2 + 0))) (0 - 0)).
  assert (He' : -1074 <= e' <= -53)
    by (unfold e', fexp, SpecFloat.emin, prec, emax; lia).
  set (s := 0 - 0 - e'). assert (Hse : s = - e') by (unfold s; lia).
  destruct s as [|ps|ps] eqn:S; try lia.
  rewrite Z.shiftl_mul_pow2 by lia.
  pose proof (Z.pow_pos_nonneg 2 (Zpos ps) ltac:(lia) ltac:(lia)) as P2.
  pose proof (Z_div_mod (Zpos d * 2 ^ Zpos ps) (Zpos t) ltac:(lia)) as DM.
  destruct (Z.div_eucl (Zpos d * 2 ^ Zpos ps) (Zpos t)) as [q r].
  destruct DM as [DM Hr].
  assert (Hq : 0 <= q <= 2 ^ Zpos ps) by nia.
  assert (Dq : Zdigits2 q <= Zpos ps + 1).
  { apply Zdigits2_le_of_lt; [lia|]. rewrite Z.pow_add_r by lia. lia. }
  set (n1 := Z.max 0 (fexp prec emax (Zdigits2 q + e') - e')).
  assert (Hn1 : 0 <= n1 <= Zpos ps).
  { unfold n1, fexp, SpecFloat.emin, prec, emax. lia. }
  pose proof (@binary_round_aux_le (xorb false false) q e'
                (new_location (Zpos t) r) (2 ^ (Zpos ps - n1)) ltac:(lia)) as L.
  fold n1 in L. rewrite <- Z.pow_add_r in L by lia.
  replace (n1 + (Zpos ps - n1)) with (Zpos ps) in L by lia.
  assert (HB : below (2 ^ Zpos ps) q (new_location (Zpos t) r)).
  { destruct (new_location_cases (Zpos t) r) as [[-> ->]|[Nr [c ->]]];
      cbn [below]; [lia|nia]. }
  specialize (L HB).
  destruct (binary_round_aux prec emax (xorb false false) q e' _) as [sz|sz| |sz mz ez];
    try discriminate.
  intros [= -> -> ->]. destruct L as [L1 L2].
  assert (X : 2 ^ Zpos ps = 2 ^ (- e) * 2 ^ (e - e')).
  { rewrite <- Z.pow_add_r by lia. f_equal. lia. }
  rewrite X in L2.
  pose proof (Z.pow_pos_nonneg 2 (e - e') ltac:(lia) ltac:(lia)) as P3.
  apply Z.mul_le_mono_pos_r in L2; assumption.
Qed.

Lemma py_round_negative_exponent m pe :
  py_round (S754_finite false m (Zneg pe)) =
    Some (match 2 * (Zpos m mod 2 ^ Zpos pe) ?= 2 ^ Zpos pe with
          | Lt => Zpos m / 2 ^ Zpos pe
          | Gt => Zpos m / 2 ^ Zpos pe + 1
          | Eq => if Z.even (Zpos m / 2 ^ Zpos pe)
                  then Zpos m / 2 ^ Zpos pe else Zpos m / 2 ^ Zpos pe + 1
          end).
Proof. reflexivity. Qed.

(** [round] of a non-negative float that is at most an integer is at
    most that integer. *)
Lemma py_round_le_bound m e (b : Z) :
  e < 0 -> Zpos m <= b * 2 ^ (- e) ->
  exists a, py_round (S754_finite false m e) = Some a /\ 0 <= a <= b.
Proof.
  intros He Hm.
  destruct e as [|pe|pe]; try lia.
  eexists. split; [apply py_round_negative_exponent|].
  change (- Zneg pe) with (Zpos pe) in Hm.
  pose proof (Z.pow_pos_nonneg 2 (Zpos pe) ltac:(lia) ltac:(lia)) as P.
  pose proof (Z_div_mod_eq_full (Zpos m) (2 ^ Zpos pe)) as DM.
  pose proof (Z.mod_pos_bound (Zpos m) (2 ^ Zpos pe) P) as MB.
  pose proof (Z.div_pos (Zpos m) (2 ^ Zpos pe) ltac:(lia) P) as Q0.
  generalize dependent (Zpos m / 2 ^ Zpos pe).
  generalize dependent (Zpos m mod 2 ^ Zpos pe).
  intros r MB q DM Q0.
  assert (Hq : q <= b) by nia.
  destruct (Z.compare_spec (2 * r) (2 ^ Zpos pe)) as [C|C|C]; try lia.
  - destruct (Z.even q); [lia|]. nia.
  - nia.
Qed.

(** The percentage of a count within its total lies between 0 and 100. *)
Lemma percent_of_range (d t : Z) :
  0 <= d <= t -> 0 < t -> exists p, percent_of d t = Some p /\ 0 <= p <= 100.
Proof.
  intros [H0 Hdt] Ht. unfold percent_of.
  destruct t as [|t|t]; try lia.
  destruct d as [|d|d]; try lia.
  - exists 0; split; [reflexivity|lia].
  - destruct (@int_truediv_le_one d t ltac:(lia)) as (q & -> & Hq).
    rewrite float_of_int_100.
    destruct q as [sq|sq| |sq m e]; try contradiction.
    + exists 0; split; [reflexivity|lia].
    + destruct Hq as (-> & HD & He & Hm).
      unfold SFmul.
      pose proof (Zdigits2_mul m 7036874417766400) as DM.
      change (Zdigits2 (Zpos 7036874417766400)) with 53 in DM.
      simpl Zdigits2 in DM.
      pose proof (@binary_round_aux_small (xorb false false)
                    (Zpos (m * 7036874417766400)) (e + -46) loc_Exact 9
                    ltac:(lia) ltac:(simpl Zdigits2; lia) ltac:(lia) ltac:(lia)) as B.
      set (n1 := Z.max 0 (fexp prec emax
                   (Zdigits2 (Zpos (m * 7036874417766400)) + (e + -46)) - (e + -46))).
      assert (Hn1 : 0 <= n1 <= 2 - e).
      { unfold n1, fexp, SpecFloat.emin, prec, emax. simpl Zdigits2. lia. }
      pose proof (@binary_round_aux_le (xorb false false)
                    (Zpos (m * 7036874417766400)) (e + -46) loc_Exact
                    (25 * 2 ^ (48 - e - n1)) ltac:(lia)) as L.
      fold n1 in L.
      assert (K : 2 ^ n1 * (25 * 2 ^ (48 - e - n1)) = 7036874417766400 * 2 ^ (- e)).
      { replace (2 ^ n1 * (25 * 2 ^ (48 - e - n1)))
          with (25 * (2 ^ n1 * 2 ^ (48 - e - n1))) by lia.
        rewrite <- Z.pow_add_r by lia.
        replace (n1 + (48 - e - n1)) with (48 + - e) by lia.
        rewrite Z.pow_add_r by lia. rewrite Z.mul_assoc.
        change (25 * 2 ^ 48) with 7036874417766400. reflexivity. }
      rewrite K in L.
      assert (HB : below (7036874417766400 * 2 ^ (- e))
                     (Zpos (m * 7036874417766400)) loc_Exact).
      { cbn [below]. rewrite Pos2Z.inj_mul. nia. }
      specialize (L HB).
      destruct (binary_round_aux prec emax (xorb false false) _ _ _)
        as [sz|sz| |sz mz ez]; try contradiction.
      * exists 0; split; [reflexivity|lia].
      * destruct B as (-> & _ & Hez). destruct L as [L1 L2]. simpl xorb.
        apply py_round_le_bound; [lia|].
        assert (X : 7036874417766400 * 2 ^ (- e)
                    = 100 * 2 ^ (- ez) * 2 ^ (ez - (e + -46))).
        { replace 7036874417766400 with (100 * 2 ^ 46) by reflexivity.
          rewrite <- !Z.mul_assoc, <- !Z.pow_add_r by lia.
          f_equal. f_equal. lia. }
        rewrite X in L2.
        pose proof (Z.pow_pos_nonneg 2 (ez - (e + -46)) ltac:(lia) ltac:(lia)) as P3.
        apply Z.mul_le_mono_pos_r in L2; assumption.
Qed.

(** A count equal to its total gives 100, and a zero count gives 0. *)
Lemma percent_of_all (n : positive) : percent_of (Zpos n) (Zpos n) = Some 100.
Proof.
  unfold percent_of, int_truediv. change (Zpos n =? 0) with false. cbv iota.
  unfold operand_of_int, SFdiv, SFdiv_core_binary.
  replace (Zdigits2 (Zpos n) + 0 - (Zdigits2 (Zpos n) + 0)) with 0 by lia.
  change (Z.min (fexp prec emax 0) (0 - 0)) with (-53).
  change (0 - 0 - -53) with 53. cbv iota.
  rewrite Z.shiftl_mul_pow2 by lia.
  pose proof (Z.div_mul (2 ^ 53) (Zpos n) ltac:(lia)) as Q.
  pose proof (Z.mod_mul (2 ^ 53) (Zpos n) ltac:(lia)) as M.
  rewrite (Z.mul_comm (2 ^ 53)) in Q, M.
  unfold Z.div, Z.modulo in Q, M.
  destruct (Z.div_eucl (Zpos n * 2 ^ 53) (Zpos n)) as [q r].
  subst q r.
  destruct (new_location_cases (Zpos n) 0) as [[_ ->]|[N _]]; [|congruence].
  reflexivity.
Qed.

Lemma percent_of_none (n : positive) : percent_of 0 (Zpos n) = Some 0.
Proof. reflexivity. Qed.

End PercentFacts.

(** ** Bounds and completion of [calculate_goal_progress] *)

Section ProgressBounds.
Import JiraParser ProgressSpec.
Local Open Scope Z_scope.


Lemma count_status_all s (ts : list Task) :
  count_status s ts = Z.of_nat (List.length ts)
  <-> (forall t, In t ts -> status t = s).
Proof.
  unfold count_status. induction ts as [|t ts IH]; cbn [filter].
  - split; [intros _ t []|reflexivity].
  - pose proof (filter_length_le (fun t => pystr_eqb (status t) s) ts) as L.
    destruct (pystr_eqb (status t) s) eqn:E; cbn [List.length].
    + apply pystr_eqb_eq in E. rewrite !Nat2Z.inj_succ.
      split.
      * intros H u [<-|Hu]; [exact E|]. apply IH; [lia|exact Hu].
      * intros H. f_equal. apply IH. intros u Hu. apply H. now right.
    + split; [lia|]. intros H. specialize (H t (or_introl eq_refl)).
      subst s. now rewrite pystr_eqb_refl in E.
Qed.

Lemma count_status_none s (ts : list Task) :
  count_status s ts = 0 <-> (forall t, In t ts -> status t <> s).
Proof.
  unfold count_status. induction ts as [|t ts IH]; cbn [filter].
  - split; [intros _ t []|reflexivity].
  - destruct (pystr_eqb (status t) s) eqn:E; cbn [List.length].
    + apply pystr_eqb_eq in E. split; [lia|].
      intros H. now destruct (H t (or_introl eq_refl)).
    + split.
      * intros H u [<-|Hu]; [|now apply IH].
        intros Hs. rewrite Hs, pystr_eqb_refl in E. discriminate.
      * intros H. apply IH. intros u Hu. apply H. now right.
Qed.

Lemma calculate_goal_progress_cons (t : Task) (ts : list Task) :
  exists p,
    percent_of (count_status StatusMapper.Done (t :: ts))
               (Z.of_nat (List.length (t :: ts))) = Some p
    /\ 0 <= p <= 100
    /\ calculate_goal_progress (t :: ts) =
       Some {| done := count_status StatusMapper.Done (t :: ts);
               inProgress := count_status StatusMapper.InProgress (t :: ts);
               todo := Z.of_nat (List.length (t :: ts))
                       - count_status StatusMapper.Done (t :: ts)
                       - count_status StatusMapper.InProgress (t :: ts);
               total := Z.of_nat (List.length (t :: ts));
               percent := p |}.
Proof.
  pose proof (count_status_range StatusMapper.Done (t :: ts)) as C.
  destruct (@percent_of_range (count_status StatusMapper.Done (t :: ts))
              (Z.of_nat (List.length (t :: ts))) C) as (p & Hp & Hr).
  { cbn [List.length]. lia. }
  exists p. split; [exact Hp|]. split; [exact Hr|].
  unfold calculate_goal_progress. cbv zeta. now rewrite Hp.
Qed.

(** X5.  [calculate_goal_progress] returns a record for every task list, and
    in it each of [done], [inProgress] and [todo] lies between 0 and [total]
    and [percent] lies between 0 and 100, whatever the number of tasks.  The
    same bounds hold for the [completionPercent] and [taskStats] of every
    goal record that [build_sprint_data] assembles. *)
Theorem calculate_goal_progress_bounds :
  (forall ts : list Task,
    exists pr,
      calculate_goal_progress ts = Some pr
      /\ 0 <= done pr <= total pr
      /\ 0 <= inProgress pr <= total pr
      /\ 0 <= todo pr <= total pr
      /\ 0 <= percent pr <= 100)
  /\ (forall mapper stored tasks existing_data goal_data,
        exists g,
          Sync.build_record mapper stored tasks existing_data goal_data = Some g
          /\ 0 <= Sync.g_completionPercent g <= 100
          /\ 0 <= Sync.ts_done (Sync.g_taskStats g) <= Sync.ts_total (Sync.g_taskStats g)
          /\ 0 <= Sync.ts_inProgress (Sync.g_taskStats g)
               <= Sync.ts_total (Sync.g_taskStats g)
          /\ 0 <= Sync.ts_todo (Sync.g_taskStats g) <= Sync.ts_total (Sync.g_taskStats g)).
Proof.
  assert (A : forall ts : list Task,
    exists pr,
      calculate_goal_progress ts = Some pr
      /\ 0 <= done pr <= total pr
      /\ 0 <= inProgress pr <= total pr
      /\ 0 <= todo pr <= total pr
      /\ 0 <= percent pr <= 100).
  { intros [|t ts].
    - eexists; split; [reflexivity|]. cbn [done inProgress todo total percent]. lia.
    - destruct (calculate_goal_progress_cons t ts) as (p & _ & Hr & E).
      eexists; split; [exact E|]. cbn [done inProgress todo total percent].
      pose proof (count_status_range StatusMapper.Done (t :: ts)).
      pose proof (count_status_range StatusMapper.InProgress (t :: ts)).
      pose proof (count_partition (t :: ts)).
      lia. }
  split; [exact A|].
  intros mapper stored tasks existing_data goal_data.
  unfold Sync.build_record.
  match goal with
  | |- context [calculate_goal_progress ?l] => destruct (A l) as (pr & -> & B)
  end.
  eexists; split; [reflexivity|].
  cbn [Sync.g_completionPercent Sync.g_taskStats Sync.ts_done Sync.ts_inProgress
       Sync.ts_todo Sync.ts_total].
  tauto.
Qed.

(** X6.  For a non-empty task list: when every task has status "Done" the
    percentage is 100, and when no task has status "Done" it is 0, for any
    number of tasks (the binary64 quotient is then exactly 1.0 or 0.0). *)
Theorem calculate_goal_progress_extremes (ts : list Task) :
  ts <> [] ->
  exists pr,
    calculate_goal_progress ts = Some pr
    /\ ((forall t, In t ts -> status t = StatusMapper.Done) ->
        percent pr = 100 /\ done pr = total pr)
    /\ ((forall t, In t ts -> status t <> StatusMapper.Done) ->
        percent pr = 0 /\ done pr = 0).
Proof.
  intros Hne. destruct ts as [|t ts]; [congruence|].
  destruct (calculate_goal_progress_cons t ts) as (p & Hp & _ & E).
  eexists; split; [exact E|]. cbn [done total percent].
  split; intros H.
  - apply count_status_all in H. rewrite H in Hp |- *.
    cbn [List.length] in Hp. rewrite Nat2Z.inj_succ in Hp.
    destruct (Z.succ (Z.of_nat (List.length ts))) as [|n|n] eqn:N; try lia.
    rewrite percent_of_all in Hp. split; [congruence|reflexivity].
  - apply count_status_none in H. rewrite H in Hp |- *.
    cbn [List.length] in Hp. rewrite Nat2Z.inj_succ in Hp.
    destruct (Z.succ (Z.of_nat (List.length ts))) as [|n|n] eqn:N; try lia.
    rewrite percent_of_none in Hp. split; [congruence|reflexivity].
Qed.

Lemma calculate_goal_progress_extremes_witness :
  let ts := map task_with_status [StatusMapper.Done; StatusMapper.Done] in
  ts <> [] /\
  exists pr,
    calculate_goal_progress ts = Some pr /\ percent pr = 100.
Proof.
  intros ts. split; [discriminate|].
  destruct (@calculate_goal_progress_extremes ts ltac:(discriminate))
    as (pr & E & H & _).
  exists pr. split; [exact E|]. apply H.
  intros t [<-|[<-|[]]]; reflexivity.
Defined.




End ProgressBounds.

(** ** Which tasks a goal record lists and counts *)

Section Attachment.
Import JiraParser Sync LabelSpec AttachSpec.
Variable R : runtime.
Hypothesis Ok : set_order_ok R.

Lemma matches_some_single tag label :
  matches_some R [tag] label <-> loose_match R label tag.
Proof.
  unfold matches_some. split.
  - intros (t & [<-|[]] & [E|L]); [now apply exact_is_loose|exact L].
  - intros L. exists tag. split; [now left|now right].
Qed.

(** The test of the inner loop of [build_sprint_data], for either mapper. *)
Lemma single_tag_test (d : GoalDeclaration) (t : Task) :
  match map_task_to_goal R (labels t) [d] with
  | Some task_tag => pystr_eqb task_tag (d_tag d)
  | None => false
  end = attached R d t.
Proof.
  unfold map_task_to_goal, attached. cbn [map].
  rewrite (@set_order_singleton R (lower R (d_tag d)) Ok).
  destruct (match_labels R [lower R (d_tag d)] (labels t)) as [x|] eqn:M.
  - destruct (@match_labels_some R _ _ _ M) as ([<-|[]] & pre & label & post & E & _ & H).
    destruct (pystr_eqb (lower R (d_tag d)) (d_tag d)) eqn:T; [|reflexivity].
    apply pystr_eqb_eq in T. cbn [andb]. symmetry.
    apply existsb_exists. exists label. split.
    + rewrite E. apply in_or_app. right. now left.
    + apply pystr_eqb_eq. rewrite <- T.
      destruct H as [H|[_ H]]; [now apply exact_is_loose|exact H].
  - destruct (pystr_eqb (lower R (d_tag d)) (d_tag d)) eqn:T; [|reflexivity].
    apply pystr_eqb_eq in T. cbn [andb]. symmetry.
    apply not_true_is_false. intros H.
    apply existsb_exists in H as (label & Hl & E). apply pystr_eqb_eq in E.
    apply (proj1 (@match_labels_none R _ _) M label Hl).
    apply matches_some_single. unfold loose_match. now rewrite T.
Qed.

Lemma filter_nothing {A} (f : A -> bool) (l : list A) :
  (forall x, f x = false) -> filter f l = [].
Proof.
  intros H. induction l as [|a l IH]; [reflexivity|].
  cbn [filter]. now rewrite H.
Qed.

Lemma filter_key_in_superset (f : Task -> bool) (tasks : list Task) :
  (List.length (filter f tasks)
   <= List.length
        (filter (fun t => existsb (pystr_eqb (key t)) (map key (filter f tasks)))
                tasks))%nat.
Proof.
  set (ks := map key (filter f tasks)).
  assert (H : forall t, In t tasks -> f t = true ->
                        existsb (pystr_eqb (key t)) ks = true).
  { intros t Ht Hf. apply existsb_pystr_eqb. unfold ks.
    apply in_map, filter_In. now split. }
  clearbody ks. induction tasks as [|t ts IH]; cbn [filter]; [lia|].
  destruct (f t) eqn:F.
  - rewrite (H t (or_introl eq_refl) F). cbn [List.length].
    apply le_n_S, IH. intros u Hu. apply H. now right.
  - destruct (existsb (pystr_eqb (key t)) ks); cbn [List.length];
      [apply Nat.le_le_succ_r|]; apply IH; intros u Hu; apply H; now right.
Qed.

Lemma filter_key_in_same (f : Task -> bool) (tasks : list Task) :
  NoDup (map key tasks) ->
  filter (fun t => existsb (pystr_eqb (key t)) (map key (filter f tasks))) tasks
  = filter f tasks.
Proof.
  intros ND. apply filter_ext_in. intros t Ht.
  destruct (f t) eqn:F.
  - apply existsb_pystr_eqb, in_map, filter_In. now split.
  - apply not_true_is_false. intros H.
    apply existsb_pystr_eqb, in_map_iff in H as (u & Ku & Hu).
    apply filter_In in Hu as [Hu Fu].
    assert (u = t); [|congruence].
    clear F Fu. induction tasks as [|a l IH]; [destruct Ht|].
    cbn [map] in ND. inversion ND as [|? ? Na Nl]; subst.
    destruct Ht as [->|Ht], Hu as [->|Hu]; auto.
    + exfalso. apply Na. rewrite <- Ku. now apply in_map.
    + exfalso. apply Na. rewrite Ku. now apply in_map.
Qed.

(** X8.  For any iteration order of a Python set, a goal record lists the
    keys of exactly those tasks, in task order, that carry a label equal to
    the goal's tag up to case, hyphens, underscores and white space,
    provided that lower-casing leaves the tag unchanged; a goal whose tag
    changes under [lower()] (a configured prefix such as "Cel") lists no
    task at all, has total 0 and is never completed.  Both mappers give the
    same record. *)
Theorem build_record_attaches_by_label
    (stored : option (list ExistingGoal)) (tasks : list Task)
    (existing_data : option ExistingData) (d : GoalDeclaration) :
  exists g,
    build_record (map_task_to_goal R) stored tasks existing_data d = Some g
    /\ build_record (map_task_to_side_goal R) stored tasks existing_data d = Some g
    /\ g_tasks g = map key (filter (attached R d) tasks)
    /\ (lower R (d_tag d) <> d_tag d ->
        g_tasks g = [] /\ ts_total (g_taskStats g) = 0%Z
        /\ g_completionPercent g = 0%Z /\ g_completed g = false).
Proof.
  assert (F : filter (fun task =>
                 match map_task_to_goal R (labels task) [d] with
                 | Some task_tag => pystr_eqb task_tag (d_tag d)
                 | None => false
                 end) tasks = filter (attached R d) tasks).
  { apply filter_ext. intros t. apply single_tag_test. }
  destruct (@build_record_total (map_task_to_goal R) stored tasks existing_data d)
    as (g & E & _).
  exists g. split; [exact E|]. split; [exact E|].
  revert E. unfold build_record. rewrite F.
  destruct (calculate_goal_progress _) as [pr|] eqn:P; [|discriminate].
  intros [= <-]. cbn [g_tasks g_taskStats ts_total g_completionPercent g_completed].
  split; [reflexivity|].
  intros T.
  assert (N : filter (attached R d) tasks = []).
  { apply filter_nothing. intros t. unfold attached.
    apply pystr_eqb_neq in T. now rewrite T. }
  rewrite N in P |- *. cbn [map existsb] in P.
  rewrite (@filter_nothing Task (fun _ => false) tasks (fun _ => eq_refl)) in P.
  cbn in P. injection P as <-. repeat split.
Qed.

(** X9.  The total of a goal's [taskStats] counts the tasks whose key is
    among the listed keys, so it is never below the number of listed keys,
    and it equals that number when the keys of the tasks are pairwise
    distinct; with two tasks of the same key of which one carries the
    label, one key is listed and two tasks are counted. *)
Theorem build_record_counts_by_key :
  (forall mapper stored tasks existing_data d g,
      build_record mapper stored tasks existing_data d = Some g ->
      (Z.of_nat (List.length (g_tasks g)) <= ts_total (g_taskStats g))%Z
      /\ (NoDup (map key tasks) ->
          ts_total (g_taskStats g) = Z.of_nat (List.length (g_tasks g))))
  /\ (exists g,
        build_record (map_task_to_goal ascii_runtime) None twin_tasks None
          (goal_with_tag (py "cel1")) = Some g
        /\ g_tasks g = [py "PRJ-1"]
        /\ ts_total (g_taskStats g) = 2%Z
        /\ g_completionPercent g = 50%Z).
Proof.
  split.
  - intros mapper stored tasks existing_data d g. unfold build_record.
    set (f := fun task : Task =>
                match mapper (labels task) [d] with
                | Some task_tag => pystr_eqb task_tag (d_tag d)
                | None => false
                end).
    pose proof (filter_key_in_superset f tasks) as L.
    pose proof (@filter_key_in_same f tasks) as S.
    destruct (filter (fun t => existsb (pystr_eqb (key t)) (map key (filter f tasks)))
                tasks) as [|t ts] eqn:C.
    + cbn [List.length] in L.
      cbn. intros [= <-]. cbn [g_tasks g_taskStats ts_total].
      rewrite length_map. split; [lia|]. intros ND. now rewrite <- (S ND).
    + cbn [List.length] in L.
      destruct (calculate_goal_progress_cons t ts) as (p & _ & _ & ->).
      intros [= <-]. cbn [g_tasks g_taskStats ts_total total List.length].
      rewrite length_map. split; [lia|]. intros ND. now rewrite <- (S ND).
  - eexists. split; [vm_compute; reflexivity|]. repeat split.
Qed.

End Attachment.

Lemma build_record_attaches_by_label_witness :
  set_order_ok ascii_runtime
  /\ exists g,
       Sync.build_record (JiraParser.map_task_to_goal ascii_runtime) None
         AttachSpec.twin_tasks None (LabelSpec.goal_with_tag (py "Cel1")) = Some g
       /\ Sync.g_tasks g = [].
Proof.
  split; [exact ascii_runtime_set_order_ok|].
  destruct (@build_record_attaches_by_label ascii_runtime ascii_runtime_set_order_ok
              None AttachSpec.twin_tasks None (LabelSpec.goal_with_tag (py "Cel1")))
    as (g & E & _ & _ & H).
  exists g. split; [exact E|].
  apply H. intros X. vm_compute in X. discriminate X.
Defined.

(** ** The record a run builds: header fields and a second build *)

Section BuildFacts.
Import JiraParser Sync Storage ParserSpec.
Variable R : runtime.

Lemma number_ids_distinct prefix ls n : NoDup (map d_id (number R prefix n ls)).
Proof.
  rewrite number_ids. apply NoDup_map_injective; [intros; lia|apply seq_NoDup].
Qed.

Lemma parsed_ids_distinct description goal_prefix side_goal_prefix :
  let r := parse_sprint_description R description goal_prefix side_goal_prefix in
  NoDup (map d_id (goals r)) /\ NoDup (map d_id (sideGoals r)).
Proof.
  intros r.
  destruct (parse_sprint_description_select R goal_prefix side_goal_prefix description)
    as [Eg Es].
  fold r in Eg, Es. rewrite Eg, Es. split; apply number_ids_distinct.
Qed.

Lemma build_record_id mapper stored tasks existing_data d g :
  build_record mapper stored tasks existing_data d = Some g -> g_id g = d_id d.
Proof.
  unfold build_record. destruct (calculate_goal_progress _); [|discriminate].
  now intros [= <-].
Qed.

(** Only the comments of a record depend on the stored data. *)
Lemma build_record_again mapper stored tasks existing_data stored' existing_data' d g :
  build_record mapper stored tasks existing_data d = Some g ->
  existing_comments_for stored' existing_data' (d_id d) = g_comments g ->
  build_record mapper stored' tasks existing_data' d = Some g.
Proof.
  unfold build_record. destruct (calculate_goal_progress _); [|discriminate].
  intros [= <-]. cbn [g_comments]. now intros ->.
Qed.

Lemma build_records_ids f decls : forall gs,
  (forall d g, f d = Some g -> g_id g = d_id d) ->
  build_records f decls = Some gs -> map g_id gs = map d_id decls.
Proof.
  induction decls as [|d decls IH]; intros gs Hf; cbn [build_records].
  - now intros [= <-].
  - destruct (f d) as [g|] eqn:E; [|discriminate].
    destruct (build_records f decls) as [gs'|]; [|discriminate].
    intros [= <-]. cbn [map]. f_equal; [now apply Hf|now apply IH].
Qed.

Lemma build_records_again mapper stored tasks existing_data stored' existing_data' decls :
  forall gs,
  build_records (build_record mapper stored tasks existing_data) decls = Some gs ->
  (forall g, In g gs ->
     existing_comments_for stored' existing_data' (g_id g) = g_comments g) ->
  build_records (build_record mapper stored' tasks existing_data') decls = Some gs.
Proof.
  induction decls as [|d decls IH]; intros gs; cbn [build_records].
  - now intros [= <-].
  - destruct (build_record mapper stored tasks existing_data d) as [g|] eqn:E;
      [|discriminate].
    destruct (build_records _ decls) as [gs'|]; [|discriminate].
    intros [= <-] H.
    rewrite (@build_record_again mapper stored tasks existing_data
               stored' existing_data' d g E).
    + rewrite (IH gs' eq_refl); [reflexivity|]. intros x Hx. apply H. now right.
    + rewrite <- (@build_record_id mapper stored tasks existing_data d g E). apply H. now left.
Qed.

Lemma find_stored_goal gs g :
  NoDup (map g_id gs) -> In g gs ->
  find (fun e => (eg_id e =? g_id g)%Z) (map stored_goal gs) = Some (stored_goal g).
Proof.
  induction gs as [|a l IH]; intros ND Hg; [destruct Hg|].
  cbn [map] in ND. inversion ND as [|? ? Na Nl]; subst.
  cbn [map find stored_goal eg_id].
  destruct Hg as [->|Hg]; [now rewrite Z.eqb_refl|].
  destruct (Z.eqb_spec (g_id a) (g_id g)) as [E|_].
  - exfalso. apply Na. rewrite E. now apply in_map.
  - now apply IH.
Qed.

Lemma comments_read_back gs existing_data g :
  NoDup (map g_id gs) -> In g gs ->
  existing_comments_for (Some (map stored_goal gs)) (Some existing_data) (g_id g)
  = g_comments g.
Proof.
  intros ND Hg. unfold existing_comments_for. cbn [get_or].
  now rewrite (@find_stored_goal gs g ND Hg).
Qed.

Lemma split_on_hd sep s :
  ~ In sep (hd [] (split_on sep s))
  /\ exists rest,
       s = hd [] (split_on sep s) ++ rest
       /\ (rest = [] \/ exists r, rest = sep :: r).
Proof.
  induction s as [|c r [IH1 (rest & IH2 & IH3)]]; cbn [split_on].
  - split; [intros []|]. exists []. split; [reflexivity|now left].
  - destruct (N.eqb_spec c sep) as [->|Ne]; cbn [hd].
    + split; [intros []|]. exists (sep :: r). split; [reflexivity|right; eauto].
    + destruct (split_on sep r) as [|l ls]; cbn [hd] in *.
      * split; [intros [E|[]]; congruence|]. exists rest.
        split; [cbn [app] in *; now rewrite <- IH2|exact IH3].
      * split; [intros [E|E]; [congruence|now apply IH1]|].
        exists rest. split; [cbn [app]; now rewrite <- IH2|exact IH3].
Qed.

(** The date is cut before its first 'T': what is cut off is empty or
    begins with 'T', and what is left holds no 'T'. *)
Lemma date_part_spec d :
  ~ In 84%N (date_part d)
  /\ exists rest,
       d = date_part d ++ rest /\ (rest = [] \/ exists r, rest = 84%N :: r).
Proof.
  unfold date_part. destruct d as [|c r]; cbn [nonempty].
  - split; [intros []|]. exists []. split; [reflexivity|now left].
  - apply split_on_hd.
Qed.

Lemma rstrip_char_spec ch s :
  (forall t, rstrip_char ch s <> t ++ [ch])
  /\ exists n, s = rstrip_char ch s ++ repeat ch n.
Proof.
  unfold rstrip_char. split.
  - intros t E. apply (f_equal (@rev N)) in E.
    rewrite rev_involutive, rev_app_distr in E. cbn [rev app] in E.
    pose proof (drop_while_head (N.eqb ch) (rev s)) as H. rewrite E in H.
    rewrite N.eqb_refl in H. discriminate.
  - assert (G : forall u, exists n,
                rev u = rev (drop_while (N.eqb ch) u) ++ repeat ch n).
    { induction u as [|c u (n & IH)]; [now exists 0%nat|].
      cbn [drop_while]. destruct (N.eqb_spec ch c) as [<-|Ne].
      + exists (S n). cbn [rev]. rewrite IH, <- app_assoc. f_equal.
        change (repeat ch n ++ [ch]) with (repeat ch n ++ repeat ch 1).
        rewrite <- repeat_app. f_equal. lia.
      + exists 0%nat. now rewrite app_nil_r. }
    destruct (G (rev s)) as (n & E). rewrite rev_involutive in E. now exists n.
Qed.

(** The record is rebuilt as it was from any stored data that holds its
    goals, side goals and kept fields. *)
Lemma build_sprint_data_again
    (env : Environ) (sprint : RawSprint) (tasks : list Task)
    (existing_data : option ExistingData)
    (goal_prefix side_goal_prefix : pystr) (out : StoredSprint)
    (stored : ExistingData) :
  build_sprint_data R env sprint tasks existing_data goal_prefix side_goal_prefix
    = Some out ->
  ex_goals stored = Some (map stored_goal (s_goals out)) ->
  ex_sideGoals stored = Some (map stored_goal (s_sideGoals out)) ->
  get_or (ex_achievements stored) [] = s_achievements out ->
  get_or (ex_nextSprintPlans stored) [] = s_nextSprintPlans out ->
  ex_closedAt stored = s_closedAt out ->
  build_sprint_data R env sprint tasks (Some stored)
    goal_prefix side_goal_prefix = Some out.
Proof.
  unfold build_sprint_data.
  destruct (parsed_ids_distinct (get_or (rs_goal sprint) []) goal_prefix side_goal_prefix)
    as [Ng Ns].
  set (parsed := parse_sprint_description R _ _ _) in *.
  destruct (build_records _ (goals parsed)) as [gs|] eqn:Eg; [|discriminate].
  destruct (build_records _ (sideGoals parsed)) as [ss|] eqn:Es; [|discriminate].
  intros [= <-].
  cbn [s_goals s_sideGoals s_achievements s_nextSprintPlans s_closedAt].
  intros -> -> -> -> ->.
  rewrite (@build_records_again (map_task_to_goal R) _ tasks existing_data
             (Some (map stored_goal gs)) (Some stored) (goals parsed) gs Eg).
  - rewrite (@build_records_again (map_task_to_side_goal R) _ tasks existing_data
               (Some (map stored_goal ss)) (Some stored) (sideGoals parsed) ss Es).
    + reflexivity.
    + intros g Hg. apply comments_read_back; [|exact Hg].
      rewrite (@build_records_ids _ (sideGoals parsed) ss
                 (fun d g => @build_record_id _ _ _ _ d g) Es).
      exact Ns.
  - intros g Hg. apply comments_read_back; [|exact Hg].
    rewrite (@build_records_ids _ (goals parsed) gs
               (fun d g => @build_record_id _ _ _ _ d g) Eg).
    exact Ng.
Qed.

(** [build_sprint_data] never raises; the fields that do not come from the
    two loops. *)
Lemma build_sprint_data_defined
    (env : Environ) (sprint : RawSprint) (tasks : list Task)
    (existing_data : option ExistingData)
    (goal_prefix side_goal_prefix : pystr) :
  exists out,
    build_sprint_data R env sprint tasks existing_data goal_prefix side_goal_prefix
      = Some out
    /\ s_id out = rs_id sprint
    /\ s_tasks out = tasks
    /\ s_status out =
         (if pystr_eqb (lower R (get_or (rs_state sprint) [])) (py "closed")
          then py "closed" else py "active")
    /\ s_startDate out = date_part (get_or (rs_startDate sprint) [])
    /\ s_endDate out = date_part (get_or (rs_endDate sprint) [])
    /\ s_jiraBaseUrl out = rstrip_char 47 (get_or (JIRA_URL env) [])
    /\ exists rest, s_jiraTimelineUrl out = s_jiraBaseUrl out ++ rest.
Proof.
  unfold build_sprint_data.
  set (parsed := parse_sprint_description R _ _ _).
  destruct (@build_records_total
              (build_record (map_task_to_goal R)
                 (match existing_data with Some e => ex_goals e | None => None end)
                 tasks existing_data)
              (fun _ _ => True) (goals parsed)) as (gs & -> & _).
  { intros d. destruct (@build_record_total (map_task_to_goal R)
                          (match existing_data with Some e => ex_goals e | None => None end)
                          tasks existing_data d) as (g & E & _). eauto. }
  destruct (@build_records_total
              (build_record (map_task_to_side_goal R)
                 (match existing_data with Some e => ex_sideGoals e | None => None end)
                 tasks existing_data)
              (fun _ _ => True) (sideGoals parsed)) as (ss & -> & _).
  { intros d. destruct (@build_record_total (map_task_to_side_goal R)
                          (match existing_data with Some e => ex_sideGoals e | None => None end)
                          tasks existing_data d) as (g & E & _). eauto. }
  eexists. split; [reflexivity|].
  cbn [s_id s_tasks s_status s_startDate s_endDate s_jiraBaseUrl s_jiraTimelineUrl].
  repeat (split; [reflexivity|]). eexists. reflexivity.
Qed.

(** X10.  Building again from the record that was written, with the
    sprint, the tasks and the environment unchanged, gives the same record:
    the ids of a section are pairwise distinct, so every goal finds its own
    comments, and the other kept fields are read back as written. *)
Theorem build_sprint_data_idempotent
    (env : Environ) (sprint : RawSprint) (tasks : list Task)
    (existing_data : option ExistingData)
    (goal_prefix side_goal_prefix : pystr) (out : StoredSprint) :
  build_sprint_data R env sprint tasks existing_data goal_prefix side_goal_prefix
    = Some out ->
  build_sprint_data R env sprint tasks (Some (read_back out))
    goal_prefix side_goal_prefix = Some out.
Proof.
  intros E.
  apply (@build_sprint_data_again env sprint tasks existing_data
           goal_prefix side_goal_prefix out (read_back out) E); reflexivity.
Qed.

(** X11.  In the record that is built, the id and the tasks are those
    given, the status is "closed" exactly when the tracker's state is
    "closed" up to case and "active" otherwise, each date is the tracker's
    date cut before its first 'T' (it holds no 'T', and what follows it in
    the tracker's date is empty or begins with 'T'; a missing date gives
    the empty string), the base URL is [JIRA_URL] without its trailing
    slashes, and the timeline URL starts with the base URL. *)
Theorem build_sprint_data_header
    (env : Environ) (sprint : RawSprint) (tasks : list Task)
    (existing_data : option ExistingData)
    (goal_prefix side_goal_prefix : pystr) :
  exists out,
    build_sprint_data R env sprint tasks existing_data goal_prefix side_goal_prefix
      = Some out
    /\ s_id out = rs_id sprint
    /\ s_tasks out = tasks
    /\ (s_status out = py "closed" \/ s_status out = py "active")
    /\ (s_status out = py "closed"
        <-> lower R (get_or (rs_state sprint) []) = py "closed")
    /\ ~ In 84%N (s_startDate out)
    /\ ~ In 84%N (s_endDate out)
    /\ (exists rest,
          get_or (rs_startDate sprint) [] = s_startDate out ++ rest
          /\ (rest = [] \/ exists r, rest = 84%N :: r))
    /\ (exists rest,
          get_or (rs_endDate sprint) [] = s_endDate out ++ rest
          /\ (rest = [] \/ exists r, rest = 84%N :: r))
    /\ (forall t, s_jiraBaseUrl out <> t ++ [47%N])
    /\ (exists n, get_or (JIRA_URL env) [] = s_jiraBaseUrl out ++ repeat 47%N n)
    /\ (exists rest, s_jiraTimelineUrl out = s_jiraBaseUrl out ++ rest).
Proof.
  destruct (build_sprint_data_defined env sprint tasks existing_data
              goal_prefix side_goal_prefix)
    as (out & E & Hid & Ht & Hs & Hsd & Hed & Hu & Htl).
  exists out. split; [exact E|]. split; [exact Hid|]. split; [exact Ht|].
  rewrite Hs, Hsd, Hed, Hu.
  split; [destruct (pystr_eqb _ _); auto|].
  split.
  { destruct (pystr_eqb _ (py "closed")) eqn:C.
    - apply pystr_eqb_eq in C. tauto.
    - apply pystr_eqb_neq in C. split; [discriminate|tauto]. }
  split; [apply date_part_spec|]. split; [apply date_part_spec|].
  split; [apply date_part_spec|]. split; [apply date_part_spec|].
  split; [apply rstrip_char_spec|]. split; [apply rstrip_char_spec|].
  rewrite <- Hu. exact Htl.
Qed.

End BuildFacts.

Lemma build_sprint_data_idempotent_witness :
  let build := fun e =>
    Sync.build_sprint_data ascii_runtime SyncSpec.no_environ SyncSpec.sprint7 []
      e (py "cel") (py "extra") in
  exists out,
    build (Some (SyncSpec.record_with_status (py "active"))) = Some out
    /\ build (Some (Storage.read_back out)) = Some out
    /\ map Sync.g_comments (Sync.s_goals out) = [[Sync.JString (py "note")]].
Proof.
  intros build.
  destruct (build (Some (SyncSpec.record_with_status (py "active")))) as [out|] eqn:E;
    [|vm_compute in E; discriminate E].
  exists out. split; [reflexivity|]. split.
  - exact (@build_sprint_data_idempotent ascii_runtime SyncSpec.no_environ
             SyncSpec.sprint7 [] (Some (SyncSpec.record_with_status (py "active")))
             (py "cel") (py "extra") out E).
  - vm_compute in E. injection E as <-. reflexivity.
Defined.

(** ** Runs of the two scripts *)

Section RunFacts.
Import JiraParser Sync Storage RunSpec.
Variable R : runtime.

Lemma select_sprint_cases arg client :
  (exists sprint, select_sprint arg client = ret sprint)
  \/ (select_sprint arg client = stop (Exit 0)
      /\ sprint_id_given arg = None /\ get_active_sprint client = None)
  \/ (select_sprint arg client = stop (Exit 1)
      /\ exists n, sprint_id_given arg = Some n /\ get_sprint client n = None).
Proof.
  unfold select_sprint.
  destruct (sprint_id_given arg) as [n|].
  - destruct (get_sprint client n) eqn:E; [left; eauto|].
    right; right. split; [reflexivity|]. now exists n.
  - destruct (get_active_sprint client); [left; eauto|].
    right; left. now repeat split.
Qed.

(** A run of [sync_jira.py] once the sprint is selected. *)
Lemma sync_jira_main_selected env arg client data_dir sprint :
  select_sprint arg client = ret sprint ->
  let existing := SyncJira.sprint_file data_dir (rs_id sprint) in
  exists data,
    build_sprint_data R env sprint
      (transform_issues R (get_sprint_issues client (rs_id sprint)) [] client)
      existing (goal_prefix_of data_dir) (side_goal_prefix_of data_dir) = Some data
    /\ s_id data = rs_id sprint
    /\ s_status data =
         (if pystr_eqb (lower R (get_or (rs_state sprint) [])) (py "closed")
          then py "closed" else py "active")
    /\ SyncJira.main R env arg client data_dir =
         if closed_locally existing then ([], Exit 0)
         else (sync_events sprint existing data (is_active R sprint), Returned).
Proof.
  intros S existing.
  destruct (build_sprint_data_defined R env sprint
              (transform_issues R (get_sprint_issues client (rs_id sprint)) [] client)
              existing (goal_prefix_of data_dir) (side_goal_prefix_of data_dir))
    as (data & E & Hid & _ & Hs & _).
  exists data. split; [exact E|]. split; [exact Hid|]. split; [exact Hs|].
  unfold SyncJira.main. rewrite S. unfold ret at 1. cbn [bind].
  fold existing. destruct (closed_locally existing); [reflexivity|].
  fold (goal_prefix_of data_dir) (side_goal_prefix_of data_dir).
  rewrite E, Hid. reflexivity.
Qed.

(** X12.  A run of [sync_jira.py] never ends by an exception of the
    modelled code; it exits with status 1 exactly when a sprint id was given
    and the tracker has no such sprint; and it either writes nothing or
    builds once, writes the file of the selected sprint and then the pointer
    to that same sprint, and returns. *)
Theorem sync_jira_main_outcomes
    (env : Environ) (sprint_id_arg : option Z) (client : JiraClient)
    (data_dir : SyncJira.DataDir) :
  let r := SyncJira.main R env sprint_id_arg client data_dir in
  snd r <> Raised
  /\ (snd r = Exit 1 <->
      exists n, sprint_id_given sprint_id_arg = Some n /\ get_sprint client n = None)
  /\ ((fst r = [] /\ exists code, snd r = Exit code)
      \/ exists sprint data,
           select_sprint sprint_id_arg client = ret sprint
           /\ closed_locally (SyncJira.sprint_file data_dir (rs_id sprint)) = false
           /\ build_sprint_data R env sprint
                (transform_issues R (get_sprint_issues client (rs_id sprint)) [] client)
                (SyncJira.sprint_file data_dir (rs_id sprint))
                (goal_prefix_of data_dir) (side_goal_prefix_of data_dir) = Some data
           /\ s_id data = rs_id sprint
           /\ r = (sync_events sprint (SyncJira.sprint_file data_dir (rs_id sprint))
                     data (is_active R sprint), Returned)).
Proof.
  intros r.
  destruct (select_sprint_cases sprint_id_arg client)
    as [[sprint S]|[(S & A & B)|(S & n & A & B)]].
  - destruct (sync_jira_main_selected env sprint_id_arg client data_dir S)
      as (data & E & Hid & _ & M).
    fold r in M. cbv zeta in E.
    assert (N : sprint_id_given sprint_id_arg = None
                \/ exists n s, sprint_id_given sprint_id_arg = Some n
                               /\ get_sprint client n = Some s).
    { unfold select_sprint in S. destruct (sprint_id_given sprint_id_arg) as [n|];
        [|now left]. destruct (get_sprint client n) eqn:G; [|discriminate].
      right. eauto. }
    destruct (closed_locally _) eqn:C; rewrite M; cbn [fst snd].
    + split; [discriminate|]. split.
      * split; [discriminate|]. intros (n & A & B).
        destruct N as [N|(n' & s & N & G)]; congruence.
      * left. split; [reflexivity|]. now exists 0%Z.
    + split; [discriminate|]. split.
      * split; [discriminate|]. intros (n & A & B).
        destruct N as [N|(n' & s & N & G)]; congruence.
      * right. exists sprint, data. auto.
  - assert (M : r = ([], Exit 0)) by (unfold r, SyncJira.main; now rewrite S).
    rewrite M; cbn [fst snd]. split; [discriminate|]. split.
    + split; [discriminate|]. intros (n & A' & _). congruence.
    + left. split; [reflexivity|]. now exists 0%Z.
  - assert (M : r = ([], Exit 1)) by (unfold r, SyncJira.main; now rewrite S).
    rewrite M; cbn [fst snd]. split; [discriminate|]. split.
    + split; [now exists n|reflexivity].
    + left. split; [reflexivity|]. now exists 1%Z.
Qed.

(** X13.  When a run of [sync_jira.py] synchronises a sprint, a second run
    over the directory it left, with the tracker unchanged, does nothing and
    exits with status 0 if the tracker reports the sprint as closed, and
    otherwise writes the very same sprint record again. *)
Theorem sync_jira_second_run
    (env : Environ) (sprint_id_arg : option Z) (client : JiraClient)
    (data_dir : SyncJira.DataDir) (sprint : RawSprint) :
  select_sprint sprint_id_arg client = ret sprint ->
  closed_locally (SyncJira.sprint_file data_dir (rs_id sprint)) = false ->
  exists data,
    let first := SyncJira.main R env sprint_id_arg client data_dir in
    let second :=
      SyncJira.main R env sprint_id_arg client (after_writes data_dir (fst first)) in
    first = (sync_events sprint (SyncJira.sprint_file data_dir (rs_id sprint))
               data (is_active R sprint), Returned)
    /\ second =
         if pystr_eqb (lower R (get_or (rs_state sprint) [])) (py "closed")
         then ([], Exit 0)
         else (sync_events sprint (Some (read_back data)) data (is_active R sprint),
               Returned).
Proof.
  intros S C.
  destruct (sync_jira_main_selected env sprint_id_arg client data_dir S)
    as (data & E & Hid & Hs & M).
  cbv zeta in M. rewrite C in M.
  exists data. cbv zeta. rewrite M. split; [reflexivity|].
  cbn [fst sync_events after_writes].
  set (dir' := {| SyncJira.sprint_file := _; SyncJira.config_labels := _ |}).
  destruct (sync_jira_main_selected env sprint_id_arg client dir' S)
    as (data' & E' & _ & _ & M').
  cbv zeta in M', E'.
  assert (F : SyncJira.sprint_file dir' (rs_id sprint) = Some (read_back data)).
  { unfold dir'. cbn [SyncJira.sprint_file]. now rewrite Z.eqb_refl. }
  rewrite F in M', E'.
  change (goal_prefix_of dir') with (goal_prefix_of data_dir) in E'.
  change (side_goal_prefix_of dir') with (side_goal_prefix_of data_dir) in E'.
  rewrite (@build_sprint_data_again R _ _ _ _ _ _ _ (read_back data) E
             eq_refl eq_refl eq_refl eq_refl eq_refl) in E'. injection E' as <-.
  rewrite M'. cbn [closed_locally read_back ex_status]. rewrite Hs.
  destruct (pystr_eqb (lower R _) (py "closed")); reflexivity.
Qed.

(** X14.  A run of [sync_jira_to_repo.py] never ends by an exception of
    the modelled code; it requests the update of the pointer only after the
    repository accepted the sprint file of the same sprint; it returns
    normally only when both updates were accepted, and what it sent is what
    [build_sprint_data] gave for the transformed issues; and without a token
    or a connection it exits with status 1 and requests no update. *)
Theorem sync_jira_to_repo_main_outcomes
    (env : Environ) (sprint_id_arg : option Z) (jira_client : JiraClient)
    (repo_client : SyncJiraToRepo.RepoClient) :
  let r := SyncJiraToRepo.main R env sprint_id_arg jira_client repo_client in
  let sha id := option_map snd (SyncJiraToRepo.get_sprint_file repo_client id) in
  snd r <> Raised
  /\ (forall id active, In (WriteCurrentSprint id active) (fst r) ->
        exists data,
          In (WriteSprint id data) (fst r)
          /\ SyncJiraToRepo.update_sprint_ok repo_client id data (sha id) = true)
  /\ (snd r = Returned ->
        exists sprint data,
          fst r = sync_events sprint
                    (option_map fst
                       (SyncJiraToRepo.get_sprint_file repo_client (rs_id sprint)))
                    data (is_active R sprint)
          /\ build_sprint_data_repo R env sprint
               (transform_issues R (get_sprint_issues jira_client (rs_id sprint)) []
                  jira_client)
               (option_map fst
                  (SyncJiraToRepo.get_sprint_file repo_client (rs_id sprint)))
             = Some data
          /\ SyncJiraToRepo.update_sprint_ok repo_client (rs_id sprint) data
               (sha (rs_id sprint)) = true
          /\ SyncJiraToRepo.update_current_ok repo_client (rs_id sprint)
               (is_active R sprint) (SyncJiraToRepo.get_current_sha repo_client) = true)
  /\ (nonempty (SyncJiraToRepo.token repo_client) = false
      \/ SyncJiraToRepo.verify_connection repo_client = false ->
      r = ([], Exit 1)).
Proof.
  intros r sha. unfold r, SyncJiraToRepo.main.
  destruct (nonempty (SyncJiraToRepo.token repo_client)) eqn:T; cbn [negb];
    [|cbn; repeat split; try discriminate; try tauto; intros ? ? []].
  destruct (SyncJiraToRepo.verify_connection repo_client) eqn:V; cbn [negb];
    [|cbn; repeat split; try discriminate; try tauto; intros ? ? []].
  destruct (select_sprint_cases sprint_id_arg jira_client)
    as [[sprint S]|[(S & _)|(S & _)]]; rewrite S;
    [|cbn; repeat split; try discriminate; try tauto;
      try (intros ? ? []); intros [|]; discriminate ..].
  unfold ret at 2. cbn [bind ret app].
  destruct (closed_locally _) eqn:C;
    [cbn; repeat split; try discriminate; try (intros ? ? []);
     intros [|]; discriminate|].
  destruct (build_sprint_data_defined R env sprint
              (transform_issues R (get_sprint_issues jira_client (rs_id sprint)) []
                 jira_client)
              (option_map fst (SyncJiraToRepo.get_sprint_file repo_client (rs_id sprint)))
              default_goal_prefix default_side_goal_prefix)
    as (data & E & _).
  fold (build_sprint_data_repo R env sprint
          (transform_issues R (get_sprint_issues jira_client (rs_id sprint)) []
             jira_client)
          (option_map fst (SyncJiraToRepo.get_sprint_file repo_client (rs_id sprint))))
    in E.
  rewrite E.
  fold (sha (rs_id sprint)).
  destruct (SyncJiraToRepo.update_sprint_ok repo_client (rs_id sprint) data
              (sha (rs_id sprint))) eqn:U1; cbn [negb].
  - destruct (SyncJiraToRepo.update_current_ok repo_client (rs_id sprint)
                (is_active R sprint) (SyncJiraToRepo.get_current_sha repo_client))
      eqn:U2; cbn.
    + split; [discriminate|]. split.
      * intros id active [H|[H|[H|[]]]]; try discriminate. injection H as <- <-.
        exists data. split; [right; now left|exact U1].
      * split; [|intros [|]; discriminate]. intros _. exists sprint, data. auto.
    + split; [discriminate|]. split.
      * intros id active [H|[H|[H|[]]]]; try discriminate. injection H as <- <-.
        exists data. split; [right; now left|exact U1].
      * split; [discriminate|intros [|]; discriminate].
  - cbn. split; [discriminate|]. split.
    + intros id active [H|[H|[]]]; discriminate.
    + split; [discriminate|intros [|]; discriminate].
Qed.

End RunFacts.

Lemma sync_jira_second_run_witness :
  let dir := SyncSpec.dir_with (SyncSpec.record_with_status (py "active")) in
  Sync.select_sprint None SyncSpec.tracker = Sync.ret SyncSpec.sprint7
  /\ Sync.closed_locally (SyncJira.sprint_file dir 7%Z) = false
  /\ exists data,
       SyncJira.main ascii_runtime SyncSpec.no_environ None SyncSpec.tracker
         (Storage.after_writes dir
            (fst (SyncJira.main ascii_runtime SyncSpec.no_environ None
                    SyncSpec.tracker dir)))
       = (RunSpec.sync_events SyncSpec.sprint7 (Some (Storage.read_back data)) data true,
          Sync.Returned).
Proof.
  intros dir. split; [reflexivity|]. split; [reflexivity|].
  destruct (@sync_jira_second_run ascii_runtime SyncSpec.no_environ None
              SyncSpec.tracker dir SyncSpec.sprint7 eq_refl eq_refl)
    as (data & _ & Second).
  exists data. exact Second.
Defined.

(** ** The plans for the next sprint *)

Section PlansFacts.
Import NextSprintPlans PlansSpec.
Variable R : runtime.

Lemma startswith_app_l a b s : startswith (a ++ b) s = true -> startswith a s = true.
Proof.
  revert s. induction a as [|x a IH]; intros s; [reflexivity|].
  destruct s as [|y s]; cbn [app startswith]; [discriminate|].
  intros H. apply andb_true_iff in H as [-> H]. now apply IH.
Qed.

Lemma contains_app_l a b s : contains (a ++ b) s = true -> contains a s = true.
Proof.
  induction s as [|y s IH]; cbn [contains]; intros H;
    apply orb_true_iff in H as [H|H]; apply orb_true_iff.
  - left. now apply startswith_app_l with b.
  - discriminate.
  - left. now apply startswith_app_l with b.
  - right. now apply IH.
Qed.

(** A line that starts the section mentions one of the three words, so it
    never closes the section. *)
Lemma starts_plans_mentions lower_line :
  starts_plans lower_line = true -> mentions_next lower_line = true.
Proof.
  unfold starts_plans, mentions_next. cbn [existsb].
  intros H. apply orb_true_iff in H as [H|H]; [apply orb_true_iff in H as [H|H]|].
  - change kw_nastepny_sprint with (kw_nastepny ++ py " sprint") in H.
    now rewrite (contains_app_l _ _ _ H).
  - change kw_next_sprint with (kw_next ++ py " sprint") in H.
    rewrite (contains_app_l _ _ _ H). now rewrite orb_true_r.
  - rewrite H. now rewrite !orb_true_r.
Qed.

Lemma plans_loop_in_section rest : forall plans_lines,
  plans_loop R true plans_lines rest =
    plans_lines ++ filter (fun line => negb (starts R line)) (until_close R rest).
Proof.
  induction rest as [|line rest IH]; intros plans_lines;
    cbn [plans_loop until_close filter].
  - now rewrite app_nil_r.
  - cbv zeta. fold (starts R line). cbn [andb].
    destruct (starts R line) eqn:S.
    + assert (C : closes R line = false).
      { unfold closes. unfold starts in S.
        now rewrite (starts_plans_mentions _ S), andb_false_r. }
      rewrite C. cbn [filter]. rewrite S. cbn [negb]. apply IH.
    + fold (closes R line). destruct (closes R line); cbn [filter].
      * now rewrite app_nil_r.
      * rewrite S. cbn [negb]. rewrite IH, <- app_assoc. reflexivity.
Qed.

Lemma plans_loop_plans_of lines :
  plans_loop R false [] lines = plans_of R lines.
Proof.
  unfold plans_of. induction lines as [|line rest IH];
    cbn [plans_loop after_first_start]; [reflexivity|].
  cbv zeta. fold (starts R line). cbn [andb].
  destruct (starts R line); [|exact IH].
  now rewrite plans_loop_in_section.
Qed.

Lemma strip_head s :
  match strip R s with c :: _ => isspace R c = false | [] => True end.
Proof.
  unfold strip, lstrip.
  pose proof (drop_while_head (isspace R) s) as H.
  destruct (drop_while (isspace R) s) as [|c t]; [exact I|].
  rewrite rstrip_cons. unfold ClientSpec.blank. cbn [forallb]. rewrite H.
  cbn [andb]. exact H.
Qed.

(** X15.  The plans are the lines after the first line that contains
    "następny sprint", "next sprint" or "plany" (in any case), up to the
    first later line that begins with "##" or "**" and contains none of
    "następny", "next" and "plany", without the lines that contain a
    starting phrase again; they are joined by line feeds and trimmed, so
    the result neither begins nor ends with white space; an empty
    description gives the empty string. *)
Theorem extract_next_sprint_plans_spec (description : pystr) :
  extract_next_sprint_plans R description =
    strip R (join_lines (plans_of R (split_on LF (strip R description))))
  /\ extract_next_sprint_plans R [] = []
  /\ match extract_next_sprint_plans R description with
     | c :: _ => isspace R c = false
     | [] => True
     end
  /\ match rev (extract_next_sprint_plans R description) with
     | c :: _ => isspace R c = false
     | [] => True
     end.
Proof.
  assert (E : extract_next_sprint_plans R description =
              strip R (join_lines (plans_of R (split_on LF (strip R description))))).
  { unfold extract_next_sprint_plans. destruct description as [|c r].
    - reflexivity.
    - cbn [nonempty negb]. cbv zeta. now rewrite plans_loop_plans_of. }
  split; [exact E|]. split; [reflexivity|].
  rewrite E. split; [apply strip_head|apply strip_rev_head].
Qed.

(** X16.  When no line of the description contains one of the three
    starting phrases, the result is the empty string, whatever else the
    description holds. *)
Theorem extract_next_sprint_plans_without_start (description : pystr) :
  (forall line, In line (split_on LF (strip R description)) -> starts R line = false) ->
  extract_next_sprint_plans R description = [].
Proof.
  intros H. unfold extract_next_sprint_plans.
  destruct (negb (nonempty description)); [reflexivity|]. cbv zeta.
  rewrite plans_loop_plans_of. unfold plans_of.
  assert (A : after_first_start R (split_on LF (strip R description)) = None).
  { induction (split_on LF (strip R description)) as [|line rest IH];
      [reflexivity|].
    cbn [after_first_start]. rewrite (H line (or_introl eq_refl)).
    apply IH. intros l Hl. apply H. now right. }
  rewrite A. reflexivity.
Qed.

End PlansFacts.

Lemma extract_next_sprint_plans_without_start_witness :
  let description := py "## Cele" ++ [LF] ++ py "1. first" in
  (forall line, In line (split_on LF (strip ascii_runtime description)) ->
                PlansSpec.starts ascii_runtime line = false)
  /\ NextSprintPlans.extract_next_sprint_plans ascii_runtime description = [].
Proof.
  intros description.
  assert (H : forall line, In line (split_on LF (strip ascii_runtime description)) ->
                           PlansSpec.starts ascii_runtime line = false).
  { intros line [<-|[<-|[]]]; reflexivity. }
  split; [exact H|].
  exact (@extract_next_sprint_plans_without_start ascii_runtime description H).
Defined.

(** A header that mentions "next" inside the section does not close it and
    is kept among the plans; a later plain header closes it. *)
Example extract_next_sprint_plans_example :
  NextSprintPlans.extract_next_sprint_plans ascii_runtime
    (py "intro" ++ [LF] ++ py "## Plany" ++ [LF] ++ py "- a" ++ [LF]
     ++ py "## Next steps" ++ [LF] ++ py "- b" ++ [LF] ++ py "## Other" ++ [LF]
     ++ py "- c")
  = py "- a" ++ [LF] ++ py "## Next steps" ++ [LF] ++ py "- b".
Proof. vm_compute. reflexivity. Qed.

(** ** When a goal is completed, and a sprint without description *)

Section Completion.
Import JiraParser Sync LabelSpec AttachSpec.
Variable R : runtime.
Hypothesis Ok : set_order_ok R.


End Completion.


Section NoDescription.
Import JiraParser Sync ClientSpec.
Variable R : runtime.

Lemma strip_blank s : blank R s = true -> strip R s = [].
Proof.
  intros B. unfold strip, lstrip. unfold blank in B.
  now rewrite (drop_while_all _ _ B).
Qed.

Lemma parse_blank_description description goal_prefix side_goal_prefix :
  blank R description = true ->
  parse_sprint_description R description goal_prefix side_goal_prefix
  = {| goals := []; sideGoals := [] |}.
Proof.
  intros B. unfold parse_sprint_description.
  destruct (negb (nonempty description)); [reflexivity|].
  cbv zeta. rewrite (@strip_blank description B). reflexivity.
Qed.

(** X18.  When the sprint has no goal text, or only white space, the
    record is still built and has no goals and no side goals, whatever
    tasks and stored record there are; the stored comments then appear on
    no goal. *)
Theorem build_sprint_data_without_description
    (env : Environ) (sprint : RawSprint) (tasks : list Task)
    (existing_data : option ExistingData)
    (goal_prefix side_goal_prefix : pystr) :
  blank R (get_or (rs_goal sprint) []) = true ->
  exists out,
    build_sprint_data R env sprint tasks existing_data goal_prefix side_goal_prefix
      = Some out
    /\ s_goals out = [] /\ s_sideGoals out = [] /\ s_tasks out = tasks.
Proof.
  intros B. unfold build_sprint_data.
  rewrite (@parse_blank_description _ goal_prefix side_goal_prefix B).
  cbn [goals sideGoals build_records]. eexists. split; [reflexivity|].
  now repeat split.
Qed.

End NoDescription.

Lemma build_sprint_data_without_description_witness :
  let sprint :=
    {| Sync.rs_id := 9; Sync.rs_name := None; Sync.rs_goal := Some (py "  ");
       Sync.rs_state := None; Sync.rs_startDate := None; Sync.rs_endDate := None |} in
  ClientSpec.blank ascii_runtime (get_or (Sync.rs_goal sprint) []) = true
  /\ exists out,
       Sync.build_sprint_data ascii_runtime SyncSpec.no_environ sprint
         AttachSpec.sample_tasks (Some (SyncSpec.record_with_status (py "active")))
         (py "cel") (py "extra") = Some out
       /\ Sync.s_goals out = [].
Proof.
  intros sprint. split; [reflexivity|].
  destruct (@build_sprint_data_without_description ascii_runtime SyncSpec.no_environ
              sprint AttachSpec.sample_tasks
              (Some (SyncSpec.record_with_status (py "active")))
              (py "cel") (py "extra") eq_refl) as (out & E & G & _).
  exists out. split; [exact E|exact G].
Defined.
